(** * The MCP client of picoclaw: protocol codec, STDIO transport, session
      client, tool wrapper and manager, embedded from [pkg/mcp].

    The Go sources are embedded shallowly.  A value of type [error] is the
    text of [err.Error()], a nil error is [None].  A Go method with a pointer
    receiver takes the receiver's state and returns the new state next to its
    results.  JSON documents are taken after the scanner has accepted them,
    as trees; a frame that is not JSON at all is a separate read event of the
    transport.  The mutexes make every method one step, and the methods are
    embedded as such; the calls of the logger and the context argument, which
    the transport never reads, are left out.  A method is given with the
    state it leaves and the value it returns.  Two calls of the transport
    wait with no bound, the read of a line and the wait for the exit of the
    child; [Blocking] has them, and the calls of [Manager.Start] that reach
    them, with the outcome that the call does not return. *)

From Stdlib Require Import ZArith List String Ascii Bool Lia Sorted.
From stdpp Require Import base option list strings gmap.
Import ListNotations.
Set Warnings "-register-all".

Local Open Scope string_scope.
Local Open Scope list_scope.
Local Open Scope Z_scope.

(* ================================================================== *)
(** * Part I. Definitions                                               *)
(* ================================================================== *)

Definition error := string.

(** [fmt.Errorf("ctx: %w", err)] and [fmt.Errorf("ctx: %s", msg)]. *)
Definition Errorf (ctx : string) (cause : string) : error := ctx +:+ ": " +:+ cause.

(** Go's two's-complement [int64]: the result of an arithmetic operation is
    reduced into [-2^63, 2^63). *)
Definition int64_min : Z := - 2 ^ 63.
Definition int64_max : Z := 2 ^ 63 - 1.
Definition wrap64 (z : Z) : Z := (z + 2 ^ 63) mod 2 ^ 64 - 2 ^ 63.
Definition in_int64 (z : Z) : bool := ((int64_min <=? z) && (z <=? int64_max))%bool.

Class Zero (A : Type) := zero : A.
#[export] Instance zero_string : Zero string := "".
#[export] Instance zero_bool : Zero bool := false.
#[export] Instance zero_Z : Zero Z := 0.
#[export] Instance zero_list {A} : Zero (list A) := [].
#[export] Instance zero_option {A} : Zero (option A) := None.

(* ------------------------------------------------------------------ *)
(** ** encoding/json, as far as the client uses it                     *)
(* ------------------------------------------------------------------ *)

Module JSON.

(** A number keeps what the decoder needs of its literal: an integer literal
    its value; a literal with a fraction or an exponent its text and whether
    [strconv.ParseFloat] accepts it as a [float64]. *)
Inductive number :=
| NumInt (z : Z)
| NumReal (lit : string) (in_range : bool).

Inductive json :=
| JNull
| JBool (b : bool)
| JNumber (n : number)
| JString (s : string)
| JArray (items : list json)
| JObject (members : list (string * json)).

(** The decoded form of a JSON value in an [interface{}]: nil, bool, float64,
    string, [[]interface{}] or [map[string]interface{}]. *)
Inductive iface :=
| INil
| IBool (b : bool)
| IFloat64 (n : number)
| IString (s : string)
| ISlice (l : list iface)
| IMap (m : gmap string iface).

(** [json.RawMessage], a byte slice: empty, or the bytes of one value. *)
Inductive RawMessage :=
| RawEmpty
| Raw (j : json).

#[export] Instance zero_iface : Zero iface := INil.
#[export] Instance zero_RawMessage : Zero RawMessage := RawEmpty.
#[export] Instance zero_gmap {A} : Zero (gmap string A) := (∅ : gmap string A).

(** [ParseFloat] overflows from 2^1024 - 2^970 on. *)
Definition float64_ok (n : number) : bool :=
  match n with
  | NumInt z => Z.abs z <? 2 ^ 1024 - 2 ^ 970
  | NumReal _ ok => ok
  end.

Definition kind (j : json) : string :=
  match j with
  | JNull => "null"
  | JBool _ => "bool"
  | JNumber _ => "number"
  | JString _ => "string"
  | JArray _ => "array"
  | JObject _ => "object"
  end.

(** The text of an [UnmarshalTypeError]; the wording of the errors of the
    library is kept short, nothing below depends on it. *)
Definition type_error (j : json) (gotype : string) : error :=
  "json: cannot unmarshal " +:+ kind j +:+ " into Go value of type " +:+ gotype.

(** The decoder keeps the first error it meets and goes on decoding. *)
Definition saveError (saved new : option error) : option error :=
  match saved with
  | Some e => Some e
  | None => new
  end.

(** json.Unmarshal(data, &v): the new value of v and the error. *)
Class Unmarshal (A : Type) := unmarshal : json -> A -> A * option error.

(** Field names match exactly or under simple case folding ([foldName]):
    ASCII letters fold to upper case, U+017F (long s) to S and U+212A
    (Kelvin sign) to K; strings are UTF-8. *)
Definition upper (c : ascii) : ascii :=
  let n := nat_of_ascii c in
  if ((97 <=? n) && (n <=? 122))%nat then ascii_of_nat (n - 32) else c.

Fixpoint foldName (s : string) : string :=
  match s with
  | EmptyString => EmptyString
  | String c1 r1 =>
      match r1 with
      | String c2 r2 =>
          if (Ascii.eqb c1 "197" && Ascii.eqb c2 "191")%bool
          then String "S" (foldName r2)
          else
            match r2 with
            | String c3 r3 =>
                if (Ascii.eqb c1 "226" && Ascii.eqb c2 "132" && Ascii.eqb c3 "170")%bool
                then String "K" (foldName r3)
                else String (upper c1) (foldName r1)
            | EmptyString => String (upper c1) (foldName r1)
            end
      | EmptyString => String (upper c1) EmptyString
      end
  end.

(** One field of a struct type: its JSON name and how a value is stored
    into it. *)
Record field (A : Type) := Field {
  fname : string;
  fstore : json -> A -> A * option error
}.
Arguments Field {A} _ _.
Arguments fname {A} _.
Arguments fstore {A} _ _ _.

Definition fld {A B} `{Unmarshal B} (name : string) (get : A -> B) (set : B -> A -> A)
  : field A :=
  Field name (fun v a => let '(b, e) := unmarshal v (get a) in (set b a, e)).

Definition find_field {A} (fields : list (field A)) (key : string) : option (field A) :=
  match List.find (fun f => String.eqb (fname f) key) fields with
  | Some f => Some f
  | None => List.find (fun f => String.eqb (foldName (fname f)) (foldName key)) fields
  end.

Definition store_member {A} (fields : list (field A)) (st : A * option error)
  (kv : string * json) : A * option error :=
  match find_field fields kv.1 with
  | Some f => let '(a, e) := fstore f kv.2 st.1 in (a, saveError st.2 e)
  | None => st
  end.

(** Decoding into a struct: null leaves it as it is, an object stores its
    members in document order (a repeated key stores again), anything else is
    a type error. *)
Definition unmarshal_struct {A} (gotype : string) (fields : list (field A)) : Unmarshal A :=
  fun j a =>
    match j with
    | JNull => (a, None)
    | JObject ms => fold_left (store_member fields) ms (a, None)
    | _ => (a, Some (type_error j gotype))
    end.

#[export] Instance unmarshal_string : Unmarshal string := fun j s =>
  match j with
  | JString x => (x, None)
  | JNull => (s, None)
  | _ => (s, Some (type_error j "string"))
  end.

#[export] Instance unmarshal_bool : Unmarshal bool := fun j b =>
  match j with
  | JBool x => (x, None)
  | JNull => (b, None)
  | _ => (b, Some (type_error j "bool"))
  end.

(** [int64] and, on the 64-bit targets, [int]. *)
#[export] Instance unmarshal_int64 : Unmarshal Z := fun j n =>
  match j with
  | JNumber (NumInt z) =>
      if in_int64 z then (z, None) else (n, Some (type_error j "int64"))
  | JNull => (n, None)
  | _ => (n, Some (type_error j "int64"))
  end.

#[export] Instance unmarshal_RawMessage : Unmarshal RawMessage := fun j _ => (Raw j, None).

(** Decoding into an empty interface.  A number outside [float64] is an
    error and leaves nil in its place; a repeated key of an object
    overwrites the entry. *)
Definition decode_elems (f : json -> iface * option error)
  : list json -> list iface * option error :=
  fix go (l : list json) :=
    match l with
    | [] => ([], None)
    | x :: r =>
        let '(v, e) := f x in
        let '(vs, es) := go r in
        (v :: vs, saveError e es)
    end.

Definition decode_members (f : json -> iface * option error)
  : list (string * json) -> gmap string iface -> option error ->
    gmap string iface * option error :=
  fix go (l : list (string * json)) (m : gmap string iface) (e : option error) :=
    match l with
    | [] => (m, e)
    | (k, x) :: r =>
        let '(v, e') := f x in
        go r (<[k := v]> m) (saveError e e')
    end.

Fixpoint decode_iface (j : json) : iface * option error :=
  match j with
  | JNull => (INil, None)
  | JBool b => (IBool b, None)
  | JNumber n =>
      if float64_ok n then (IFloat64 n, None) else (INil, Some (type_error j "float64"))
  | JString s => (IString s, None)
  | JArray items =>
      let '(vs, e) := decode_elems decode_iface items in (ISlice vs, e)
  | JObject members =>
      let '(m, e) := decode_members decode_iface members ∅ None in (IMap m, e)
  end.

#[export] Instance unmarshal_iface : Unmarshal iface := fun j v =>
  match j with
  | JNumber n => if float64_ok n then (IFloat64 n, None) else (v, Some (type_error j "float64"))
  | _ => decode_iface j
  end.

(** A slice is reset and gets one element per array item, each decoded into
    a zero element. *)
Definition unmarshal_items {A} `{Zero A} `{Unmarshal A} (items : list json)
  : list A * option error :=
  fold_right (fun x acc =>
                let '(v, e) := unmarshal x zero in
                (v :: acc.1, saveError e acc.2)) ([], None) items.

#[export] Instance unmarshal_slice {A} `{Zero A} `{Unmarshal A} : Unmarshal (list A) :=
  fun j l =>
    match j with
    | JArray items => unmarshal_items items
    | JNull => ([], None)
    | _ => (l, Some (type_error j "slice"))
    end.

(** A pointer: null sets it to nil, anything else is decoded into the
    pointee, allocated when the pointer is nil. *)
#[export] Instance unmarshal_ptr {A} `{Zero A} `{Unmarshal A} : Unmarshal (option A) :=
  fun j p =>
    match j with
    | JNull => (None, None)
    | _ => let '(v, e) := unmarshal j (default zero p) in (Some v, e)
    end.

(** [map[string]interface{}]. *)
#[export] Instance unmarshal_map : Unmarshal (gmap string iface) := fun j m =>
  match j with
  | JObject members =>
      fold_left (fun st kv =>
                   let '(v, e) := unmarshal kv.2 INil in
                   (<[kv.1 := v]> st.1, saveError st.2 e)) members (m, None)
  | JNull => (∅, None)
  | _ => (m, Some (type_error j "map[string]interface {}"))
  end.

(** [[]byte]: a string is base64 in the standard padded alphabet, with CR
    and LF skipped ([base64.StdEncoding]); an array gives one byte per
    number. *)
Inductive Bytes := MkBytes (data : list ascii).

#[export] Instance zero_Bytes : Zero Bytes := MkBytes [].

Definition b64_value (c : ascii) : option N :=
  let n := N_of_ascii c in
  if ((65 <=? n) && (n <=? 90))%N then Some (n - 65)%N
  else if ((97 <=? n) && (n <=? 122))%N then Some (n - 71)%N
  else if ((48 <=? n) && (n <=? 57))%N then Some (n + 4)%N
  else if (n =? 43)%N then Some 62%N
  else if (n =? 47)%N then Some 63%N
  else None.

Definition is_pad (c : ascii) : bool := Ascii.eqb c "=".

Definition b64_bytes (count : nat) (bits : N) : list ascii :=
  firstn count [ascii_of_N (N.shiftr bits 16 mod 256);
                ascii_of_N (N.shiftr bits 8 mod 256);
                ascii_of_N (bits mod 256)].

Fixpoint b64_quanta (l : list ascii) : option (list ascii) :=
  match l with
  | [] => Some []
  | a :: b :: c :: d :: rest =>
      match b64_value a, b64_value b with
      | Some x, Some y =>
          match b64_value c, b64_value d with
          | Some z, Some w =>
              option_map (app (b64_bytes 3 (x * 262144 + y * 4096 + z * 64 + w)%N))
                         (b64_quanta rest)
          | Some z, None =>
              if (is_pad d && bool_decide (rest = []))%bool
              then Some (b64_bytes 2 (x * 262144 + y * 4096 + z * 64)%N)
              else None
          | None, _ =>
              if (is_pad c && is_pad d && bool_decide (rest = []))%bool
              then Some (b64_bytes 1 (x * 262144 + y * 4096)%N)
              else None
          end
      | _, _ => None
      end
  | _ => None
  end.

Definition base64_decode (s : string) : option (list ascii) :=
  b64_quanta (List.filter (fun c => negb (Ascii.eqb c "010" || Ascii.eqb c "013"))
                          (list_ascii_of_string s)).

Definition unmarshal_uint8 (j : json) (b : ascii) : ascii * option error :=
  match j with
  | JNumber (NumInt z) =>
      if ((0 <=? z) && (z <=? 255))%bool then (ascii_of_N (Z.to_N z), None)
      else (b, Some (type_error j "uint8"))
  | JNull => (b, None)
  | _ => (b, Some (type_error j "uint8"))
  end.

#[export] Instance unmarshal_Bytes : Unmarshal Bytes := fun j b =>
  match j with
  | JString s =>
      match base64_decode s with
      | Some data => (MkBytes data, None)
      | None => (b, Some "illegal base64 data")
      end
  | JArray items =>
      let r := fold_right (fun x acc =>
                             let '(v, e) := unmarshal_uint8 x "000" in
                             (v :: acc.1, saveError e acc.2)) ([], None) items in
      (MkBytes r.1, r.2)
  | JNull => (MkBytes [], None)
  | _ => (b, Some (type_error j "[]uint8"))
  end.

End JSON.
Export JSON.

(* ------------------------------------------------------------------ *)
(** ** types.go                                                        *)
(* ------------------------------------------------------------------ *)

(** [MCPServer].  [Env] is a slice whose nil-ness matters to os/exec, so it
    is an option: [None] is the nil slice. *)
Record MCPServer := {
  Name : string;
  Command : string;
  Args : list string;
  Env : option (list string);
  Enabled : bool
}.

Record MCPTool := {
  tool_Name : string;
  tool_Description : string;
  InputSchema : gmap string iface
}.

Record ToolsCaps := { tools_ListChanged : bool }.
Record ResourcesCaps := { Subscribe : bool; resources_ListChanged : bool }.
Record PromptsCaps := { prompts_ListChanged : bool }.

Record ServerCapabilities := {
  Tools : ToolsCaps;
  Resources : ResourcesCaps;
  Prompts : PromptsCaps
}.

Record ServerInfo := {
  info_Name : string;
  info_Version : string
}.

Record InitializeResult := {
  ProtocolVersion : string;
  result_ServerInfo : ServerInfo;
  Capabilities : ServerCapabilities
}.

Record TextContent := {
  text_Type : string;
  Text : string
}.

Record ImageContent := {
  image_Type : string;
  Data : string;
  image_MimeType : string
}.

Record ResourceContent := {
  URI : string;
  resource_MimeType : string;
  resource_Text : string;
  Blob : Bytes
}.

(** What an element of [Content []interface{}] can hold: one of the three
    structs, stored by value, or a value decoded by encoding/json. *)
Inductive content :=
| CText (t : TextContent)
| CImage (i : ImageContent)
| CResource (r : ResourceContent)
| CValue (v : iface).

Record ToolCallResult := {
  Content : list content;
  IsError : bool
}.

#[export] Instance zero_ToolsCaps : Zero ToolsCaps := {| tools_ListChanged := false |}.
#[export] Instance zero_ResourcesCaps : Zero ResourcesCaps :=
  {| Subscribe := false; resources_ListChanged := false |}.
#[export] Instance zero_PromptsCaps : Zero PromptsCaps := {| prompts_ListChanged := false |}.
#[export] Instance zero_ServerCapabilities : Zero ServerCapabilities :=
  {| Tools := zero; Resources := zero; Prompts := zero |}.
#[export] Instance zero_ServerInfo : Zero ServerInfo := {| info_Name := ""; info_Version := "" |}.
#[export] Instance zero_InitializeResult : Zero InitializeResult :=
  {| ProtocolVersion := ""; result_ServerInfo := zero; Capabilities := zero |}.
#[export] Instance zero_MCPTool : Zero MCPTool :=
  {| tool_Name := ""; tool_Description := ""; InputSchema := ∅ |}.
#[export] Instance zero_TextContent : Zero TextContent := {| text_Type := ""; Text := "" |}.
#[export] Instance zero_ImageContent : Zero ImageContent :=
  {| image_Type := ""; Data := ""; image_MimeType := "" |}.
#[export] Instance zero_ResourceContent : Zero ResourceContent :=
  {| URI := ""; resource_MimeType := ""; resource_Text := ""; Blob := zero |}.
#[export] Instance zero_ToolCallResult : Zero ToolCallResult :=
  {| Content := []; IsError := false |}.

(** The struct tags. *)
#[export] Instance unmarshal_TextContent : Unmarshal TextContent :=
  unmarshal_struct "mcp.TextContent"
    [ fld "type" text_Type (fun v t => {| text_Type := v; Text := Text t |});
      fld "text" Text (fun v t => {| text_Type := text_Type t; Text := v |}) ].

#[export] Instance unmarshal_ImageContent : Unmarshal ImageContent :=
  unmarshal_struct "mcp.ImageContent"
    [ fld "type" image_Type
        (fun v i => {| image_Type := v; Data := Data i; image_MimeType := image_MimeType i |});
      fld "data" Data
        (fun v i => {| image_Type := image_Type i; Data := v; image_MimeType := image_MimeType i |});
      fld "mimeType" image_MimeType
        (fun v i => {| image_Type := image_Type i; Data := Data i; image_MimeType := v |}) ].

#[export] Instance unmarshal_ResourceContent : Unmarshal ResourceContent :=
  unmarshal_struct "mcp.ResourceContent"
    [ fld "uri" URI
        (fun v r => {| URI := v; resource_MimeType := resource_MimeType r;
                       resource_Text := resource_Text r; Blob := Blob r |});
      fld "mimeType" resource_MimeType
        (fun v r => {| URI := URI r; resource_MimeType := v;
                       resource_Text := resource_Text r; Blob := Blob r |});
      fld "text" resource_Text
        (fun v r => {| URI := URI r; resource_MimeType := resource_MimeType r;
                       resource_Text := v; Blob := Blob r |});
      fld "blob" Blob
        (fun v r => {| URI := URI r; resource_MimeType := resource_MimeType r;
                       resource_Text := resource_Text r; Blob := v |}) ].

#[export] Instance unmarshal_ServerInfo : Unmarshal ServerInfo :=
  unmarshal_struct "mcp.ServerInfo"
    [ fld "name" info_Name (fun v i => {| info_Name := v; info_Version := info_Version i |});
      fld "version" info_Version (fun v i => {| info_Name := info_Name i; info_Version := v |}) ].

#[export] Instance unmarshal_ToolsCaps : Unmarshal ToolsCaps :=
  unmarshal_struct "struct"
    [ fld "listChanged" tools_ListChanged (fun v _ => {| tools_ListChanged := v |}) ].

#[export] Instance unmarshal_ResourcesCaps : Unmarshal ResourcesCaps :=
  unmarshal_struct "struct"
    [ fld "subscribe" Subscribe
        (fun v c => {| Subscribe := v; resources_ListChanged := resources_ListChanged c |});
      fld "listChanged" resources_ListChanged
        (fun v c => {| Subscribe := Subscribe c; resources_ListChanged := v |}) ].

#[export] Instance unmarshal_PromptsCaps : Unmarshal PromptsCaps :=
  unmarshal_struct "struct"
    [ fld "listChanged" prompts_ListChanged (fun v _ => {| prompts_ListChanged := v |}) ].

#[export] Instance unmarshal_ServerCapabilities : Unmarshal ServerCapabilities :=
  unmarshal_struct "mcp.ServerCapabilities"
    [ fld "tools" Tools
        (fun v c => {| Tools := v; Resources := Resources c; Prompts := Prompts c |});
      fld "resources" Resources
        (fun v c => {| Tools := Tools c; Resources := v; Prompts := Prompts c |});
      fld "prompts" Prompts
        (fun v c => {| Tools := Tools c; Resources := Resources c; Prompts := v |}) ].

#[export] Instance unmarshal_InitializeResult : Unmarshal InitializeResult :=
  unmarshal_struct "mcp.InitializeResult"
    [ fld "protocolVersion" ProtocolVersion
        (fun v r => {| ProtocolVersion := v; result_ServerInfo := result_ServerInfo r;
                       Capabilities := Capabilities r |});
      fld "serverInfo" result_ServerInfo
        (fun v r => {| ProtocolVersion := ProtocolVersion r; result_ServerInfo := v;
                       Capabilities := Capabilities r |});
      fld "capabilities" Capabilities
        (fun v r => {| ProtocolVersion := ProtocolVersion r;
                       result_ServerInfo := result_ServerInfo r; Capabilities := v |}) ].

#[export] Instance unmarshal_MCPTool : Unmarshal MCPTool :=
  unmarshal_struct "mcp.MCPTool"
    [ fld "name" tool_Name
        (fun v t => {| tool_Name := v; tool_Description := tool_Description t;
                       InputSchema := InputSchema t |});
      fld "description" tool_Description
        (fun v t => {| tool_Name := tool_Name t; tool_Description := v;
                       InputSchema := InputSchema t |});
      fld "inputSchema" InputSchema
        (fun v t => {| tool_Name := tool_Name t; tool_Description := tool_Description t;
                       InputSchema := v |}) ].

(** The local type [contentWrapper] of [UnmarshalJSON]. *)
Record contentWrapper := {
  wrapper_Content : list iface;
  wrapper_IsError : bool
}.

#[export] Instance zero_contentWrapper : Zero contentWrapper :=
  {| wrapper_Content := []; wrapper_IsError := false |}.

#[export] Instance unmarshal_contentWrapper : Unmarshal contentWrapper :=
  unmarshal_struct "mcp.contentWrapper"
    [ fld "content" wrapper_Content
        (fun v w => {| wrapper_Content := v; wrapper_IsError := wrapper_IsError w |});
      fld "isError" wrapper_IsError
        (fun v w => {| wrapper_Content := wrapper_Content w; wrapper_IsError := v |}) ].

(** json.Unmarshal(item, &v) for an element of [[]json.RawMessage]; an empty
    message is not a JSON text. *)
Definition unmarshal_raw {A} `{Unmarshal A} (item : RawMessage) (v : A) : A * option error :=
  match item with
  | Raw j => unmarshal j v
  | RawEmpty => (v, Some "unexpected end of JSON input")
  end.

Module ToolCallResult.

(** One round of the loop over [arr] in [UnmarshalJSON]: the element that is
    appended to [t.Content]. *)
Definition decode_item (item : RawMessage) : content :=
  let '(text, err) := unmarshal_raw item (zero : TextContent) in
  if (bool_decide (err = None) && String.eqb (text_Type text) "text")%bool then CText text
  else
    let '(image, err) := unmarshal_raw item (zero : ImageContent) in
    if (bool_decide (err = None) && String.eqb (image_Type image) "image")%bool then CImage image
    else
      let '(resource, err) := unmarshal_raw item (zero : ResourceContent) in
      if (bool_decide (err = None) && negb (String.eqb (URI resource) ""))%bool
      then CResource resource
      else
        let '(iface, _) := unmarshal_raw item (zero : iface) in
        CValue iface.

(** [ToolCallResult.UnmarshalJSON]: the receiver after the call and the
    returned error. *)
Definition UnmarshalJSON (t : ToolCallResult) (data : json) : ToolCallResult * option error :=
  let '(str, err) := unmarshal data ("" : string) in
  if bool_decide (err = None) then
    ({| Content := [CText {| text_Type := "text"; Text := str |}]; IsError := IsError t |}, None)
  else
    let '(arr, err) := unmarshal data ([] : list RawMessage) in
    if bool_decide (err = None) then
      (fold_left (fun t item =>
                    {| Content := Content t ++ [decode_item item]; IsError := IsError t |})
                 arr t, None)
    else
      let '(wrapper, err) := unmarshal data (zero : contentWrapper) in
      if bool_decide (err = None) then
        ({| Content := map CValue (wrapper_Content wrapper);
            IsError := wrapper_IsError wrapper |}, None)
      else (t, None).

(** The body of the loop of [GetText]: what one element writes to the
    builder. *)
Definition WriteString (builder s : string) : string := builder +:+ s.

Definition GetText_step (result : string) (c : content) : string :=
  let result :=
    match c with
    | CText text => WriteString result (Text text)
    | _ => result
    end in
  match c with
  | CValue (IMap text) =>
      match text !! "type" with
      | Some (IString typ) =>
          if String.eqb typ "text" then
            match text !! "text" with
            | Some (IString txt) => WriteString result txt
            | _ => result
            end
          else result
      | _ => result
      end
  | _ => result
  end.

Definition GetText (t : ToolCallResult) : string :=
  fold_left GetText_step (Content t) "".

End ToolCallResult.

#[export] Instance unmarshal_ToolCallResult : Unmarshal ToolCallResult :=
  fun j t => ToolCallResult.UnmarshalJSON t j.

(* ------------------------------------------------------------------ *)
(** ** protocol.go                                                     *)
(* ------------------------------------------------------------------ *)

Record RPCError := {
  Code : Z;
  Message : string;
  error_Data : RawMessage
}.

Record JSONRPCResponse := {
  JSONRPC : string;
  ID : Z;
  Result : RawMessage;
  Error : option RPCError
}.

#[export] Instance zero_RPCError : Zero RPCError :=
  {| Code := 0; Message := ""; error_Data := RawEmpty |}.
#[export] Instance zero_JSONRPCResponse : Zero JSONRPCResponse :=
  {| JSONRPC := ""; ID := 0; Result := RawEmpty; Error := None |}.

Definition ParseError : Z := -32700.
Definition InvalidRequest : Z := -32600.
Definition MethodNotFound : Z := -32601.
Definition InvalidParams : Z := -32602.
Definition InternalError : Z := -32603.

Definition MethodInitialize : string := "initialize".
Definition MethodInitialized : string := "notifications/initialized".
Definition MethodShutdown : string := "shutdown".
Definition MethodListTools : string := "tools/list".
Definition MethodCallTool : string := "tools/call".

#[export] Instance unmarshal_RPCError : Unmarshal RPCError :=
  unmarshal_struct "mcp.RPCError"
    [ fld "code" Code
        (fun v e => {| Code := v; Message := Message e; error_Data := error_Data e |});
      fld "message" Message
        (fun v e => {| Code := Code e; Message := v; error_Data := error_Data e |});
      fld "data" error_Data
        (fun v e => {| Code := Code e; Message := Message e; error_Data := v |}) ].

(** [JSONRPCResponse.UnmarshalJSON] decodes into an alias of the struct: the
    plain struct decoding, with no check of its own. *)
#[export] Instance unmarshal_JSONRPCResponse : Unmarshal JSONRPCResponse :=
  unmarshal_struct "mcp.alias"
    [ fld "jsonrpc" JSONRPC
        (fun v r => {| JSONRPC := v; ID := ID r; Result := Result r; Error := Error r |});
      fld "id" ID
        (fun v r => {| JSONRPC := JSONRPC r; ID := v; Result := Result r; Error := Error r |});
      fld "result" Result
        (fun v r => {| JSONRPC := JSONRPC r; ID := ID r; Result := v; Error := Error r |});
      fld "error" Error
        (fun v r => {| JSONRPC := JSONRPC r; ID := ID r; Result := Result r; Error := v |}) ].

Module JSONRPCResponse.

Definition IsError (r : JSONRPCResponse) : bool :=
  bool_decide (Error r <> None).

Section Sprintf.

(** How [fmt] prints a [float64] under [%v]; floating-point formatting is
    left open. *)
Variable FormatFloat : number -> string.

Fixpoint insert_sorted (kv : string * string) (l : list (string * string))
  : list (string * string) :=
  match l with
  | [] => [kv]
  | x :: r => if String.leb kv.1 x.1 then kv :: l else x :: insert_sorted kv r
  end.

Definition join (sep : string) (l : list string) : string :=
  match l with
  | [] => ""
  | x :: r => fold_left (fun acc y => acc +:+ sep +:+ y) r x
  end.

(** [fmt.Sprintf("%v", v)] for a decoded JSON value: maps print as
    [map[k:v k:v]] with the keys sorted, slices as [[a b]], nil as
    [<nil>]. *)
Fixpoint Sprintv (v : iface) : string :=
  match v with
  | INil => "<nil>"
  | IBool true => "true"
  | IBool false => "false"
  | IFloat64 n => FormatFloat n
  | IString s => s
  | ISlice l => "[" +:+ join " " (map Sprintv l) +:+ "]"
  | IMap m =>
      "map[" +:+
      join " " (map (fun kv => kv.1 +:+ ":" +:+ kv.2)
                    (fold_right insert_sorted [] (map_to_list (Sprintv <$> m)))) +:+
      "]"
  end.

(** [JSONRPCResponse.GetError]. *)
Definition GetError (r : JSONRPCResponse) : option error :=
  match Error r with
  | None => None
  | Some e =>
      let msg := Message e in
      let msg :=
        match error_Data e with
        | Raw j =>
            let '(data, err) := unmarshal j INil in
            if bool_decide (err = None) then msg +:+ ": " +:+ Sprintv data else msg
        | RawEmpty => msg
        end in
      Some msg
  end.

(** [JSONRPCResponse.UnmarshalResult]: the error of the response when it
    has one, nothing to do when the result is empty, [json.Unmarshal]
    otherwise. *)
Definition UnmarshalResult {A} `{Unmarshal A} (r : JSONRPCResponse) (v : A)
  : A * option error :=
  if IsError r then (v, GetError r)
  else
    match Result r with
    | RawEmpty => (v, None)
    | Raw j => unmarshal j v
    end.

End Sprintf.

End JSONRPCResponse.

(* ------------------------------------------------------------------ *)
(** ** os/exec and the child process                                   *)
(* ------------------------------------------------------------------ *)

(** What the session can send: the maps built by the client, with the id
    absent in a notification. *)
Record ClientInfo := { client_Name : string; client_Version : string }.

Record InitializeParams := {
  params_ProtocolVersion : string;
  params_ListChanged : bool;
  params_ClientInfo : ClientInfo
}.

Inductive Params :=
| ParamsInitialize (p : InitializeParams)
| ParamsListTools
| ParamsCallTool (name : string) (arguments : gmap string iface).

Record Frame := {
  frame_jsonrpc : string;
  frame_id : option Z;
  frame_method : string;
  frame_params : option Params
}.

(** One read from the child's stdout.  The script [[]] is end of file. *)
Inductive read_event :=
| ReadLine (j : json)
| ReadMalformed (syntax_error : error)
| ReadFailed (err : error).

(** One [Send]: both writes succeed, the write of the frame fails, or the
    write of the newline after it fails. *)
Inductive write_event :=
| WriteOk
| WriteFrameFailed (err : error)
| WriteNewlineFailed (err : error).

Inductive pipe_event :=
| PipesOk
| StdinPipeFailed (err : error)
| StdoutPipeFailed (err : error)
| StderrPipeFailed (err : error).

(** The operating system and the child as one transport meets them.  The
    errors of closing stdin and of waiting are only logged.  The last two
    fields say what the child does where the transport waits for it with no
    bound: whether, once it has printed its lines, it keeps its output open
    and prints nothing more, instead of ending its output; and whether it
    exits once its stdin is closed. *)
Record Child := {
  Environ : list string;
  pipes : pipe_event;
  start_error : option error;
  writes : list write_event;
  stdout : list read_event;
  stdin_close_error : option error;
  wait_error : option error;
  stays_silent : bool;
  exits : bool
}.

(** What the transport does to the outside, in order. *)
Inductive event :=
| Spawned (path : string) (args env : list string)
| Wrote (m : Frame)
| WroteNewline
| ClosedStdin
| Waited.

Record Cmd := {
  Path : string;
  cmd_Args : list string;
  cmd_Env : option (list string);
  Process : bool
}.

(** The environment os/exec gives the child ([Cmd.environ]): [Cmd.Env], or
    the environment of the current process when that is nil; in both cases
    without the entries that a later entry with the same key overrides
    ([dedupEnv]).  An entry with a NUL byte is dropped and makes [Cmd.Start]
    fail.  This is os/exec on the Unix targets. *)
Fixpoint index_equals (s : string) : option nat :=
  match s with
  | EmptyString => None
  | String c r => if Ascii.eqb c "=" then Some O else S <$> index_equals r
  end.

(** The key of an entry; a leading [=] belongs to the key. *)
Definition env_key (kv : string) : option string :=
  match kv with
  | String c r =>
      if Ascii.eqb c "=" then
        match index_equals r with
        | Some i => Some (substring 0 (S i) kv)
        | None => Some ""
        end
      else (fun i => substring 0 i kv) <$> index_equals kv
  | EmptyString => None
  end.

Fixpoint has_nul (s : string) : bool :=
  match s with
  | EmptyString => false
  | String c r => (Ascii.eqb c "000" || has_nul r)%bool
  end.

Fixpoint dedup_keys (env : list string) : list string :=
  match env with
  | [] => []
  | kv :: rest =>
      match env_key kv with
      | None => if String.eqb kv "" then dedup_keys rest else kv :: dedup_keys rest
      | Some k =>
          if existsb (fun kv' => bool_decide (env_key kv' = Some k)) rest
          then dedup_keys rest
          else kv :: dedup_keys rest
      end
  end.

Definition dedupEnv (env : list string) : list string * option error :=
  (dedup_keys (List.filter (fun kv => negb (has_nul kv)) env),
   if existsb has_nul env then Some "exec: environment variable contains NUL" else None).

Definition cmd_environ (os_environ : list string) (c : Cmd) : list string * option error :=
  let env :=
    match cmd_Env c with
    | None => os_environ
    | Some env => env
    end in
  dedupEnv env.

(* ------------------------------------------------------------------ *)
(** ** transport/stdio.go                                              *)
(* ------------------------------------------------------------------ *)

Record STDIOTransport := {
  cmd : Cmd;
  closed : bool;
  child : Child;
  trace : list event
}.

Definition set_closed (b : bool) (t : STDIOTransport) : STDIOTransport :=
  {| cmd := cmd t; closed := b; child := child t; trace := trace t |}.

Definition emit (e : event) (t : STDIOTransport) : STDIOTransport :=
  {| cmd := cmd t; closed := closed t; child := child t; trace := trace t ++ [e] |}.

Definition set_writes (w : list write_event) (t : STDIOTransport) : STDIOTransport :=
  {| cmd := cmd t; closed := closed t;
     child := {| Environ := Environ (child t); pipes := pipes (child t);
                 start_error := start_error (child t); writes := w;
                 stdout := stdout (child t);
                 stdin_close_error := stdin_close_error (child t);
                 wait_error := wait_error (child t);
                 stays_silent := stays_silent (child t); exits := exits (child t) |};
     trace := trace t |}.

Definition set_stdout (r : list read_event) (t : STDIOTransport) : STDIOTransport :=
  {| cmd := cmd t; closed := closed t;
     child := {| Environ := Environ (child t); pipes := pipes (child t);
                 start_error := start_error (child t); writes := writes (child t);
                 stdout := r;
                 stdin_close_error := stdin_close_error (child t);
                 wait_error := wait_error (child t);
                 stays_silent := stays_silent (child t); exits := exits (child t) |};
     trace := trace t |}.

Definition set_started (t : STDIOTransport) : STDIOTransport :=
  {| cmd := {| Path := Path (cmd t); cmd_Args := cmd_Args (cmd t);
               cmd_Env := cmd_Env (cmd t); Process := true |};
     closed := closed t; child := child t; trace := trace t |}.

Definition NewSTDIOTransport (os : Child) (command : string) (args : list string)
  (env : option (list string)) : error + STDIOTransport :=
  let cmd := {| Path := command; cmd_Args := args; cmd_Env := env; Process := false |} in
  match pipes os with
  | StdinPipeFailed err => inl (Errorf "failed to create stdin pipe" err)
  | StdoutPipeFailed err => inl (Errorf "failed to create stdout pipe" err)
  | StderrPipeFailed err => inl (Errorf "failed to create stderr pipe" err)
  | PipesOk => inr {| cmd := cmd; closed := false; child := os; trace := [] |}
  end.

(** The four operations of the transport, each with the state it leaves and
    the value it returns.  [Receive] and [Close] wait with no bound, for a
    line and for the exit of the child; what they are given here is what
    they return when what they wait for comes.  [Blocking], further down,
    has them with the case in which it does not come. *)
Module STDIOTransport.

Definition Start (t : STDIOTransport) : STDIOTransport * option error :=
  if closed t then (t, Some "transport is closed")
  else if Process (cmd t) then
    (t, Some (Errorf "failed to start MCP server" "exec: already started"))
  else
    match cmd_environ (Environ (child t)) (cmd t) with
    | (_, Some err) => (t, Some (Errorf "failed to start MCP server" err))
    | (env, None) =>
        match start_error (child t) with
        | Some err => (t, Some (Errorf "failed to start MCP server" err))
        | None => (emit (Spawned (Path (cmd t)) (cmd_Args (cmd t)) env) (set_started t), None)
        end
    end.

Definition Send (t : STDIOTransport) (req : Frame) : STDIOTransport * option error :=
  if closed t then (t, Some "transport is closed")
  else
    match writes (child t) with
    | [] => (emit WroteNewline (emit (Wrote req) t), None)
    | WriteOk :: rest => (emit WroteNewline (emit (Wrote req) (set_writes rest t)), None)
    | WriteFrameFailed err :: rest =>
        (set_writes rest t, Some (Errorf "failed to write to stdin" err))
    | WriteNewlineFailed err :: rest =>
        (emit (Wrote req) (set_writes rest t), Some (Errorf "failed to write newline" err))
    end.

Definition Receive (t : STDIOTransport) : STDIOTransport * (error + JSONRPCResponse) :=
  if closed t then (t, inl "transport is closed")
  else
    match stdout (child t) with
    | [] => (t, inl "MCP server closed connection")
    | ReadFailed err :: rest => (set_stdout rest t, inl (Errorf "failed to read from stdout" err))
    | ReadMalformed err :: rest =>
        (set_stdout rest t, inl (Errorf "failed to unmarshal response" err))
    | ReadLine line :: rest =>
        let '(resp, err) := unmarshal line (zero : JSONRPCResponse) in
        match err with
        | Some err => (set_stdout rest t, inl (Errorf "failed to unmarshal response" err))
        | None => (set_stdout rest t, inr resp)
        end
    end.

Definition Close (t : STDIOTransport) : STDIOTransport * option error :=
  if closed t then (t, None)
  else
    let t := set_closed true t in
    let t := emit ClosedStdin t in
    let t := if Process (cmd t) then emit Waited t else t in
    (t, None).

Definition IsClosed (t : STDIOTransport) : bool := closed t.

End STDIOTransport.

(* ------------------------------------------------------------------ *)
(** ** The session client                                              *)
(* ------------------------------------------------------------------ *)

Record ListToolsResult := {
  result_Tools : list MCPTool;
  NextCursor : option string
}.

#[export] Instance zero_ListToolsResult : Zero ListToolsResult :=
  {| result_Tools := []; NextCursor := None |}.

#[export] Instance unmarshal_ListToolsResult : Unmarshal ListToolsResult :=
  unmarshal_struct "mcp.ListToolsResult"
    [ fld "tools" result_Tools (fun v r => {| result_Tools := v; NextCursor := NextCursor r |});
      fld "nextCursor" NextCursor
        (fun v r => {| result_Tools := result_Tools r; NextCursor := v |}) ].

Record Client := {
  server : MCPServer;
  transport : STDIOTransport;
  requestID : Z;
  capabilities : ServerCapabilities;
  tools : list MCPTool;
  initialized : bool
}.

Definition set_transport (t : STDIOTransport) (c : Client) : Client :=
  {| server := server c; transport := t; requestID := requestID c;
     capabilities := capabilities c; tools := tools c; initialized := initialized c |}.

Definition set_initialized (b : bool) (c : Client) : Client :=
  {| server := server c; transport := transport c; requestID := requestID c;
     capabilities := capabilities c; tools := tools c; initialized := b |}.

Definition set_capabilities (caps : ServerCapabilities) (c : Client) : Client :=
  {| server := server c; transport := transport c; requestID := requestID c;
     capabilities := caps; tools := tools c; initialized := initialized c |}.

Definition set_tools (l : list MCPTool) (c : Client) : Client :=
  {| server := server c; transport := transport c; requestID := requestID c;
     capabilities := capabilities c; tools := l; initialized := initialized c |}.

(** [c.requestID++] *)
Definition incr_requestID (c : Client) : Client :=
  {| server := server c; transport := transport c; requestID := wrap64 (requestID c + 1);
     capabilities := capabilities c; tools := tools c; initialized := initialized c |}.

(** The helper [unmarshalJSON(data, v)]: [json.Unmarshal] on the bytes of a
    raw message. *)
Definition unmarshalJSON {A} `{Unmarshal A} (data : RawMessage) (v : A) : A * option error :=
  unmarshal_raw data v.

Definition NewClient (os : Child) (server : MCPServer) : error + Client :=
  match NewSTDIOTransport os (Command server) (Args server) (Env server) with
  | inl err => inl (Errorf "failed to create STDIO transport" err)
  | inr stdioTransport =>
      inr {| server := server; transport := stdioTransport; requestID := 0;
             capabilities := zero; tools := []; initialized := false |}
  end.

(** The methods of the session, each with what it returns when the calls
    of the transport it makes return. *)
Module Client.

Definition Connect (c : Client) : Client * option error :=
  let '(t, err) := STDIOTransport.Start (transport c) in
  match err with
  | Some err => (set_transport t c, Some (Errorf "failed to start transport" err))
  | None => (set_transport t c, None)
  end.

Definition request (c : Client) (method : string) (params : option Params) : Frame :=
  {| frame_jsonrpc := "2.0"; frame_id := Some (requestID c);
     frame_method := method; frame_params := params |}.

Definition Initialize (c : Client) : Client * option error :=
  let c := incr_requestID c in
  let req := request c MethodInitialize
               (Some (ParamsInitialize
                        {| params_ProtocolVersion := "2024-11-05";
                           params_ListChanged := false;
                           params_ClientInfo :=
                             {| client_Name := "picoclaw"; client_Version := "0.1.0" |} |})) in
  let '(t, err) := STDIOTransport.Send (transport c) req in
  let c := set_transport t c in
  match err with
  | Some err => (c, Some (Errorf "failed to send initialize" err))
  | None =>
      let '(t, r) := STDIOTransport.Receive (transport c) in
      let c := set_transport t c in
      match r with
      | inl err => (c, Some (Errorf "failed to receive initialize response" err))
      | inr resp =>
          match Error resp with
          | Some e => (c, Some (Errorf "initialize error" (Message e)))
          | None =>
              let '(result, err) := unmarshalJSON (Result resp) (zero : InitializeResult) in
              match err with
              | Some err => (c, Some (Errorf "failed to unmarshal initialize result" err))
              | None =>
                  let c := set_capabilities (Capabilities result) c in
                  let c := set_initialized true c in
                  let notif := {| frame_jsonrpc := "2.0"; frame_id := None;
                                  frame_method := MethodInitialized;
                                  frame_params := None |} in
                  let '(t, _) := STDIOTransport.Send (transport c) notif in
                  (set_transport t c, None)
              end
          end
      end
  end.

Definition ListTools (c : Client) : Client * (error + list MCPTool) :=
  if negb (initialized c) then (c, inl "client not initialized")
  else
    let c := incr_requestID c in
    let req := request c MethodListTools (Some ParamsListTools) in
    let '(t, err) := STDIOTransport.Send (transport c) req in
    let c := set_transport t c in
    match err with
    | Some err => (c, inl (Errorf "failed to send list_tools" err))
    | None =>
        let '(t, r) := STDIOTransport.Receive (transport c) in
        let c := set_transport t c in
        match r with
        | inl err => (c, inl (Errorf "failed to receive list_tools response" err))
        | inr resp =>
            match Error resp with
            | Some e => (c, inl (Errorf "list_tools error" (Message e)))
            | None =>
                let '(result, err) := unmarshalJSON (Result resp) (zero : ListToolsResult) in
                match err with
                | Some err => (c, inl (Errorf "failed to unmarshal list_tools result" err))
                | None => (set_tools (result_Tools result) c, inr (result_Tools result))
                end
            end
        end
    end.

Definition CallTool (c : Client) (name : string) (args : gmap string iface)
  : Client * (error + string) :=
  if negb (initialized c) then (c, inl "client not initialized")
  else
    let c := incr_requestID c in
    let req := request c MethodCallTool (Some (ParamsCallTool name args)) in
    let '(t, err) := STDIOTransport.Send (transport c) req in
    let c := set_transport t c in
    match err with
    | Some err => (c, inl (Errorf "failed to send tools/call" err))
    | None =>
        let '(t, r) := STDIOTransport.Receive (transport c) in
        let c := set_transport t c in
        match r with
        | inl err => (c, inl (Errorf "failed to receive tools/call response" err))
        | inr resp =>
            match Error resp with
            | Some e => (c, inl (Errorf "tools/call error" (Message e)))
            | None =>
                let '(result, err) := unmarshalJSON (Result resp) (zero : ToolCallResult) in
                match err with
                | Some err => (c, inl (Errorf "failed to unmarshal tools/call result" err))
                | None => (c, inr (ToolCallResult.GetText result))
                end
            end
        end
    end.

Definition GetTools (c : Client) : list MCPTool := tools c.

Definition GetName (c : Client) : string := Name (server c).

Definition IsInitialized (c : Client) : bool := 0 <? requestID c.

Definition Close (c : Client) : Client * option error :=
  let c := set_initialized false c in
  let '(t, err) := STDIOTransport.Close (transport c) in
  (set_transport t c, err).

Definition Shutdown (c : Client) : Client * option error :=
  if negb (initialized c) then (c, None)
  else
    let c := incr_requestID c in
    let req := request c MethodShutdown None in
    let '(t, _) := STDIOTransport.Send (transport c) req in
    let c := set_transport t c in
    let '(t, err) := STDIOTransport.Close (transport c) in
    (set_transport t c, err).

End Client.

(* ------------------------------------------------------------------ *)
(** ** wrapper.go                                                      *)
(* ------------------------------------------------------------------ *)

(** Modelled from the spec: the host's [tools.ToolResult] and its two
    constructors [tools.NewToolResult] and [tools.ErrorResult], which are not
    part of the sources: "a host-defined ToolResult variant carrying either
    success text or an error marker". *)
Inductive ToolResult :=
| NewToolResult (forLLM : string)
| ErrorResult (message : string).

(** The wrapper points to its client; the pointer is kept as the client's
    name, and [Execute] takes the state of the client it points to. *)
Record ToolWrapper := {
  wrapper_client : string;
  wrapper_tool : MCPTool
}.

Definition NewToolWrapper (client : Client) (tool : MCPTool) : ToolWrapper :=
  {| wrapper_client := Client.GetName client; wrapper_tool := tool |}.

Module ToolWrapper.

Definition Name (w : ToolWrapper) : string :=
  "mcp_" +:+ wrapper_client w +:+ "_" +:+ tool_Name (wrapper_tool w).

Definition Description (w : ToolWrapper) : string :=
  "[MCP:" +:+ wrapper_client w +:+ "] " +:+ tool_Description (wrapper_tool w).

Definition Parameters (w : ToolWrapper) : gmap string iface := InputSchema (wrapper_tool w).

Definition Execute (w : ToolWrapper) (client : Client) (args : gmap string iface)
  : Client * ToolResult :=
  let '(client, r) := Client.CallTool client (tool_Name (wrapper_tool w)) args in
  match r with
  | inl err =>
      (client, ErrorResult ("MCP tool " +:+ tool_Name (wrapper_tool w) +:+ " error: " +:+ err))
  | inr result => (client, NewToolResult result)
  end.

Definition GetMCPTool (w : ToolWrapper) : MCPTool := wrapper_tool w.

Definition GetClient (w : ToolWrapper) : string := wrapper_client w.

End ToolWrapper.

(* ------------------------------------------------------------------ *)
(** ** registry.go                                                     *)
(* ------------------------------------------------------------------ *)

(** Modelled from the spec: [config.MCPServerConfig] is not part of the
    sources; it is the ServerDescriptor of the specification, with the five
    fields [connectServer] reads. *)
Record MCPServerConfig := {
  cfg_Name : string;
  cfg_Command : string;
  cfg_Args : list string;
  cfg_Env : option (list string);
  cfg_Enabled : bool
}.

(** Modelled from the spec: the host's [tools.ToolRegistry] is not part of
    the sources, and the manager "only registers adapters into it"; it is
    kept as the sequence of the [Register] calls made on it.  The manager's
    configuration lists the servers; each comes here with the behaviour of
    the process its command starts. *)
Record Manager := {
  clients : gmap string Client;
  registry : list ToolWrapper;
  cfg : list (MCPServerConfig * Child)
}.

Definition NewManager (cfg : list (MCPServerConfig * Child)) (toolRegistry : list ToolWrapper)
  : Manager :=
  {| clients := ∅; registry := toolRegistry; cfg := cfg |}.

Module Manager.

Definition connectServer (serverCfg : MCPServerConfig) (os : Child) : error + Client :=
  let server := {| Name := cfg_Name serverCfg; Command := cfg_Command serverCfg;
                   Args := cfg_Args serverCfg; Env := cfg_Env serverCfg;
                   Enabled := cfg_Enabled serverCfg |} in
  match NewClient os server with
  | inl err => inl (Errorf "failed to create client" err)
  | inr client =>
      let '(client, err) := Client.Connect client in
      match err with
      | Some err => inl (Errorf "failed to connect" err)
      | None =>
          let '(client, err) := Client.Initialize client in
          match err with
          | Some err =>
              let '(_, _) := Client.Close client in
              inl (Errorf "failed to initialize" err)
          | None =>
              let '(client, _) := Client.ListTools client in
              inr client
          end
      end
  end.

Definition registerTools (m : Manager) (client : Client) : Manager :=
  fold_left (fun m tool =>
               {| clients := clients m;
                  registry := registry m ++ [NewToolWrapper client tool];
                  cfg := cfg m |})
            (Client.GetTools client) m.

(** One round of the loop of [Start]. *)
Definition Start_step (m : Manager) (entry : MCPServerConfig * Child) : Manager :=
  let '(serverCfg, os) := entry in
  if negb (cfg_Enabled serverCfg) then m
  else
    match connectServer serverCfg os with
    | inl _ => m
    | inr client =>
        let m := {| clients := <[cfg_Name serverCfg := client]> (clients m);
                    registry := registry m; cfg := cfg m |} in
        registerTools m client
    end.

Definition Start (m : Manager) : Manager * option error :=
  (fold_left Start_step (cfg m) m, None).


Definition GetClient (m : Manager) (name : string) : option Client := clients m !! name.

(** The names come out in the iteration order of a Go map, which is not
    fixed; any order of the keys stands for it. *)
Definition ListClients (m : Manager) : list string := elements (dom (clients m)).

End Manager.

(* ------------------------------------------------------------------ *)
(** ** Calls that wait with no bound                                   *)
(* ------------------------------------------------------------------ *)

(** [Receive] reads a line with [ReadString] and never looks at its
    context, and [Close] waits for the child in a select with one case,
    without the timeout its comment announces.  A call that waits for what
    never comes does not return: its caller gets no value and goes no
    further.  The state is the one the call has reached. *)
Inductive outcome (A : Type) : Type :=
| Returns (a : A)
| Blocks.

Arguments Returns {A} a.
Arguments Blocks {A}.

(** The calls [Manager.Start] makes, with the outcome [Blocks]. *)
Module Blocking.

Module STDIOTransport.

(** [Receive].  [ReadString] returns with a line, with the end of the
    output or with a read error.  None of them comes from a process that
    was never started, since the write end of its pipe stays open and
    nothing writes to it, nor from a child that has printed its lines and
    keeps its output open. *)
Definition Receive (t : STDIOTransport)
  : STDIOTransport * outcome (error + JSONRPCResponse) :=
  if closed t then (t, Returns (inl "transport is closed"))
  else if negb (Process (cmd t)) then (t, Blocks)
  else
    match stdout (child t) with
    | [] =>
        if stays_silent (child t) then (t, Blocks)
        else (t, Returns (inl "MCP server closed connection"))
    | ReadFailed err :: rest =>
        (set_stdout rest t, Returns (inl (Errorf "failed to read from stdout" err)))
    | ReadMalformed err :: rest =>
        (set_stdout rest t, Returns (inl (Errorf "failed to unmarshal response" err)))
    | ReadLine line :: rest =>
        let '(resp, err) := unmarshal line (zero : JSONRPCResponse) in
        match err with
        | Some err =>
            (set_stdout rest t, Returns (inl (Errorf "failed to unmarshal response" err)))
        | None => (set_stdout rest t, Returns (inr resp))
        end
    end.

(** [Close].  With a process, [cmd.Wait] returns when the child has exited;
    a child that does not exit when its stdin is closed is waited for
    without end, the transport being marked closed and stdin closed. *)
Definition Close (t : STDIOTransport) : STDIOTransport * outcome (option error) :=
  if closed t then (t, Returns None)
  else
    let t := set_closed true t in
    let t := emit ClosedStdin t in
    if Process (cmd t) then
      if exits (child t) then (emit Waited t, Returns None) else (t, Blocks)
    else (t, Returns None).

End STDIOTransport.

Module Client.

Definition Initialize (c : Client) : Client * outcome (option error) :=
  let c := incr_requestID c in
  let req := Client.request c MethodInitialize
               (Some (ParamsInitialize
                        {| params_ProtocolVersion := "2024-11-05";
                           params_ListChanged := false;
                           params_ClientInfo :=
                             {| client_Name := "picoclaw"; client_Version := "0.1.0" |} |})) in
  let '(t, err) := STDIOTransport.Send (transport c) req in
  let c := set_transport t c in
  match err with
  | Some err => (c, Returns (Some (Errorf "failed to send initialize" err)))
  | None =>
      let '(t, r) := Blocking.STDIOTransport.Receive (transport c) in
      let c := set_transport t c in
      match r with
      | Blocks => (c, Blocks)
      | Returns (inl err) =>
          (c, Returns (Some (Errorf "failed to receive initialize response" err)))
      | Returns (inr resp) =>
          match Error resp with
          | Some e => (c, Returns (Some (Errorf "initialize error" (Message e))))
          | None =>
              let '(result, err) := unmarshalJSON (Result resp) (zero : InitializeResult) in
              match err with
              | Some err =>
                  (c, Returns (Some (Errorf "failed to unmarshal initialize result" err)))
              | None =>
                  let c := set_capabilities (Capabilities result) c in
                  let c := set_initialized true c in
                  let notif := {| frame_jsonrpc := "2.0"; frame_id := None;
                                  frame_method := MethodInitialized;
                                  frame_params := None |} in
                  let '(t, _) := STDIOTransport.Send (transport c) notif in
                  (set_transport t c, Returns None)
              end
          end
      end
  end.

Definition ListTools (c : Client) : Client * outcome (error + list MCPTool) :=
  if negb (initialized c) then (c, Returns (inl "client not initialized"))
  else
    let c := incr_requestID c in
    let req := Client.request c MethodListTools (Some ParamsListTools) in
    let '(t, err) := STDIOTransport.Send (transport c) req in
    let c := set_transport t c in
    match err with
    | Some err => (c, Returns (inl (Errorf "failed to send list_tools" err)))
    | None =>
        let '(t, r) := Blocking.STDIOTransport.Receive (transport c) in
        let c := set_transport t c in
        match r with
        | Blocks => (c, Blocks)
        | Returns (inl err) =>
            (c, Returns (inl (Errorf "failed to receive list_tools response" err)))
        | Returns (inr resp) =>
            match Error resp with
            | Some e => (c, Returns (inl (Errorf "list_tools error" (Message e))))
            | None =>
                let '(result, err) := unmarshalJSON (Result resp) (zero : ListToolsResult) in
                match err with
                | Some err =>
                    (c, Returns (inl (Errorf "failed to unmarshal list_tools result" err)))
                | None =>
                    (set_tools (result_Tools result) c, Returns (inr (result_Tools result)))
                end
            end
        end
    end.

Definition Close (c : Client) : Client * outcome (option error) :=
  let c := set_initialized false c in
  let '(t, r) := Blocking.STDIOTransport.Close (transport c) in
  (set_transport t c, r).

End Client.

Module Manager.

(** [connectServer]: the session is local to the call, so that a call that
    does not return leaves nothing. *)
Definition connectServer (serverCfg : MCPServerConfig) (os : Child)
  : outcome (error + Client) :=
  let server := {| Name := cfg_Name serverCfg; Command := cfg_Command serverCfg;
                   Args := cfg_Args serverCfg; Env := cfg_Env serverCfg;
                   Enabled := cfg_Enabled serverCfg |} in
  match NewClient os server with
  | inl err => Returns (inl (Errorf "failed to create client" err))
  | inr client =>
      let '(client, err) := Client.Connect client in
      match err with
      | Some err => Returns (inl (Errorf "failed to connect" err))
      | None =>
          let '(client, r) := Blocking.Client.Initialize client in
          match r with
          | Blocks => Blocks
          | Returns (Some err) =>
              let '(_, r) := Blocking.Client.Close client in
              match r with
              | Blocks => Blocks
              | Returns _ => Returns (inl (Errorf "failed to initialize" err))
              end
          | Returns None =>
              let '(client, r) := Blocking.Client.ListTools client in
              match r with
              | Blocks => Blocks
              | Returns _ => Returns (inr client)
              end
          end
      end
  end.

(** The loop of [Start] over the servers of the configuration, one after
    the other: a [connectServer] that does not return is where [Start]
    stays, with what it had stored and registered by then. *)
Fixpoint Start_loop (servers : list (MCPServerConfig * Child)) (m : Manager)
  : Manager * outcome (option error) :=
  match servers with
  | [] => (m, Returns None)
  | (serverCfg, os) :: rest =>
      if negb (cfg_Enabled serverCfg) then Start_loop rest m
      else
        match connectServer serverCfg os with
        | Blocks => (m, Blocks)
        | Returns (inl _) => Start_loop rest m
        | Returns (inr client) =>
            let m := {| clients := <[cfg_Name serverCfg := client]> (clients m);
                        registry := registry m; cfg := cfg m |} in
            Start_loop rest (Manager.registerTools m client)
        end
  end.

Definition Start (m : Manager) : Manager * outcome (option error) :=
  Start_loop (cfg m) m.

End Manager.

End Blocking.

(* ------------------------------------------------------------------ *)
(** ** Vocabulary of the statements                                    *)
(* ------------------------------------------------------------------ *)

(** The wire form of a Text block, [{"type":"text","text":s}]. *)
Definition text_block (s : string) : json :=
  JObject [("type", JString "text"); ("text", JString s)].

Definition members (j : json) : list (string * json) :=
  match j with
  | JObject ms => ms
  | _ => []
  end.

(** A value is marked as text when one of its members, named [type] up to
    the folding of field names, is the string ["text"]. *)
Definition marked_text (j : json) : bool :=
  existsb (fun kv =>
             (String.eqb (foldName kv.1) "TYPE" &&
              match kv.2 with
              | JString s => String.eqb s "text"
              | _ => false
              end)%bool) (members j).

(** An array of content blocks, as the server writes it: Text blocks and
    blocks of any other kind. *)
Inductive block :=
| TextBlock (s : string)
| OtherBlock (j : json).

Definition block_json (b : block) : json :=
  match b with
  | TextBlock s => text_block s
  | OtherBlock j => j
  end.

Definition other_not_text (b : block) : bool :=
  match b with
  | TextBlock _ => true
  | OtherBlock j => negb (marked_text j)
  end.

(** The flattened text of the specification: the text fragments in order,
    nothing for the other blocks. *)
Definition flattenText (bs : list block) : string :=
  fold_right (fun b r =>
                match b with
                | TextBlock s => s +:+ r
                | OtherBlock _ => r
                end) "" bs.

(** A frame shaped like a response: the members that are given, in the
    usual order. *)
Definition response_frame (version : option string) (id : Z) (result : option json)
  (err : option (Z * string)) : json :=
  JObject
    (match version with
     | Some v => [("jsonrpc", JString v)]
     | None => []
     end ++
     [("id", JNumber (NumInt id))] ++
     match result with
     | Some r => [("result", r)]
     | None => []
     end ++
     match err with
     | Some (code, message) =>
         [("error", JObject [("code", JNumber (NumInt code)); ("message", JString message)])]
     | None => []
     end).

(** The next [Send] on the transport writes its frame. *)
Definition next_write_ok (t : STDIOTransport) : bool :=
  match writes (child t) with
  | [] | WriteOk :: _ => true
  | _ => false
  end.

(** A child that starts and prints the given lines, in an environment with
    one variable; it then ends its output, and it exits when its stdin is
    closed. *)
Definition child_printing (lines : list json) : Child :=
  {| Environ := ["HOME=/root"]; pipes := PipesOk; start_error := None; writes := [];
     stdout := map ReadLine lines; stdin_close_error := None; wait_error := None;
     stays_silent := false; exits := true |}.

Definition child_not_found : Child :=
  {| Environ := ["HOME=/root"]; pipes := PipesOk;
     start_error := Some "exec: no such file or directory"; writes := [];
     stdout := []; stdin_close_error := None; wait_error := None;
     stays_silent := false; exits := true |}.

Definition fs_server : MCPServer :=
  {| Name := "fs"; Command := "echo-srv"; Args := []; Env := None; Enabled := true |}.

Definition initialize_response : json :=
  JObject
    [("jsonrpc", JString "2.0"); ("id", JNumber (NumInt 1));
     ("result",
      JObject
        [("protocolVersion", JString "2024-11-05");
         ("serverInfo", JObject [("name", JString "fs"); ("version", JString "1.0")]);
         ("capabilities",
          JObject
            [("tools", JObject [("listChanged", JBool false)]);
             ("resources", JObject [("subscribe", JBool false); ("listChanged", JBool false)]);
             ("prompts", JObject [("listChanged", JBool false)])])])].

Definition tools_response : json :=
  JObject
    [("jsonrpc", JString "2.0"); ("id", JNumber (NumInt 2));
     ("result",
      JObject
        [("tools",
          JArray
            [JObject [("name", JString "read_file"); ("description", JString "Read a file");
                      ("inputSchema", JObject [("type", JString "object")])];
             JObject [("name", JString "write_file"); ("description", JString "Write a file");
                      ("inputSchema", JObject [("type", JString "object")])]])])].

Definition invalid_params_response : json :=
  JObject
    [("jsonrpc", JString "2.0"); ("id", JNumber (NumInt 7));
     ("error",
      JObject [("code", JNumber (NumInt (-32602))); ("message", JString "Invalid params");
               ("data", JObject [("field", JString "name")])])].

Definition is_error_response : json :=
  JObject
    [("jsonrpc", JString "2.0"); ("id", JNumber (NumInt 2));
     ("result",
      JObject [("content", JArray [text_block "disk full"]); ("isError", JBool true)])].

(** The client [NewClient] returns when the pipes can be created. *)
Definition fresh_client (os : Child) (server : MCPServer) : Client :=
  {| server := server;
     transport := {| cmd := {| Path := Command server; cmd_Args := Args server;
                               cmd_Env := Env server; Process := false |};
                     closed := false; child := os; trace := [] |};
     requestID := 0; capabilities := zero; tools := []; initialized := false |}.

(** The session of [fs_server] after [Connect] and [Initialize], when the
    child answers the handshake and has [lines] to print after it. *)
Definition session_after_handshake (lines : list json) : Client :=
  (Client.Initialize
     (Client.Connect
        (fresh_client (child_printing (initialize_response :: lines)) fs_server)).1).1.

Definition a_tool : MCPTool :=
  {| tool_Name := "read_file"; tool_Description := "Read a file"; InputSchema := ∅ |}.

(** The entries of an environment list are not empty and have pairwise
    distinct keys. *)
Fixpoint distinct_keys (env : list string) : bool :=
  match env with
  | [] => true
  | kv :: rest =>
      (match env_key kv with
       | None => negb (String.eqb kv "")
       | Some k => negb (existsb (fun kv' => bool_decide (env_key kv' = Some k)) rest)
       end && distinct_keys rest)%bool
  end.

Definition github_server : MCPServer :=
  {| Name := "github"; Command := "npx"; Args := ["-y"; "server-github"];
     Env := Some ["GITHUB_TOKEN=ghp_xxx"]; Enabled := true |}.

(** The operations of a session, and a session driven through a sequence
    of them; the results are dropped, the state is kept. *)
Inductive operation :=
| OpConnect
| OpInitialize
| OpListTools
| OpCallTool (name : string) (args : gmap string iface)
| OpShutdown
| OpClose.

Definition perform (c : Client) (o : operation) : Client :=
  match o with
  | OpConnect => (Client.Connect c).1
  | OpInitialize => (Client.Initialize c).1
  | OpListTools => (Client.ListTools c).1
  | OpCallTool name args => (Client.CallTool c name args).1
  | OpShutdown => (Client.Shutdown c).1
  | OpClose => (Client.Close c).1
  end.

Definition run (c : Client) (ops : list operation) : Client := fold_left perform ops c.

(** The ids of the requests written to the child, in the order of the
    writes; a notification has none. *)
Fixpoint request_ids (tr : list event) : list Z :=
  match tr with
  | [] => []
  | Wrote f :: r =>
      match frame_id f with
      | Some i => i :: request_ids r
      | None => request_ids r
      end
  | _ :: r => request_ids r
  end.

Definition wire_ids (c : Client) : list Z := request_ids (trace (transport c)).

(** The outcome of one entry of the fleet at [Start]: the session, when the
    server is enabled and connects and initializes. *)
Definition connected (entry : MCPServerConfig * Child) : option Client :=
  if cfg_Enabled entry.1 then
    match Manager.connectServer entry.1 entry.2 with
    | inr client => Some client
    | inl _ => None
    end
  else None.

Definition enabled (entry : MCPServerConfig * Child) : bool := cfg_Enabled entry.1.

Definition failed (entry : MCPServerConfig * Child) : bool :=
  (cfg_Enabled entry.1 &&
   match Manager.connectServer entry.1 entry.2 with
   | inr _ => false
   | inl _ => true
   end)%bool.

(** The wrappers of the tools of a session that [Start] registers. *)
Definition wrappers_of (entry : MCPServerConfig * Child) : list ToolWrapper :=
  match connected entry with
  | Some client => map (NewToolWrapper client) (Client.GetTools client)
  | None => []
  end.

(** What [Start] gets from one entry of the fleet: nothing from a disabled
    entry, the session or nothing when [connectServer] returns, and no
    answer when it does not return. *)
Definition attempt (entry : MCPServerConfig * Child) : outcome (option Client) :=
  if cfg_Enabled entry.1 then
    match Blocking.Manager.connectServer entry.1 entry.2 with
    | Returns (inr client) => Returns (Some client)
    | Returns (inl _) => Returns None
    | Blocks => Blocks
    end
  else Returns None.

Definition hangs (entry : MCPServerConfig * Child) : bool :=
  match attempt entry with
  | Blocks => true
  | Returns _ => false
  end.

Definition session_of (entry : MCPServerConfig * Child) : option Client :=
  match attempt entry with
  | Returns (Some client) => Some client
  | _ => None
  end.

(** An enabled entry whose [connectServer] returned an error. *)
Definition gave_up (entry : MCPServerConfig * Child) : bool :=
  (cfg_Enabled entry.1 &&
   match attempt entry with
   | Returns None => true
   | _ => false
   end)%bool.

(** The wrappers [Start] registers for an entry. *)
Definition adapters_of (entry : MCPServerConfig * Child) : list ToolWrapper :=
  match session_of entry with
  | Some client => map (NewToolWrapper client) (Client.GetTools client)
  | None => []
  end.

(** What one round of the loop of [Start] does to the map of clients. *)
Definition add_client (cl : gmap string Client) (entry : MCPServerConfig * Child)
  : gmap string Client :=
  match connected entry with
  | Some client => <[cfg_Name entry.1 := client]> cl
  | None => cl
  end.

Definition server_config (name command : string) (on : bool) : MCPServerConfig :=
  {| cfg_Name := name; cfg_Command := command; cfg_Args := []; cfg_Env := None;
     cfg_Enabled := on |}.

(** Scenario E, with a disabled server added. *)
Definition three_servers : list (MCPServerConfig * Child) :=
  [ (server_config "fs" "echo-srv" true, child_printing [initialize_response; tools_response]);
    (server_config "gone" "no-such-command" true, child_not_found);
    (server_config "off" "echo-srv" false, child_printing [initialize_response; tools_response]);
    (server_config "db" "echo-srv" true, child_printing [initialize_response; tools_response]) ].

(** A child that starts, prints nothing and keeps its output open. *)
Definition child_silent : Child :=
  {| Environ := ["HOME=/root"]; pipes := PipesOk; start_error := None; writes := [];
     stdout := []; stdin_close_error := None; wait_error := None;
     stays_silent := true; exits := true |}.

(** A child that answers the handshake with an error, and keeps running
    when its stdin is closed. *)
Definition child_lingering : Child :=
  {| Environ := ["HOME=/root"]; pipes := PipesOk; start_error := None; writes := [];
     stdout := [ReadLine invalid_params_response];
     stdin_close_error := None; wait_error := None;
     stays_silent := true; exits := false |}.

(** Scenario E with a server in the middle that never answers. *)
Definition fleet_with_silent_server : list (MCPServerConfig * Child) :=
  [ (server_config "fs" "echo-srv" true, child_printing [initialize_response; tools_response]);
    (server_config "mute" "mute-srv" true, child_silent);
    (server_config "db" "echo-srv" true, child_printing [initialize_response; tools_response]) ].

(** One operation allocates at most one id, the successor of the counter,
    and writes no other id. *)
Definition allocates (c c' : Client) : Prop :=
  (requestID c' = requestID c /\ wire_ids c' = wire_ids c) \/
  (requestID c' = wrap64 (requestID c + 1) /\
   (wire_ids c' = wire_ids c \/ wire_ids c' = wire_ids c ++ [requestID c'])).

(** The counter is at most [n], the ids on the wire increase strictly and
    lie between 1 and the counter. *)
Definition ids_inv (n : Z) (c : Client) : Prop :=
  0 <= requestID c <= n /\
  StronglySorted Z.lt (wire_ids c) /\
  Forall (fun i => 1 <= i <= requestID c) (wire_ids c).

(** The state a session is in once [Close] has returned. *)
Definition is_closed (c : Client) : Prop :=
  closed (transport c) = true /\ initialized c = false.

(** When a transport is closed and its process had been started, the last
    two things it did were to close the child's stdin and to wait for the
    child. *)
Definition waited (t : STDIOTransport) : Prop :=
  closed t = true -> Process (cmd t) = true ->
  exists before, trace t = before ++ [ClosedStdin; Waited].

(** The methods of the frames written to the child, in the order of the
    writes. *)
Fixpoint frame_methods (tr : list event) : list string :=
  match tr with
  | [] => []
  | Wrote f :: r => frame_method f :: frame_methods r
  | _ :: r => frame_methods r
  end.

(** What was written to the child is a sequence of complete frames, each
    followed by its newline; the other events do not write. *)
Inductive framed : list event -> Prop :=
| framed_nil : framed []
| framed_frame (tr : list event) (f : Frame) :
    framed tr -> framed (tr ++ [Wrote f; WroteNewline])
| framed_spawned (tr : list event) (path : string) (args env : list string) :
    framed tr -> framed (tr ++ [Spawned path args env])
| framed_closed (tr : list event) : framed tr -> framed (tr ++ [ClosedStdin])
| framed_waited (tr : list event) : framed tr -> framed (tr ++ [Waited]).

(** No write to the child's stdin is going to fail. *)
Definition writes_succeed (t : STDIOTransport) : Prop :=
  Forall (fun w => w = WriteOk) (writes (child t)).

Fixpoint count_frames (tr : list event) : nat :=
  match tr with
  | [] => O
  | Wrote _ :: r => S (count_frames r)
  | _ :: r => count_frames r
  end.

Fixpoint count_newlines (tr : list event) : nat :=
  match tr with
  | [] => O
  | WroteNewline :: r => S (count_newlines r)
  | _ :: r => count_newlines r
  end.

Definition well_framed (t : STDIOTransport) : Prop := writes_succeed t /\ framed (trace t).

(** A session that has written no frame is not initialized, and the first
    frame a session writes is an initialize request. *)
Definition handshake_first (c : Client) : Prop :=
  (frame_methods (trace (transport c)) = [] -> initialized c = false) /\
  (forall m, head (frame_methods (trace (transport c))) = Some m -> m = MethodInitialize).

(** The processes started, counted on the trace. *)
Fixpoint count_spawned (tr : list event) : nat :=
  match tr with
  | [] => O
  | Spawned _ _ _ :: r => S (count_spawned r)
  | _ :: r => count_spawned r
  end.

Definition spawn_of (path : string) (args : list string) (ev : event) : Prop :=
  match ev with
  | Spawned p a _ => p = path /\ a = args
  | _ => True
  end.

(** The transport is for the command [path] with [args]; it has started
    one process when its command has one and none otherwise, and what it
    started was that command. *)
Definition starts_command (path : string) (args : list string) (t : STDIOTransport) : Prop :=
  Path (cmd t) = path /\ cmd_Args (cmd t) = args /\
  count_spawned (trace t) = (if Process (cmd t) then 1 else 0)%nat /\
  Forall (spawn_of path args) (trace t).

(** The requests written so far together with the lines the child has
    still to print. *)
Definition budget (t : STDIOTransport) : nat :=
  (length (request_ids (trace t)) + length (stdout (child t)))%nat.

(** What the client puts on the wire: a frame of version 2.0 that is a
    request, with an id and one of the four request methods, or the
    initialized notification, with no id and no params. *)
Definition client_frame (ev : event) : Prop :=
  match ev with
  | Wrote f =>
      frame_jsonrpc f = "2.0" /\
      match frame_id f with
      | Some _ =>
          In (frame_method f) [MethodInitialize; MethodListTools; MethodCallTool; MethodShutdown]
      | None => frame_method f = MethodInitialized /\ frame_params f = None
      end
  | _ => True
  end.

Definition historical_shape (data : json) : bool :=
  match data with
  | JString _ | JArray _ | JObject _ => true
  | _ => false
  end.

(* ================================================================== *)
(** * Part II. Properties                                               *)
(* ================================================================== *)

(** ** Strings *)

Lemma append_nil_r (s : string) : s +:+ "" = s.
Proof. induction s as [|c s IH]; [reflexivity|]. change (String c (s +:+ "") = String c s). by rewrite IH. Qed.

Lemma append_assoc (a b c : string) : (a +:+ b) +:+ c = a +:+ (b +:+ c).
Proof.
  induction a as [|x a IH]; [reflexivity|].
  change (String x ((a +:+ b) +:+ c) = String x (a +:+ (b +:+ c))). by rewrite IH.
Qed.

Lemma eqb_true (a b : string) : String.eqb a b = true -> a = b.
Proof. apply String.eqb_eq. Qed.

(** ** The cases of client_test.go, run on the embedding *)

Example test_unmarshal_string_response :
  ToolCallResult.UnmarshalJSON zero (JString "plain text response")
  = ({| Content := [CText {| text_Type := "text"; Text := "plain text response" |}];
        IsError := false |}, None).
Proof. reflexivity. Qed.

Example test_unmarshal_array_response :
  ToolCallResult.UnmarshalJSON zero (JArray [text_block "hello"; text_block "world"])
  = ({| Content := [CText {| text_Type := "text"; Text := "hello" |};
                    CText {| text_Type := "text"; Text := "world" |}];
        IsError := false |}, None).
Proof. reflexivity. Qed.

Example test_unmarshal_object_with_content :
  let r := (ToolCallResult.UnmarshalJSON zero
              (JObject [("content", JArray [text_block "result"]);
                        ("isError", JBool false)])).1 in
  length (Content r) = 1%nat /\ IsError r = false.
Proof. split; reflexivity. Qed.

Example test_unmarshal_object_with_isError :
  IsError (ToolCallResult.UnmarshalJSON zero
             (JObject [("content", JArray []); ("isError", JBool true)])).1 = true.
Proof. reflexivity. Qed.

Example test_GetText_from_TextContent :
  ToolCallResult.GetText
    {| Content := [CText {| text_Type := "text"; Text := "hello " |};
                   CText {| text_Type := "text"; Text := "world" |}];
       IsError := false |} = "hello world".
Proof. reflexivity. Qed.

Example test_GetText_mixes_TextContent_and_map :
  ToolCallResult.GetText
    {| Content := [CText {| text_Type := "text"; Text := "from struct " |};
                   CValue (IMap (<["type" := IString "text"]>
                                   (<["text" := IString "from map"]> ∅)))];
       IsError := false |} = "from struct from map".
Proof. vm_compute. reflexivity. Qed.

Example test_GetText_empty_content :
  ToolCallResult.GetText {| Content := []; IsError := false |} = "".
Proof. reflexivity. Qed.

Example test_GetError (FormatFloat : number -> string) :
  JSONRPCResponse.GetError FormatFloat zero = None /\
  JSONRPCResponse.GetError FormatFloat
    {| JSONRPC := ""; ID := 0; Result := RawEmpty;
       Error := Some {| Code := InvalidRequest; Message := "Invalid Request";
                        error_Data := RawEmpty |} |} = Some "Invalid Request" /\
  JSONRPCResponse.GetError FormatFloat
    {| JSONRPC := ""; ID := 0; Result := RawEmpty;
       Error := Some {| Code := InvalidParams; Message := "Invalid params";
                        error_Data := Raw (JObject [("field", JString "name")]) |} |}
  = Some "Invalid params: map[field:name]".
Proof. split; [|split]; vm_compute; reflexivity. Qed.

Example test_JSONRPCResponse_UnmarshalJSON :
  unmarshal (JObject [("jsonrpc", JString "2.0"); ("id", JNumber (NumInt 1));
                      ("result", JObject [("status", JString "ok")])])
            (zero : JSONRPCResponse)
  = ({| JSONRPC := "2.0"; ID := 1; Result := Raw (JObject [("status", JString "ok")]);
        Error := None |}, None).
Proof. reflexivity. Qed.

(** Scenarios A and B: the handshake, then the discovery of two tools and
    their names in the registry. *)
Example scenario_handshake_and_discovery :
  let os := child_printing [initialize_response; tools_response] in
  let c := run (fresh_client os fs_server) [OpConnect; OpInitialize; OpListTools] in
  initialized c = true /\
  map tool_Name (Client.GetTools c) = ["read_file"; "write_file"] /\
  map ToolWrapper.Name (map (NewToolWrapper c) (Client.GetTools c))
  = ["mcp_fs_read_file"; "mcp_fs_write_file"] /\
  map (fun e => match e with
                | Wrote f => Some (frame_method f, frame_id f)
                | _ => None
                end) (trace (transport c))
  = [None; Some ("initialize", Some 1); None;
     Some ("notifications/initialized", None); None;
     Some ("tools/list", Some 2); None].
Proof. vm_compute. repeat split; reflexivity. Qed.

(** ** The codec of tool call results *)

Section Codec.

Import ToolCallResult.

Lemma unmarshal_items_raw (items : list json) :
  unmarshal_items (A := RawMessage) items = (map Raw items, None).
Proof.
  induction items as [|x r IH]; [reflexivity|].
  change (unmarshal_items (A := RawMessage) (x :: r))
    with (let '(v, e) := unmarshal (A := RawMessage) x zero in
          (v :: (unmarshal_items (A := RawMessage) r).1,
           saveError e (unmarshal_items (A := RawMessage) r).2)).
  by rewrite IH.
Qed.

Lemma append_items (arr : list RawMessage) (t : ToolCallResult) :
  fold_left (fun t item =>
               {| Content := Content t ++ [decode_item item]; IsError := IsError t |}) arr t
  = {| Content := Content t ++ map decode_item arr; IsError := IsError t |}.
Proof.
  revert t. induction arr as [|x r IH]; intros t; simpl.
  - rewrite app_nil_r. by destruct t.
  - rewrite IH. simpl. by rewrite <- app_assoc.
Qed.

(** An array is decoded element by element, in order. *)
Lemma UnmarshalJSON_array (t : ToolCallResult) (items : list json) :
  UnmarshalJSON t (JArray items)
  = ({| Content := Content t ++ map (fun j => decode_item (Raw j)) items;
        IsError := IsError t |}, None).
Proof.
  unfold UnmarshalJSON. simpl.
  change (unmarshal (JArray items) []) with (unmarshal_items (A := RawMessage) items).
  rewrite unmarshal_items_raw. simpl. rewrite append_items. by rewrite map_map.
Qed.

Lemma UnmarshalJSON_nil (t : ToolCallResult) (data : json) :
  (UnmarshalJSON t data).2 = None.
Proof.
  unfold UnmarshalJSON. repeat case_match; reflexivity.
Qed.

(** What one element adds to the builder does not depend on what is in
    it already. *)
Lemma GetText_step_acc (acc : string) (c : content) :
  GetText_step acc c = acc +:+ GetText_step "" c.
Proof.
  unfold GetText_step, WriteString.
  repeat case_match; simplify_eq; rewrite ?append_nil_r; reflexivity.
Qed.

Lemma GetText_fold (l : list content) (acc : string) :
  fold_left GetText_step l acc
  = acc +:+ fold_right (fun c r => GetText_step "" c +:+ r) "" l.
Proof.
  revert acc. induction l as [|c l IH]; intros acc; simpl.
  - by rewrite append_nil_r.
  - rewrite IH, (GetText_step_acc acc c). apply append_assoc.
Qed.

(** *** Field lookup *)

Lemma find_field_spec {A} (fields : list (field A)) (key : string) (f : field A) :
  find_field fields key = Some f ->
  In f fields /\ foldName (fname f) = foldName key.
Proof.
  unfold find_field. intros H.
  destruct (List.find _ fields) as [g|] eqn:Hexact.
  - inversion H; subst g. apply List.find_some in Hexact as [Hin Heq].
    apply eqb_true in Heq. by rewrite Heq.
  - apply List.find_some in H as [Hin Heq]. by apply eqb_true in Heq.
Qed.

(** Only a member named [type] up to folding, with the value ["text"], can
    make the [Type] of a decoded [TextContent] equal to ["text"]. *)
Lemma TextContent_store (st : TextContent * option error) (k : string) (v : json) :
  let fields :=
    [ fld "type" text_Type (fun v t => {| text_Type := v; Text := Text t |});
      fld "text" Text (fun v t => {| text_Type := text_Type t; Text := v |}) ] in
  text_Type (store_member fields st (k, v)).1 = "text" ->
  text_Type st.1 = "text" \/ (foldName k = "TYPE" /\ v = JString "text").
Proof.
  intros fields. unfold store_member. simpl.
  destruct (find_field fields k) as [f|] eqn:Hf; [|by left].
  apply find_field_spec in Hf as [Hin Hfold].
  destruct Hin as [<-|[<-|[]]]; simpl in *.
  - destruct v; simpl; intros H; try (by left).
    right. split; [by rewrite <- Hfold|by rewrite H].
  - destruct v; simpl; intros H; by left.
Qed.

Lemma marked_text_member (k : string) (ms : list (string * json)) :
  foldName k = "TYPE" -> In (k, JString "text") ms -> marked_text (JObject ms) = true.
Proof.
  intros Hk Hin. unfold marked_text. apply existsb_exists.
  exists (k, JString "text"). split; [done|]. simpl. by rewrite Hk.
Qed.

Lemma TextContent_fold (ms : list (string * json)) (st : TextContent * option error) :
  let fields :=
    [ fld "type" text_Type (fun v t => {| text_Type := v; Text := Text t |});
      fld "text" Text (fun v t => {| text_Type := text_Type t; Text := v |}) ] in
  text_Type (fold_left (store_member fields) ms st).1 = "text" ->
  text_Type st.1 = "text" \/ marked_text (JObject ms) = true.
Proof.
  intros fields. revert st. induction ms as [|[k v] ms IH]; intros st; simpl; [by left|].
  intros H. apply IH in H as [H|H].
  - apply TextContent_store in H as [H|[Hk ->]]; [by left|].
    right. apply (marked_text_member k); [done|by left].
  - right. unfold marked_text in *. simpl in *. rewrite H. apply orb_true_r.
Qed.

Lemma TextContent_type (j : json) (text : TextContent) (err : option error) :
  unmarshal j (zero : TextContent) = (text, err) ->
  text_Type text = "text" -> marked_text j = true.
Proof.
  intros Hd Ht. destruct j; simpl in Hd; try (inversion Hd; subst; discriminate Ht).
  pose proof (TextContent_fold members0 (zero, None)) as H. simpl in H.
  change (unmarshal (JObject members0) zero)
    with (fold_left (store_member
      [ fld "type" text_Type (fun v t => {| text_Type := v; Text := Text t |});
        fld "text" Text (fun v t => {| text_Type := text_Type t; Text := v |}) ])
      members0 (zero : TextContent, None)) in Hd.
  rewrite Hd in H. destruct (H Ht) as [H'|H']; [discriminate H'|exact H'].
Qed.

(** *** Values decoded into an interface *)

Lemma decode_iface_string (x : json) (s : string) :
  (decode_iface x).1 = IString s -> x = JString s.
Proof.
  destruct x; simpl; repeat case_match; simpl; intros Hs; by inversion Hs.
Qed.

Lemma decode_members_lookup (l : list (string * json)) (m : gmap string iface)
  (e : option error) (key : string) (y : iface) :
  (decode_members decode_iface l m e).1 !! key = Some y ->
  m !! key = Some y \/ exists x, In (key, x) l /\ (decode_iface x).1 = y.
Proof.
  revert m e. induction l as [|[k x] l IH]; intros m e; simpl; [by left|].
  destruct (decode_iface x) as [v e'] eqn:Hx. intros H.
  apply IH in H as [H|(x' & Hin & Hx')].
  - destruct (decide (k = key)) as [->|Hne].
    + rewrite lookup_insert_eq in H. inversion H; subst y.
      right. exists x. split; [by left|by rewrite Hx].
    + rewrite lookup_insert_ne in H by done. by left.
  - right. exists x'. split; [by right|done].
Qed.

Lemma GetText_step_value (j : json) :
  marked_text j = false ->
  GetText_step "" (CValue (unmarshal j INil).1) = "".
Proof.
  intros Hm. unfold unmarshal, unmarshal_iface.
  destruct j; simpl; try reflexivity.
  - by destruct (float64_ok n).
  - by destruct (decode_elems decode_iface items).
  - destruct (decode_members decode_iface members0 ∅ None) as [m e] eqn:Hd. simpl.
    destruct (m !! "type") as [[| | |typ| |]|] eqn:Hty; try reflexivity.
    destruct (String.eqb typ "text") eqn:Heq; [|reflexivity].
    apply eqb_true in Heq; subst typ.
    pose proof (decode_members_lookup members0 ∅ None "type" (IString "text")) as H.
    rewrite Hd in H. destruct (H Hty) as [H'|(x & Hin & Hx)].
    + by rewrite lookup_empty in H'.
    + apply decode_iface_string in Hx; subst x.
      rewrite (marked_text_member "type" members0) in Hm; [discriminate|reflexivity|done].
Qed.

(** A block that is not marked as text adds nothing to the flattened
    text, whichever of the four kinds of element it is decoded to. *)
Lemma decode_item_other (j : json) :
  marked_text j = false -> GetText_step "" (decode_item (Raw j)) = "".
Proof.
  intros Hm. unfold decode_item, unmarshal_raw.
  destruct (unmarshal j (zero : TextContent)) as [text err] eqn:Ht.
  destruct (bool_decide (err = None) && String.eqb (text_Type text) "text") eqn:Hc.
  { apply andb_true_iff in Hc as [_ Hc]. apply eqb_true in Hc.
    rewrite (TextContent_type _ _ _ Ht Hc) in Hm. discriminate. }
  destruct (unmarshal j (zero : ImageContent)) as [image erri].
  destruct (bool_decide (erri = None) && String.eqb (image_Type image) "image");
    [reflexivity|].
  destruct (unmarshal j (zero : ResourceContent)) as [resource errr].
  destruct (bool_decide (errr = None) && negb (String.eqb (URI resource) ""));
    [reflexivity|].
  pose proof (GetText_step_value j Hm) as H.
  change (zero : iface) with INil.
  by destruct (unmarshal j INil).
Qed.

Lemma decode_item_text (s : string) :
  decode_item (Raw (text_block s)) = CText {| text_Type := "text"; Text := s |}.
Proof. reflexivity. Qed.

(** The flattened text of a decoded array is the specification's. *)
Lemma GetText_blocks (bs : list block) :
  forallb other_not_text bs = true ->
  fold_right (fun c r => GetText_step "" c +:+ r) ""
             (map (fun j => decode_item (Raw j)) (map block_json bs))
  = flattenText bs.
Proof.
  induction bs as [|b bs IH]; [reflexivity|].
  intros H. cbn [forallb] in H. apply andb_true_iff in H as [Hb H].
  rewrite !map_cons. cbn [fold_right].
  change (flattenText (b :: bs))
    with (match b with
          | TextBlock s => s +:+ flattenText bs
          | OtherBlock _ => flattenText bs
          end).
  rewrite (IH H). destruct b as [s|j]; cbn [block_json other_not_text] in *.
  - rewrite decode_item_text. reflexivity.
  - apply negb_true_iff in Hb. by rewrite (decode_item_other j Hb).
Qed.

(** The object shape with Text blocks as its content. *)
Lemma unmarshal_items_text (texts : list string) :
  unmarshal_items (A := iface) (map text_block texts)
  = (map (fun s => IMap (<["text" := IString s]> (<["type" := IString "text"]> ∅))) texts,
     None).
Proof.
  induction texts as [|s r IH]; [reflexivity|].
  change (unmarshal_items (A := iface) (map text_block (s :: r)))
    with (let '(v, e) := unmarshal (A := iface) (text_block s) zero in
          (v :: (unmarshal_items (A := iface) (map text_block r)).1,
           saveError e (unmarshal_items (A := iface) (map text_block r)).2)).
  by rewrite IH.
Qed.

Lemma UnmarshalJSON_object (t : ToolCallResult) (texts : list string) (isError : bool) :
  UnmarshalJSON t (JObject [("content", JArray (map text_block texts));
                            ("isError", JBool isError)])
  = ({| Content :=
          map (fun s => CValue (IMap (<["text" := IString s]>
                                        (<["type" := IString "text"]> ∅)))) texts;
        IsError := isError |}, None).
Proof.
  unfold UnmarshalJSON. simpl. unfold store_member.
  cbn [find_field List.find fld fname fstore fst snd String.eqb Ascii.eqb Bool.eqb foldName].
  change (unmarshal (JArray (map text_block texts)) (wrapper_Content zero))
    with (unmarshal_items (A := iface) (map text_block texts)).
  rewrite unmarshal_items_text. simpl. by rewrite map_map.
Qed.

Lemma GetText_values (texts : list string) (acc : string) :
  fold_left GetText_step
    (map (fun s => CValue (IMap (<["text" := IString s]>
                                   (<["type" := IString "text"]> ∅)))) texts) acc
  = acc +:+ flattenText (map TextBlock texts).
Proof.
  revert acc. induction texts as [|s r IH]; intros acc; simpl.
  - by rewrite append_nil_r.
  - rewrite lookup_insert_ne by done. rewrite !lookup_insert_eq. simpl.
    rewrite IH. unfold WriteString. apply append_assoc.
Qed.

End Codec.

(** C5.  A tool call result in any of the three historical shapes is decoded
    without error.  A bare string [s] gives exactly one Text block with text
    [s].  An array of content blocks gives one element per block and the
    flattened text is the concatenation, in order, of the texts of its Text
    blocks, blocks that are not marked as text adding no character; in
    particular the array of the Text blocks "a" and "b" flattens to "ab".  An
    object with content and isError passes both through: its flattened text
    is the concatenation of its Text blocks and its flag is the one given;
    in particular [{"content":[],"isError":true}] gives isError = true and
    the empty text. *)
Theorem tool_result_three_shapes
  (data : json) (s : string) (blocks : list block) (texts : list string) (isError : bool)
  (Hshape : historical_shape data = true)
  (Hblocks : forallb other_not_text blocks = true) :
  (ToolCallResult.UnmarshalJSON zero data).2 = None /\
  ToolCallResult.UnmarshalJSON zero (JString s)
    = ({| Content := [CText {| text_Type := "text"; Text := s |}]; IsError := false |}, None) /\
  (let r := (ToolCallResult.UnmarshalJSON zero (JArray (map block_json blocks))).1 in
   length (Content r) = length blocks /\
   ToolCallResult.GetText r = flattenText blocks) /\
  ToolCallResult.GetText
    (ToolCallResult.UnmarshalJSON zero (JArray [text_block "a"; text_block "b"])).1 = "ab" /\
  (let r := (ToolCallResult.UnmarshalJSON zero
               (JObject [("content", JArray (map text_block texts));
                         ("isError", JBool isError)])).1 in
   IsError r = isError /\
   ToolCallResult.GetText r = flattenText (map TextBlock texts)) /\
  (let r := (ToolCallResult.UnmarshalJSON zero
               (JObject [("content", JArray []); ("isError", JBool true)])).1 in
   IsError r = true /\ ToolCallResult.GetText r = "").
Proof.
  split; [apply UnmarshalJSON_nil|].
  split; [reflexivity|].
  split.
  { rewrite UnmarshalJSON_array. simpl. split.
    - by rewrite !length_map.
    - unfold ToolCallResult.GetText. simpl. rewrite GetText_fold.
      by rewrite (GetText_blocks blocks Hblocks). }
  split; [reflexivity|].
  split; [|split; reflexivity].
  rewrite UnmarshalJSON_object. simpl. split; [reflexivity|].
  unfold ToolCallResult.GetText. simpl. by rewrite GetText_values.
Qed.

Lemma tool_result_three_shapes_witness :
  historical_shape (JString "hello") = true /\
  forallb other_not_text
    [TextBlock "a";
     OtherBlock (JObject [("type", JString "image"); ("data", JString "aGk=");
                          ("mimeType", JString "image/png")]);
     TextBlock "b"] = true /\
  ToolCallResult.UnmarshalJSON zero (JString "hello")
    = ({| Content := [CText {| text_Type := "text"; Text := "hello" |}];
          IsError := false |}, None) /\
  ToolCallResult.GetText
    (ToolCallResult.UnmarshalJSON zero
       (JArray [text_block "a";
                JObject [("type", JString "image"); ("data", JString "aGk=");
                         ("mimeType", JString "image/png")];
                text_block "b"])).1 = "ab".
Proof.
  split; [reflexivity|]. split; [reflexivity|].
  pose proof (tool_result_three_shapes (JString "hello") "hello"
    [TextBlock "a";
     OtherBlock (JObject [("type", JString "image"); ("data", JString "aGk=");
                          ("mimeType", JString "image/png")]);
     TextBlock "b"] ["x"] true eq_refl eq_refl) as (_ & H2 & [_ H3] & _).
  split; [exact H2|exact H3].
Defined.

(** C10.  Decoding a tool call result never reports failure: for every JSON
    value the returned error is nil, also when the value has none of the
    three shapes; a number or a boolean leaves the result as it was, so a
    fresh result has no content and isError = false. *)
Theorem UnmarshalJSON_never_fails (data : json) :
  (forall t : ToolCallResult, (ToolCallResult.UnmarshalJSON t data).2 = None) /\
  (forall n : number,
      ToolCallResult.UnmarshalJSON zero (JNumber n)
      = ({| Content := []; IsError := false |}, None)) /\
  (forall b : bool,
      ToolCallResult.UnmarshalJSON zero (JBool b)
      = ({| Content := []; IsError := false |}, None)).
Proof.
  split; [intros t; apply UnmarshalJSON_nil|].
  split; [intros n|intros b]; reflexivity.
Qed.

(** ** One round trip of [CallTool] *)

Lemma Send_ok (t : STDIOTransport) (req : Frame) :
  closed t = false -> next_write_ok t = true ->
  exists t', STDIOTransport.Send t req = (t', None) /\
             closed t' = false /\ stdout (child t') = stdout (child t) /\
             trace t' = trace t ++ [Wrote req; WroteNewline].
Proof.
  intros Hc Hw. unfold STDIOTransport.Send, next_write_ok in *. rewrite Hc.
  destruct (writes (child t)) as [|[| |] rest]; try discriminate Hw.
  - eexists. split; [reflexivity|]. simpl. by rewrite <- app_assoc.
  - eexists. split; [reflexivity|]. simpl. by rewrite <- app_assoc.
Qed.

Lemma CallTool_round_trip (c : Client) (name : string) (args : gmap string iface)
  (line : json) (rest : list read_event) (resp : JSONRPCResponse) :
  initialized c = true ->
  closed (transport c) = false ->
  next_write_ok (transport c) = true ->
  stdout (child (transport c)) = ReadLine line :: rest ->
  unmarshal line (zero : JSONRPCResponse) = (resp, None) ->
  (Client.CallTool c name args).2 =
  match Error resp with
  | Some e => inl (Errorf "tools/call error" (Message e))
  | None =>
      match unmarshalJSON (Result resp) (zero : ToolCallResult) with
      | (_, Some err) => inl (Errorf "failed to unmarshal tools/call result" err)
      | (result, None) => inr (ToolCallResult.GetText result)
      end
  end.
Proof.
  intros Hi Hc Hw Hout Hline. unfold Client.CallTool. rewrite Hi. simpl.
  destruct (Send_ok (transport c)
              (Client.request (incr_requestID c) MethodCallTool
                 (Some (ParamsCallTool name args)))
              Hc Hw) as (t' & -> & Hc' & Hout' & _).
  simpl. unfold STDIOTransport.Receive. rewrite Hc', Hout', Hout, Hline.
  destruct (Error resp); [reflexivity|].
  destruct (unmarshalJSON (Result resp) zero) as [result [err|]]; reflexivity.
Qed.

Lemma NewClient_fresh (os : Child) (server : MCPServer) :
  pipes os = PipesOk -> NewClient os server = inr (fresh_client os server).
Proof. intros H. unfold NewClient, NewSTDIOTransport. by rewrite H. Qed.

Lemma NewClient_inv (os : Child) (server : MCPServer) (c : Client) :
  NewClient os server = inr c -> c = fresh_client os server.
Proof.
  unfold NewClient, NewSTDIOTransport. destruct (pipes os); intros H; by inversion H.
Qed.

(** ** The tool wrapper *)

(** C2, as the code has it.  When the round trip of a tool call succeeds,
    [Execute] returns a success result that carries the flattened text of
    the decoded result, whether its isError is true or false: the flag is
    decoded and not read.  For an object with Text blocks as content the
    result is the success result with their concatenated text, for both
    values of the flag. *)
Theorem Execute_success_carries_text
  (w : ToolWrapper) (c : Client) (args : gmap string iface)
  (line : json) (rest : list read_event) (resp : JSONRPCResponse) (data : json)
  (texts : list string) (isError : bool)
  (Hinit : initialized c = true)
  (Hopen : closed (transport c) = false)
  (Hwrite : next_write_ok (transport c) = true)
  (Hread : stdout (child (transport c)) = ReadLine line :: rest)
  (Hline : unmarshal line (zero : JSONRPCResponse) = (resp, None))
  (Hnoerr : Error resp = None)
  (Hresult : Result resp = Raw data) :
  (ToolWrapper.Execute w c args).2
  = NewToolResult (ToolCallResult.GetText (ToolCallResult.UnmarshalJSON zero data).1) /\
  (data = JObject [("content", JArray (map text_block texts)); ("isError", JBool isError)] ->
   IsError (ToolCallResult.UnmarshalJSON zero data).1 = isError /\
   (ToolWrapper.Execute w c args).2 = NewToolResult (flattenText (map TextBlock texts))).
Proof.
  assert ((ToolWrapper.Execute w c args).2
          = NewToolResult (ToolCallResult.GetText (ToolCallResult.UnmarshalJSON zero data).1))
    as HE.
  { unfold ToolWrapper.Execute.
    pose proof (CallTool_round_trip c (tool_Name (wrapper_tool w)) args line rest resp
                  Hinit Hopen Hwrite Hread Hline) as H.
    destruct (Client.CallTool c (tool_Name (wrapper_tool w)) args) as [c' r].
    simpl in H. subst r. rewrite Hnoerr, Hresult. unfold unmarshalJSON, unmarshal_raw.
    change (unmarshal data (zero : ToolCallResult)) with (ToolCallResult.UnmarshalJSON zero data).
    pose proof (UnmarshalJSON_nil zero data) as Hnil.
    destruct (ToolCallResult.UnmarshalJSON zero data) as [result err].
    simpl in Hnil. subst err. reflexivity. }
  split; [exact HE|]. intros ->. rewrite HE, UnmarshalJSON_object. simpl.
  split; [reflexivity|]. unfold ToolCallResult.GetText. simpl. by rewrite GetText_values.
Qed.

Lemma Execute_success_carries_text_witness :
  let c := session_after_handshake [is_error_response] in
  IsError (ToolCallResult.UnmarshalJSON zero
             (JObject [("content", JArray (map text_block ["disk full"]));
                       ("isError", JBool true)])).1 = true /\
  (ToolWrapper.Execute (NewToolWrapper c a_tool) c ∅).2 = NewToolResult "disk full".
Proof.
  intros c.
  refine ((proj2 (Execute_success_carries_text (NewToolWrapper c a_tool) c ∅
            is_error_response [] (unmarshal is_error_response (zero : JSONRPCResponse)).1
            (JObject [("content", JArray (map text_block ["disk full"]));
                      ("isError", JBool true)])
            ["disk full"] true _ _ _ _ _ _ _)) eq_refl); vm_compute; reflexivity.
Defined.

(** C2, the claim on the code: the text of the server is kept, but in a
    success result, not in an error-tagged one. *)
Lemma Execute_isError_counterexample :
  let c := session_after_handshake [is_error_response] in
  let data := JObject [("content", JArray [text_block "disk full"]); ("isError", JBool true)] in
  Result (unmarshal is_error_response (zero : JSONRPCResponse)).1 = Raw data /\
  IsError (ToolCallResult.UnmarshalJSON zero data).1 = true /\
  (ToolWrapper.Execute (NewToolWrapper c a_tool) c ∅).2 = NewToolResult "disk full" /\
  forall message : string,
    (ToolWrapper.Execute (NewToolWrapper c a_tool) c ∅).2 <> ErrorResult message.
Proof.
  intros c data. split; [reflexivity|]. split; [reflexivity|].
  assert ((ToolWrapper.Execute (NewToolWrapper c a_tool) c ∅).2 = NewToolResult "disk full")
    as H by (vm_compute; reflexivity).
  split; [exact H|]. intros message. rewrite H. discriminate.
Qed.

(** C3, what the code does with an RPC error on a tool call: the result of
    [Execute] is tagged as an error and its message is built from the name
    of the tool and [error.message] alone; [error.data] does not enter it. *)
Theorem Execute_rpc_error_omits_data
  (w : ToolWrapper) (c : Client) (args : gmap string iface)
  (line : json) (rest : list read_event) (resp : JSONRPCResponse) (e : RPCError)
  (Hinit : initialized c = true)
  (Hopen : closed (transport c) = false)
  (Hwrite : next_write_ok (transport c) = true)
  (Hread : stdout (child (transport c)) = ReadLine line :: rest)
  (Hline : unmarshal line (zero : JSONRPCResponse) = (resp, None))
  (Herr : Error resp = Some e) :
  (ToolWrapper.Execute w c args).2
  = ErrorResult ("MCP tool " +:+ tool_Name (wrapper_tool w) +:+ " error: " +:+
                 "tools/call error: " +:+ Message e).
Proof.
  unfold ToolWrapper.Execute.
  pose proof (CallTool_round_trip c (tool_Name (wrapper_tool w)) args line rest resp
                Hinit Hopen Hwrite Hread Hline) as H.
  destruct (Client.CallTool c (tool_Name (wrapper_tool w)) args) as [c' r].
  simpl in H. subst r. rewrite Herr. reflexivity.
Qed.

(** Scenario D: the message of the error-tagged result has "Invalid params"
    and nothing of the data, which [GetError] would render. *)
Lemma Execute_rpc_error_omits_data_witness :
  let c := session_after_handshake [invalid_params_response] in
  let resp := (unmarshal invalid_params_response (zero : JSONRPCResponse)).1 in
  (forall FormatFloat,
      JSONRPCResponse.GetError FormatFloat resp = Some "Invalid params: map[field:name]") /\
  (ToolWrapper.Execute (NewToolWrapper c a_tool) c ∅).2
  = ErrorResult "MCP tool read_file error: tools/call error: Invalid params".
Proof.
  intros c resp. split; [intros FormatFloat; vm_compute; reflexivity|].
  refine (Execute_rpc_error_omits_data (NewToolWrapper c a_tool) c ∅
            invalid_params_response [] resp
            {| Code := -32602; Message := "Invalid params";
               error_Data := Raw (JObject [("field", JString "name")]) |}
            _ _ _ _ _ _); vm_compute; reflexivity.
Defined.

(** ** Decoding of inbound frames *)

(** C4, as the code has it.  A frame shaped like a response is decoded and
    returned to the session whatever its jsonrpc member is, absent or any
    string, and also when result and error are both present: the version is
    recorded and not checked, and both members are kept. *)
Theorem Receive_checks_no_protocol
  (t : STDIOTransport) (rest : list read_event)
  (version : option string) (id : Z) (result : option json) (err : option (Z * string))
  (Hopen : closed t = false)
  (Hid : in_int64 id = true)
  (Hcode : from_option (fun e => in_int64 e.1) true err = true)
  (Hread : stdout (child t) = ReadLine (response_frame version id result err) :: rest) :
  STDIOTransport.Receive t
  = (set_stdout rest t,
     inr {| JSONRPC := default "" version;
            ID := id;
            Result := from_option Raw RawEmpty result;
            Error := (fun e => {| Code := e.1; Message := e.2; error_Data := RawEmpty |})
                       <$> err |}).
Proof.
  unfold STDIOTransport.Receive. rewrite Hopen, Hread.
  destruct version as [v|], result as [r|], err as [[code msg]|]; simpl in Hcode |- *.
  all: cbv beta iota zeta delta -[in_int64 set_stdout]; rewrite ?Hid, ?Hcode; reflexivity.
Qed.

Lemma Receive_checks_no_protocol_witness :
  let frame := response_frame None 2 (Some (JString "ok")) None in
  let t := transport (session_after_handshake [frame]) in
  STDIOTransport.Receive t
  = (set_stdout [] t,
     inr {| JSONRPC := ""; ID := 2; Result := Raw (JString "ok"); Error := None |}).
Proof.
  intros frame t.
  refine (Receive_checks_no_protocol t [] None 2 (Some (JString "ok")) None _ _ _ _);
    vm_compute; reflexivity.
Defined.

(** C4, the claim on the code: a frame without jsonrpc is returned to the
    session and answers a tool call; a frame with another version that has
    both result and error is returned as well. *)
Lemma Receive_protocol_violation_counterexample :
  let no_version := response_frame None 2 (Some (JString "ok")) None in
  let both := response_frame (Some "1.0") 2 (Some (JString "ok")) (Some (-32000, "boom")) in
  (STDIOTransport.Receive (transport (session_after_handshake [no_version]))).2
  = inr {| JSONRPC := ""; ID := 2; Result := Raw (JString "ok"); Error := None |} /\
  (Client.CallTool (session_after_handshake [no_version]) "read_file" ∅).2 = inr "ok" /\
  (STDIOTransport.Receive (transport (session_after_handshake [both]))).2
  = inr {| JSONRPC := "1.0"; ID := 2; Result := Raw (JString "ok");
           Error := Some {| Code := -32000; Message := "boom"; error_Data := RawEmpty |} |}.
Proof.
  intros no_version both. split; [|split]; vm_compute; reflexivity.
Qed.

(** ** The environment of the child *)

Lemma dedup_keys_incl (env : list string) (kv : string) :
  In kv (dedup_keys env) -> In kv env.
Proof.
  induction env as [|x rest IH]; simpl; [done|].
  repeat case_match; simpl; intros Hin; try (destruct Hin as [Hin|Hin]); auto.
Qed.

Lemma dedup_keys_distinct (env : list string) :
  distinct_keys env = true -> dedup_keys env = env.
Proof.
  induction env as [|x rest IH]; simpl; [done|].
  intros H. apply andb_true_iff in H as [Hx Hrest]. rewrite (IH Hrest).
  destruct (env_key x) as [k|].
  - apply negb_true_iff in Hx. by rewrite Hx.
  - apply negb_true_iff in Hx. by rewrite Hx.
Qed.

Lemma filter_no_nul (env : list string) :
  existsb has_nul env = false -> List.filter (fun kv => negb (has_nul kv)) env = env.
Proof.
  induction env as [|x rest IH]; simpl; [done|].
  intros H. apply orb_false_iff in H as [Hx Hrest]. by rewrite Hx, (IH Hrest).
Qed.

(** C8, as the code has it.  When [Connect] starts the child of a
    descriptor whose env list is present, also when it is empty, the child
    gets the entries of that list, the last one of each key, and nothing of
    the parent's environment: exactly the list when its keys are distinct.
    When the env list is absent (nil) the child gets the environment of the
    parent. *)
Theorem child_environment (os : Child) (server : MCPServer) (c : Client)
  (Hnew : NewClient os server = inr c)
  (Hconnect : (Client.Connect c).2 = None) :
  exists env,
    trace (transport (Client.Connect c).1) = [Spawned (Command server) (Args server) env] /\
    match Env server with
    | Some l =>
        env = dedup_keys l /\
        (forall kv, In kv env -> In kv l) /\
        (distinct_keys l = true -> env = l)
    | None => env = dedup_keys (Environ os)
    end.
Proof.
  apply NewClient_inv in Hnew. subst c.
  unfold Client.Connect, STDIOTransport.Start, cmd_environ, dedupEnv in *. simpl in *.
  destruct (Env server) as [l|].
  - destruct (existsb has_nul l) eqn:Hnul; simpl in *; [discriminate Hconnect|].
    destruct (start_error os); simpl in *; [discriminate Hconnect|].
    rewrite (filter_no_nul l Hnul). eexists. split; [reflexivity|].
    split; [reflexivity|]. split; [apply dedup_keys_incl|]. intros H.
    by apply dedup_keys_distinct.
  - destruct (existsb has_nul (Environ os)) eqn:Hnul; simpl in *; [discriminate Hconnect|].
    destruct (start_error os); simpl in *; [discriminate Hconnect|].
    rewrite (filter_no_nul _ Hnul). eexists. split; reflexivity.
Qed.

Lemma child_environment_witness :
  let os := child_printing [] in
  Environ os = ["HOME=/root"] /\
  trace (transport (Client.Connect (fresh_client os github_server)).1)
  = [Spawned "npx" ["-y"; "server-github"] ["GITHUB_TOKEN=ghp_xxx"]].
Proof.
  intros os. split; [reflexivity|].
  destruct (child_environment os github_server (fresh_client os github_server)
              eq_refl eq_refl) as (env & -> & _ & _ & Henv).
  by rewrite (Henv eq_refl).
Defined.

(** C8, the claim on the code: a descriptor without env list starts its
    child with the variables of the parent. *)
Lemma absent_env_inherits_counterexample :
  let os := child_printing [] in
  Env fs_server = None /\
  Environ os = ["HOME=/root"] /\
  trace (transport (Client.Connect (fresh_client os fs_server)).1)
  = [Spawned "echo-srv" [] ["HOME=/root"]].
Proof. intros os. split; [|split]; reflexivity. Qed.

(** ** The session: request ids *)

Lemma request_ids_app (a b : list event) :
  request_ids (a ++ b) = request_ids a ++ request_ids b.
Proof.
  induction a as [|e a IH]; [reflexivity|].
  destruct e; simpl; try apply IH. destruct (frame_id m); simpl; by rewrite IH.
Qed.

Lemma Send_ids (t t' : STDIOTransport) (req : Frame) (err : option error) :
  STDIOTransport.Send t req = (t', err) ->
  request_ids (trace t') = request_ids (trace t) \/
  request_ids (trace t') = request_ids (trace t) ++ from_option (fun i => [i]) [] (frame_id req).
Proof.
  unfold STDIOTransport.Send. intros H.
  repeat case_match; simplify_eq; simpl; rewrite ?request_ids_app; simpl;
    destruct (frame_id req); simpl; rewrite ?app_nil_r; auto.
Qed.

Lemma Receive_trace (t t' : STDIOTransport) (r : error + JSONRPCResponse) :
  STDIOTransport.Receive t = (t', r) -> trace t' = trace t.
Proof.
  unfold STDIOTransport.Receive. intros H. repeat case_match; by simplify_eq.
Qed.

Lemma Close_ids (t t' : STDIOTransport) (err : option error) :
  STDIOTransport.Close t = (t', err) -> request_ids (trace t') = request_ids (trace t).
Proof.
  unfold STDIOTransport.Close. intros H.
  repeat case_match; simplify_eq; simpl; rewrite ?request_ids_app; simpl;
    by rewrite ?app_nil_r.
Qed.

Lemma Start_ids (t t' : STDIOTransport) (err : option error) :
  STDIOTransport.Start t = (t', err) -> request_ids (trace t') = request_ids (trace t).
Proof.
  unfold STDIOTransport.Start. intros H.
  repeat case_match; simplify_eq; simpl; rewrite ?request_ids_app; simpl;
    by rewrite ?app_nil_r.
Qed.

Ltac transport_facts :=
  repeat match goal with
    | H : STDIOTransport.Send ?t ?r = (_, _) |- _ =>
        let F := fresh "Hsend" in pose proof (Send_ids _ _ _ _ H) as F; simpl in F; clear H
    | H : STDIOTransport.Receive ?t = (_, _) |- _ =>
        let F := fresh "Hrecv" in pose proof (Receive_trace _ _ _ H) as F; simpl in F; clear H
    | H : STDIOTransport.Close ?t = (_, _) |- _ =>
        let F := fresh "Hclose" in pose proof (Close_ids _ _ _ H) as F; simpl in F; clear H
    | H : STDIOTransport.Start ?t = (_, _) |- _ =>
        let F := fresh "Hstart" in pose proof (Start_ids _ _ _ H) as F; simpl in F; clear H
    end.

Ltac ids_done :=
  rewrite ?app_nil_r in *;
  repeat match goal with
    | H : trace ?a = trace ?b |- _ => rewrite H in *; clear H
    | H : _ \/ _ |- _ => destruct H
    | H : request_ids (trace ?a) = _ |- _ => rewrite H in *; clear H
    end;
  auto.

Lemma perform_allocates (c : Client) (o : operation) : allocates c (perform c o).
Proof.
  unfold allocates, wire_ids.
  destruct o; simpl.
  - unfold Client.Connect. repeat case_match; simplify_eq; transport_facts; simpl;
      left; ids_done.
  - unfold Client.Initialize. repeat case_match; simplify_eq; transport_facts; simpl;
      right; (split; [reflexivity|]); ids_done.
  - unfold Client.ListTools. repeat case_match; simplify_eq; transport_facts; simpl;
      try (left; ids_done; fail); right; (split; [reflexivity|]); ids_done.
  - unfold Client.CallTool. repeat case_match; simplify_eq; transport_facts; simpl;
      try (left; ids_done; fail); right; (split; [reflexivity|]); ids_done.
  - unfold Client.Shutdown. repeat case_match; simplify_eq; transport_facts; simpl;
      try (left; ids_done; fail); right; (split; [reflexivity|]); ids_done.
  - unfold Client.Close. repeat case_match; simplify_eq; transport_facts; simpl;
      left; ids_done.
Qed.

Lemma wrap64_succ (z : Z) : 0 <= z < int64_max -> wrap64 (z + 1) = z + 1.
Proof. unfold wrap64, int64_max. intros H. rewrite Z.mod_small; lia. Qed.

Lemma StronglySorted_snoc (l : list Z) (x : Z) :
  StronglySorted Z.lt l -> Forall (fun i => i < x) l -> StronglySorted Z.lt (l ++ [x]).
Proof.
  induction 1 as [|a l Hl IH Ha]; intros Hx; simpl.
  - repeat constructor.
  - inversion Hx; subst. constructor; [by apply IH|].
    apply Forall_app. split; [done|]. by repeat constructor.
Qed.

Lemma StronglySorted_lt_NoDup (l : list Z) : StronglySorted Z.lt l -> NoDup l.
Proof.
  induction 1 as [|a l Hl IH Ha]; constructor; [|done].
  intros Hin. rewrite Forall_forall in Ha. specialize (Ha a Hin). lia.
Qed.

Lemma ids_inv_step (n : Z) (c : Client) (o : operation) :
  ids_inv n c -> n < int64_max -> ids_inv (n + 1) (perform c o).
Proof.
  intros (Hr & Hs & Hb) Hn. unfold ids_inv.
  destruct (perform_allocates c o) as [[Hid Hw]|[Hid Hw]].
  - rewrite Hid, Hw. split; [lia|]. split; [done|done].
  - rewrite wrap64_succ in Hid by lia. rewrite Hid.
    assert (Forall (fun i => 1 <= i <= requestID c + 1) (wire_ids c)) as Hb'.
    { eapply Forall_impl; [exact Hb|]. simpl. intros i Hi. lia. }
    destruct Hw as [Hw|Hw]; rewrite Hw.
    + split; [lia|]. split; done.
    + split; [lia|]. split.
      * apply StronglySorted_snoc; [done|].
        eapply Forall_impl; [exact Hb|]. simpl. intros i Hi. lia.
      * apply Forall_app. split; [done|]. repeat constructor; lia.
Qed.

Lemma ids_inv_run (ops : list operation) (n : Z) (c : Client) :
  ids_inv n c -> n + Z.of_nat (length ops) <= int64_max ->
  ids_inv (n + Z.of_nat (length ops)) (run c ops).
Proof.
  revert n c. induction ops as [|o ops IH]; intros n c Hinv Hn; simpl.
  - by rewrite Z.add_0_r.
  - change (length (o :: ops)) with (S (length ops)) in *.
    replace (n + Z.of_nat (S (length ops))) with ((n + 1) + Z.of_nat (length ops)) by lia.
    apply IH; [|lia]. apply ids_inv_step; [done|lia].
Qed.

(** Past the bound the counter wraps to the least [int64]. *)
Remark requestID_wraps : wrap64 (int64_max + 1) = int64_min.
Proof. reflexivity. Qed.

Lemma ids_inv_fresh (os : Child) (server : MCPServer) : ids_inv 0 (fresh_client os server).
Proof. unfold ids_inv. simpl. split; [lia|]. split; constructor. Qed.

(** C1.  A session starts with its counter at 0 and nothing on the wire.
    After any sequence of operations the ids of the requests written to the
    child increase strictly, are pairwise distinct and lie between 1 and the
    counter; and one more operation writes no id or exactly one, the
    successor of the counter, which is greater than every id written before.
    The bound on the number of operations keeps the [int64] counter from
    wrapping. *)
Theorem request_ids_strictly_increasing
  (os : Child) (server : MCPServer) (c0 : Client) (ops : list operation) (o : operation)
  (Hnew : NewClient os server = inr c0)
  (Hlen : Z.of_nat (length ops) < int64_max) :
  let c := run c0 ops in
  requestID c0 = 0 /\ wire_ids c0 = [] /\
  StronglySorted Z.lt (wire_ids c) /\
  NoDup (wire_ids c) /\
  Forall (fun i => 1 <= i <= requestID c) (wire_ids c) /\
  (wire_ids (perform c o) = wire_ids c \/
   wire_ids (perform c o) = wire_ids c ++ [requestID c + 1] /\
   Forall (fun i => i < requestID c + 1) (wire_ids c)).
Proof.
  intros c. apply NewClient_inv in Hnew. subst c0.
  split; [reflexivity|]. split; [reflexivity|].
  pose proof (ids_inv_run ops 0 _ (ids_inv_fresh os server) ltac:(lia)) as (Hr & Hs & Hb).
  fold c in Hr, Hs, Hb. rewrite Z.add_0_l in Hr.
  split; [done|]. split; [by apply StronglySorted_lt_NoDup|]. split; [done|].
  destruct (perform_allocates c o) as [[_ Hw]|[Hid [Hw|Hw]]]; [by left|by left|].
  right. rewrite wrap64_succ in Hid by lia. rewrite Hw, Hid. split; [done|].
  eapply Forall_impl; [exact Hb|]. simpl. intros i Hi. lia.
Qed.

Lemma request_ids_strictly_increasing_witness :
  let os := child_printing [initialize_response; tools_response; is_error_response] in
  let ops := [OpConnect; OpInitialize; OpListTools; OpCallTool "read_file" ∅] in
  wire_ids (run (fresh_client os fs_server) ops) = [1; 2; 3] /\
  StronglySorted Z.lt (wire_ids (run (fresh_client os fs_server) ops)) /\
  wire_ids (perform (run (fresh_client os fs_server) ops) OpShutdown) = [1; 2; 3; 4].
Proof.
  intros os ops.
  pose proof (request_ids_strictly_increasing os fs_server (fresh_client os fs_server) ops
                OpShutdown eq_refl eq_refl) as (_ & _ & Hs & _).
  split; [vm_compute; reflexivity|]. split; [exact Hs|vm_compute; reflexivity].
Defined.

(** ** The session: initialization and close *)

Lemma Initialize_failed (c c1 : Client) (e : error) :
  Client.Initialize c = (c1, Some e) ->
  requestID c1 = wrap64 (requestID c + 1) /\ initialized c1 = initialized c.
Proof.
  unfold Client.Initialize. intros H. repeat case_match; simplify_eq; simpl; done.
Qed.

(** C9.  [IsInitialized] reads the request counter, not the flag: it is true
    exactly when the counter is positive.  On a new session it is false, and
    it is still false once the session is connected and its process runs.
    After an [Initialize] on the connected session that failed, for
    whatever reason, the counter is 1 and [IsInitialized] is true while the
    flag is still false, and [ListTools] and [CallTool] fail with the
    not-initialized error and leave the session as it is.  The same holds
    after a failed [Initialize] on any session that is not initialized and
    whose counter has not run out. *)
Theorem IsInitialized_reads_counter
  (os : Child) (server : MCPServer) (c0 c c1 : Client) (e : error)
  (name : string) (args : gmap string iface)
  (Hnew : NewClient os server = inr c0)
  (Hconnect : Client.Connect c0 = (c, None))
  (Hfail : Client.Initialize c = (c1, Some e)) :
  (forall c' : Client, Client.IsInitialized c' = true <-> 0 < requestID c') /\
  Client.IsInitialized c0 = false /\
  Process (cmd (transport c)) = true /\
  Client.IsInitialized c = false /\
  requestID c1 = 1 /\
  initialized c1 = false /\
  Client.IsInitialized c1 = true /\
  Client.ListTools c1 = (c1, inl "client not initialized") /\
  Client.CallTool c1 name args = (c1, inl "client not initialized") /\
  (forall s s1 : Client, forall e1 : error,
      initialized s = false -> 0 <= requestID s < int64_max ->
      Client.Initialize s = (s1, Some e1) ->
      requestID s1 = requestID s + 1 /\
      initialized s1 = false /\
      Client.IsInitialized s1 = true /\
      Client.ListTools s1 = (s1, inl "client not initialized") /\
      Client.CallTool s1 name args = (s1, inl "client not initialized")).
Proof.
  assert (forall s s1 : Client, forall e1 : error,
             initialized s = false -> 0 <= requestID s < int64_max ->
             Client.Initialize s = (s1, Some e1) ->
             requestID s1 = requestID s + 1 /\
             initialized s1 = false /\
             Client.IsInitialized s1 = true /\
             Client.ListTools s1 = (s1, inl "client not initialized") /\
             Client.CallTool s1 name args = (s1, inl "client not initialized")) as Hgeneral.
  { intros s s1 e1 Hflag Hcount Hs.
    destruct (Initialize_failed s s1 e1 Hs) as [Hid Hflag1].
    rewrite (wrap64_succ _ Hcount) in Hid. rewrite Hflag in Hflag1.
    split; [done|]. split; [done|].
    split. { unfold Client.IsInitialized. apply Z.ltb_lt. lia. }
    unfold Client.ListTools, Client.CallTool. by rewrite Hflag1. }
  apply NewClient_inv in Hnew. subst c0.
  assert (Process (cmd (transport c)) = true /\ requestID c = 0 /\ initialized c = false)
    as (Hproc & Hid & Hflag).
  { unfold Client.Connect, STDIOTransport.Start in Hconnect.
    repeat case_match; simplify_eq; simpl; done. }
  split. { intros c'. unfold Client.IsInitialized. apply Z.ltb_lt. }
  split; [reflexivity|]. split; [done|].
  split. { unfold Client.IsInitialized. by rewrite Hid. }
  destruct (Hgeneral c c1 e Hflag) as (H1 & H2 & H3 & H4 & H5); [|done|].
  { rewrite Hid. unfold int64_max. lia. }
  rewrite Hid in H1. done.
Qed.

(** The connected session whose handshake is answered with an error. *)
Lemma IsInitialized_reads_counter_witness :
  let os := child_printing [invalid_params_response] in
  let c0 := fresh_client os fs_server in
  let c := (Client.Connect c0).1 in
  let c1 := (Client.Initialize c).1 in
  (Client.Connect c0).2 = None /\
  (Client.Initialize c).2 = Some "initialize error: Invalid params" /\
  Process (cmd (transport c)) = true /\
  Client.IsInitialized c = false /\
  Client.IsInitialized c1 = true /\
  initialized c1 = false /\
  Client.ListTools c1 = (c1, inl "client not initialized").
Proof.
  intros os c0 c c1.
  assert (Client.Connect c0 = (c, None)) as Hconnect by (vm_compute; reflexivity).
  assert (Client.Initialize c = (c1, Some "initialize error: Invalid params")) as Hfail
    by (vm_compute; reflexivity).
  pose proof (IsInitialized_reads_counter os fs_server c0 c c1 _ "read_file" ∅
                eq_refl Hconnect Hfail)
    as (_ & _ & Hproc & Hbefore & _ & Hflag & Hinit & Hlist & _).
  split; [by rewrite Hconnect|]. split; [by rewrite Hfail|].
  split; [exact Hproc|]. split; [exact Hbefore|]. split; [exact Hinit|].
  split; [exact Hflag|exact Hlist].
Defined.

Lemma Send_closed (t : STDIOTransport) (req : Frame) :
  closed t = true -> STDIOTransport.Send t req = (t, Some "transport is closed").
Proof. intros H. unfold STDIOTransport.Send. by rewrite H. Qed.

Lemma Start_closed (t : STDIOTransport) :
  closed t = true -> STDIOTransport.Start t = (t, Some "transport is closed").
Proof. intros H. unfold STDIOTransport.Start. by rewrite H. Qed.

Lemma Close_closed (t : STDIOTransport) :
  closed t = true -> STDIOTransport.Close t = (t, None).
Proof. intros H. unfold STDIOTransport.Close. by rewrite H. Qed.

Lemma Close_is_closed (c : Client) : is_closed (Client.Close c).1 /\ (Client.Close c).2 = None.
Proof.
  unfold is_closed, Client.Close, STDIOTransport.Close. simpl.
  destruct (closed (transport c)) eqn:Hc; simpl; [by rewrite Hc|].
  by destruct (Process (cmd (transport c))).
Qed.

(** On a closed session an operation changes neither the flag nor the
    transport: nothing more reaches the child. *)
Lemma perform_closed (c : Client) (o : operation) :
  is_closed c -> is_closed (perform c o) /\ transport (perform c o) = transport c.
Proof.
  intros [Hc Hi]. unfold is_closed.
  destruct c as [srv t id caps tl ini]. simpl in *. subst ini.
  destruct o; simpl.
  - unfold Client.Connect. simpl. by rewrite (Start_closed t Hc).
  - unfold Client.Initialize. simpl. by rewrite (Send_closed t _ Hc).
  - done.
  - done.
  - done.
  - unfold Client.Close. simpl. by rewrite (Close_closed t Hc).
Qed.

Lemma run_closed (ops : list operation) (c : Client) :
  is_closed c -> is_closed (run c ops) /\ transport (run c ops) = transport c.
Proof.
  revert c. induction ops as [|o ops IH]; intros c Hc; simpl; [done|].
  destruct (perform_closed c o Hc) as [Hc' Ht].
  destruct (IH _ Hc') as [Hc'' Ht']. split; [done|]. by rewrite Ht', Ht.
Qed.

Lemma Start_waited (t t' : STDIOTransport) (err : option error) :
  waited t -> STDIOTransport.Start t = (t', err) -> waited t'.
Proof.
  unfold STDIOTransport.Start, waited. intros Hw H.
  repeat case_match; simplify_eq; simpl in *; try done; try congruence; intros; eauto.
Qed.

Lemma Send_waited (t t' : STDIOTransport) (req : Frame) (err : option error) :
  waited t -> STDIOTransport.Send t req = (t', err) -> waited t'.
Proof.
  unfold STDIOTransport.Send, waited. intros Hw H.
  repeat case_match; simplify_eq; simpl in *; try done; try congruence; intros; eauto.
Qed.

Lemma Receive_waited (t t' : STDIOTransport) (r : error + JSONRPCResponse) :
  waited t -> STDIOTransport.Receive t = (t', r) -> waited t'.
Proof.
  unfold STDIOTransport.Receive, waited. intros Hw H.
  repeat case_match; simplify_eq; simpl in *; try done; try congruence; intros; eauto.
Qed.

Lemma Close_waited (t t' : STDIOTransport) (err : option error) :
  waited t -> STDIOTransport.Close t = (t', err) -> waited t'.
Proof.
  unfold STDIOTransport.Close, waited. intros Hw H.
  repeat case_match; simplify_eq; simpl in *; try done; try congruence.
  all: intros; eauto.
  exists (trace t). by rewrite <- app_assoc.
Qed.

Ltac waited_facts :=
  repeat match goal with
    | W : waited ?t, H : STDIOTransport.Send ?t ?r = (_, _) |- _ =>
        pose proof (Send_waited _ _ _ _ W H); clear H
    | W : waited ?t, H : STDIOTransport.Receive ?t = (_, _) |- _ =>
        pose proof (Receive_waited _ _ _ W H); clear H
    | W : waited ?t, H : STDIOTransport.Close ?t = (_, _) |- _ =>
        pose proof (Close_waited _ _ _ W H); clear H
    | W : waited ?t, H : STDIOTransport.Start ?t = (_, _) |- _ =>
        pose proof (Start_waited _ _ _ W H); clear H
    end.

Lemma perform_waited (c : Client) (o : operation) :
  waited (transport c) -> waited (transport (perform c o)).
Proof.
  intros Hw. destruct o; simpl.
  - unfold Client.Connect. repeat case_match; simplify_eq; simpl in *; waited_facts; done.
  - unfold Client.Initialize. repeat case_match; simplify_eq; simpl in *; waited_facts; done.
  - unfold Client.ListTools. repeat case_match; simplify_eq; simpl in *; waited_facts; done.
  - unfold Client.CallTool. repeat case_match; simplify_eq; simpl in *; waited_facts; done.
  - unfold Client.Shutdown. repeat case_match; simplify_eq; simpl in *; waited_facts; done.
  - unfold Client.Close. repeat case_match; simplify_eq; simpl in *; waited_facts; done.
Qed.

Lemma run_waited (ops : list operation) (c : Client) :
  waited (transport c) -> waited (transport (run c ops)).
Proof.
  revert c. induction ops as [|o ops IH]; intros c Hw; simpl; [done|].
  apply IH. by apply perform_waited.
Qed.

(** C7.  On every session, [Close] returns success and a second [Close]
    returns success and changes nothing.  After [Close], whatever is
    invoked on the session, [ListTools] and [CallTool] fail, with the
    not-initialized error, and nothing more is written to the child.  When
    [Close] returns and the child had been started, closing its stdin and
    then waiting for it are the last two things the transport did; on a
    transport that was still open they are done by this [Close]. *)
Theorem Close_ends_the_session
  (os : Child) (server : MCPServer) (c0 : Client) (before after : list operation)
  (name : string) (args : gmap string iface)
  (Hnew : NewClient os server = inr c0) :
  let c := run c0 before in
  let c1 := (Client.Close c).1 in
  let c2 := run c1 after in
  (Client.Close c).2 = None /\
  Client.Close c1 = (c1, None) /\
  Client.ListTools c2 = (c2, inl "client not initialized") /\
  Client.CallTool c2 name args = (c2, inl "client not initialized") /\
  trace (transport c2) = trace (transport c1) /\
  (Process (cmd (transport c1)) = true ->
   exists done_before, trace (transport c1) = done_before ++ [ClosedStdin; Waited]) /\
  (closed (transport c) = false -> Process (cmd (transport c)) = true ->
   trace (transport c1) = trace (transport c) ++ [ClosedStdin; Waited]).
Proof.
  apply NewClient_inv in Hnew. subst c0. cbv zeta.
  assert (waited (transport (run (fresh_client os server) before))) as Hw.
  { apply run_waited. intros Hc. discriminate Hc. }
  revert Hw. generalize (run (fresh_client os server) before). intros c Hw.
  destruct (Close_is_closed c) as [Hclosed Hnil].
  destruct (run_closed after _ Hclosed) as [[Hc2 Hi2] Ht2].
  split; [done|]. split.
  { destruct Hclosed as [Hc Hi]. unfold Client.Close at 1.
    rewrite (Close_closed (transport (set_initialized false (Client.Close c).1))) by done.
    destruct (Client.Close c).1; simpl in *. by subst. }
  split. { unfold Client.ListTools. by rewrite Hi2. }
  split. { unfold Client.CallTool. by rewrite Hi2. }
  split; [by rewrite Ht2|].
  split.
  - intros Hp. apply (perform_waited c OpClose Hw); [apply Hclosed|done].
  - intros Hopen Hproc. unfold Client.Close, STDIOTransport.Close. simpl.
    rewrite Hopen. simpl. rewrite Hproc. simpl. by rewrite <- app_assoc.
Qed.

Lemma Close_ends_the_session_witness :
  let os := child_printing [initialize_response; tools_response] in
  let c := run (fresh_client os fs_server) [OpConnect; OpInitialize; OpListTools] in
  let c1 := (Client.Close c).1 in
  let c2 := run c1 [OpInitialize; OpListTools] in
  (Client.Close c).2 = None /\
  Client.Close c1 = (c1, None) /\
  Client.ListTools c2 = (c2, inl "client not initialized") /\
  Client.CallTool c2 "read_file" ∅ = (c2, inl "client not initialized") /\
  trace (transport c2) = trace (transport c1) /\
  (Process (cmd (transport c1)) = true ->
   exists done_before, trace (transport c1) = done_before ++ [ClosedStdin; Waited]) /\
  (closed (transport c) = false -> Process (cmd (transport c)) = true ->
   trace (transport c1) = trace (transport c) ++ [ClosedStdin; Waited]).
Proof.
  intros os.
  exact (Close_ends_the_session os fs_server (fresh_client os fs_server)
           [OpConnect; OpInitialize; OpListTools] [OpInitialize; OpListTools]
           "read_file" ∅ eq_refl).
Defined.

Example close_after_handshake :
  let os := child_printing [initialize_response; tools_response] in
  let c := run (fresh_client os fs_server) [OpConnect; OpInitialize; OpListTools] in
  closed (transport c) = false /\
  Process (cmd (transport c)) = true /\
  skipn 7 (trace (transport (Client.Close c).1)) = [ClosedStdin; Waited].
Proof. vm_compute. auto. Qed.

(** ** The manager *)

Lemma registerTools_spec (m : Manager) (client : Client) :
  Manager.registerTools m client
  = {| clients := clients m;
       registry := registry m ++ map (NewToolWrapper client) (Client.GetTools client);
       cfg := cfg m |}.
Proof.
  unfold Manager.registerTools. generalize (Client.GetTools client). intros l.
  revert m. induction l as [|t l IH]; intros m; simpl.
  - rewrite app_nil_r. by destruct m.
  - rewrite IH. simpl. by rewrite <- app_assoc.
Qed.

Lemma Start_step_spec (m : Manager) (entry : MCPServerConfig * Child) :
  Manager.Start_step m entry
  = {| clients := add_client (clients m) entry;
       registry := registry m ++ wrappers_of entry;
       cfg := cfg m |}.
Proof.
  unfold Manager.Start_step, add_client, wrappers_of, connected.
  destruct entry as [serverCfg os]. simpl.
  destruct (cfg_Enabled serverCfg); simpl.
  - destruct (Manager.connectServer serverCfg os) as [err|client].
    + rewrite app_nil_r. by destruct m.
    + by rewrite registerTools_spec.
  - rewrite app_nil_r. by destruct m.
Qed.

Lemma Start_loop_spec (l : list (MCPServerConfig * Child)) (m : Manager) :
  fold_left Manager.Start_step l m
  = {| clients := fold_left add_client l (clients m);
       registry := registry m ++ flat_map wrappers_of l;
       cfg := cfg m |}.
Proof.
  revert m. induction l as [|e l IH]; intros m; simpl.
  - rewrite app_nil_r. by destruct m.
  - rewrite IH, Start_step_spec. simpl. by rewrite <- app_assoc.
Qed.

(** An entry whose name no later entry has keeps what [Start] stored for
    it. *)
Lemma add_client_other (l : list (MCPServerConfig * Child)) (cl : gmap string Client)
  (name : string) :
  ~ In name (map (fun e => cfg_Name e.1) l) ->
  fold_left add_client l cl !! name = cl !! name.
Proof.
  revert cl. induction l as [|e l IH]; intros cl Hn; simpl; [done|].
  simpl in Hn. rewrite IH by tauto. unfold add_client.
  destruct (connected e); [|done]. apply lookup_insert_ne. tauto.
Qed.

Lemma add_client_lookup (l : list (MCPServerConfig * Child)) (cl : gmap string Client)
  (entry : MCPServerConfig * Child) :
  NoDup (map (fun e => cfg_Name e.1) l) -> In entry l ->
  fold_left add_client l cl !! cfg_Name entry.1
  = match connected entry with
    | Some client => Some client
    | None => cl !! cfg_Name entry.1
    end.
Proof.
  revert cl. induction l as [|e l IH]; intros cl Hnd Hin; simpl; [done|].
  simpl in Hnd. apply NoDup_cons in Hnd as [Hfresh Hnd]. rewrite list_elem_of_In in Hfresh.
  destruct Hin as [->|Hin].
  - rewrite add_client_other by done. unfold add_client.
    destruct (connected entry); [apply lookup_insert_eq|done].
  - rewrite (IH _ Hnd Hin). destruct (connected entry); [done|].
    unfold add_client. destruct (connected e); [|done].
    apply lookup_insert_ne. intros Heq. apply Hfresh. rewrite Heq.
    apply in_map_iff. by exists entry.
Qed.

Lemma add_client_dom (l : list (MCPServerConfig * Child)) (cl : gmap string Client)
  (name : string) :
  is_Some (fold_left add_client l cl !! name) ->
  is_Some (cl !! name) \/
  exists entry, In entry l /\ cfg_Name entry.1 = name /\ is_Some (connected entry).
Proof.
  revert cl. induction l as [|e l IH]; intros cl H; simpl in *; [by left|].
  apply IH in H as [H|(entry & Hin & Hname & Hc)].
  - unfold add_client in H. destruct (connected e) as [client|] eqn:Hc; [|by left].
    destruct (decide (cfg_Name e.1 = name)) as [Heq|Hne].
    + right. exists e. split; [by left|]. split; [done|]. by rewrite Hc.
    + rewrite lookup_insert_ne in H by done. by left.
  - right. exists entry. split; [by right|done].
Qed.

Lemma add_client_size (l : list (MCPServerConfig * Child)) (cl : gmap string Client) :
  NoDup (map (fun e => cfg_Name e.1) l) ->
  (forall e, In e l -> cl !! cfg_Name e.1 = None) ->
  size (fold_left add_client l cl)
  = (size cl + length (List.filter (fun e => bool_decide (is_Some (connected e))) l))%nat.
Proof.
  revert cl. induction l as [|e l IH]; intros cl Hnd Hcl; simpl; [lia|].
  simpl in Hnd. apply NoDup_cons in Hnd as [Hfresh Hnd]. rewrite list_elem_of_In in Hfresh.
  rewrite IH; [|done|].
  - unfold add_client. destruct (connected e) as [client|] eqn:Hc; simpl.
    + rewrite map_size_insert_None by (apply Hcl; by left). lia.
    + lia.
  - intros e' Hin. unfold add_client. destruct (connected e); [|apply Hcl; by right].
    rewrite lookup_insert_ne; [apply Hcl; by right|].
    intros Heq. apply Hfresh. rewrite Heq. apply in_map_iff. by exists e'.
Qed.

Lemma enabled_split (l : list (MCPServerConfig * Child)) :
  length (List.filter enabled l)
  = (length (List.filter failed l)
     + length (List.filter (fun e => bool_decide (is_Some (connected e))) l))%nat.
Proof.
  induction l as [|e l IH]; simpl; [done|].
  unfold enabled, failed, connected in *.
  destruct (cfg_Enabled e.1); simpl.
  - destruct (Manager.connectServer e.1 e.2); simpl; lia.
  - done.
Qed.

(** *** Calls that return *)

(** What a call returns in [Blocking], the call of the same name returns. *)
Lemma Receive_returns (t t' : STDIOTransport) (r : error + JSONRPCResponse) :
  Blocking.STDIOTransport.Receive t = (t', Returns r) -> STDIOTransport.Receive t = (t', r).
Proof.
  unfold Blocking.STDIOTransport.Receive, STDIOTransport.Receive. intros H.
  repeat case_match; simplify_eq; done.
Qed.

Lemma Close_returns (t t' : STDIOTransport) (err : option error) :
  Blocking.STDIOTransport.Close t = (t', Returns err) -> STDIOTransport.Close t = (t', err).
Proof.
  unfold Blocking.STDIOTransport.Close, STDIOTransport.Close. intros H.
  repeat case_match; simplify_eq; done.
Qed.

Lemma Initialize_returns (c c' : Client) (err : option error) :
  Blocking.Client.Initialize c = (c', Returns err) -> Client.Initialize c = (c', err).
Proof.
  unfold Blocking.Client.Initialize, Client.Initialize. intros H.
  destruct (STDIOTransport.Send _ _) as [t [e|]]; [by simplify_eq|].
  destruct (Blocking.STDIOTransport.Receive _) as [t2 [r|]] eqn:Hr; [|by simplify_eq].
  rewrite (Receive_returns _ _ _ Hr).
  repeat case_match; simplify_eq; done.
Qed.

Lemma ListTools_returns (c c' : Client) (r : error + list MCPTool) :
  Blocking.Client.ListTools c = (c', Returns r) -> Client.ListTools c = (c', r).
Proof.
  unfold Blocking.Client.ListTools, Client.ListTools. intros H.
  destruct (negb (initialized c)); [by simplify_eq|].
  destruct (STDIOTransport.Send _ _) as [t [e|]]; [by simplify_eq|].
  destruct (Blocking.STDIOTransport.Receive _) as [t2 [r2|]] eqn:Hr; [|by simplify_eq].
  rewrite (Receive_returns _ _ _ Hr).
  repeat case_match; simplify_eq; done.
Qed.

Lemma connectServer_returns (serverCfg : MCPServerConfig) (os : Child) (r : error + Client) :
  Blocking.Manager.connectServer serverCfg os = Returns r ->
  Manager.connectServer serverCfg os = r.
Proof.
  unfold Blocking.Manager.connectServer, Manager.connectServer. intros H.
  destruct (NewClient os _) as [err|c0]; [by simplify_eq|].
  destruct (Client.Connect c0) as [c1 [e1|]]; [by simplify_eq|].
  destruct (Blocking.Client.Initialize c1) as [c2 [e2|]] eqn:Hi; [|discriminate H].
  rewrite (Initialize_returns _ _ _ Hi). destruct e2 as [e2|].
  - destruct (Blocking.Client.Close c2) as [c3 [e3|]]; [|discriminate H].
    destruct (Client.Close c2). by simplify_eq.
  - destruct (Blocking.Client.ListTools c2) as [c3 [r3|]] eqn:Hl; [|discriminate H].
    rewrite (ListTools_returns _ _ _ Hl). by simplify_eq.
Qed.

Lemma attempt_returns (entry : MCPServerConfig * Child) :
  hangs entry = false -> attempt entry = Returns (connected entry).
Proof.
  unfold hangs, attempt, connected. destruct (cfg_Enabled entry.1); [|done].
  destruct (Blocking.Manager.connectServer entry.1 entry.2) as [r|] eqn:Hr; [|done].
  rewrite (connectServer_returns _ _ _ Hr). by destruct r.
Qed.

Lemma session_of_returns (entry : MCPServerConfig * Child) :
  hangs entry = false ->
  session_of entry = connected entry /\ gave_up entry = failed entry /\
  adapters_of entry = wrappers_of entry.
Proof.
  intros H. unfold adapters_of, wrappers_of, gave_up, failed, session_of.
  rewrite (attempt_returns entry H). unfold connected.
  destruct (cfg_Enabled entry.1); [|done].
  by destruct (Manager.connectServer entry.1 entry.2).
Qed.

Lemma Start_loop_returns (l : list (MCPServerConfig * Child)) (m : Manager) :
  Forall (fun e => hangs e = false) l ->
  Blocking.Manager.Start_loop l m = (fold_left Manager.Start_step l m, Returns None).
Proof.
  revert m. induction l as [|[serverCfg os] l IH]; intros m Hl; [done|].
  apply Forall_cons in Hl as [He Hl]. cbn [Blocking.Manager.Start_loop fold_left].
  unfold Manager.Start_step. unfold hangs, attempt in He. cbn [fst snd] in He.
  destruct (cfg_Enabled serverCfg); cbn [negb]; [|by apply IH].
  destruct (Blocking.Manager.connectServer serverCfg os) as [r|] eqn:Hr; [|done].
  rewrite (connectServer_returns _ _ _ Hr). destruct r; by apply IH.
Qed.

(** [Start] goes no further than the first [connectServer] that does not
    return. *)
Lemma Start_loop_blocks (before after : list (MCPServerConfig * Child))
  (stuck : MCPServerConfig * Child) (m : Manager) :
  Forall (fun e => hangs e = false) before -> hangs stuck = true ->
  Blocking.Manager.Start_loop (before ++ stuck :: after) m
  = (fold_left Manager.Start_step before m, Blocks).
Proof.
  intros Hbefore Hstuck. revert m.
  induction before as [|[serverCfg os] l IH]; intros m.
  - destruct stuck as [serverCfg os]. cbn [app Blocking.Manager.Start_loop fold_left].
    unfold hangs, attempt in Hstuck. cbn [fst snd] in Hstuck.
    destruct (cfg_Enabled serverCfg); [|done]. cbn [negb].
    by destruct (Blocking.Manager.connectServer serverCfg os) as [[?|?]|].
  - apply Forall_cons in Hbefore as [He Hl].
    cbn [app Blocking.Manager.Start_loop fold_left].
    unfold Manager.Start_step. unfold hangs, attempt in He. cbn [fst snd] in He.
    destruct (cfg_Enabled serverCfg); cbn [negb]; [|by apply IH].
    destruct (Blocking.Manager.connectServer serverCfg os) as [r|] eqn:Hr; [|done].
    rewrite (connectServer_returns _ _ _ Hr). destruct r; by apply IH.
Qed.

Lemma filter_ext_Forall {A} (f g : A -> bool) (P : A -> Prop) (l : list A) :
  (forall x, P x -> f x = g x) -> Forall P l -> List.filter f l = List.filter g l.
Proof.
  intros Hfg. induction 1 as [|x l Hx Hl IH]; [done|]. simpl. by rewrite (Hfg x Hx), IH.
Qed.

Lemma flat_map_ext_Forall {A B} (f g : A -> list B) (P : A -> Prop) (l : list A) :
  (forall x, P x -> f x = g x) -> Forall P l -> flat_map f l = flat_map g l.
Proof.
  intros Hfg. induction 1 as [|x l Hx Hl IH]; [done|]. simpl. by rewrite (Hfg x Hx), IH.
Qed.

(** C6, as the code has it.  [Start] goes through the fleet in order, one
    [connectServer] after the other, and waits for each with no bound.

    When every [connectServer] returns, for a fleet whose server names are
    distinct, with N enabled descriptors of which k return an error:
    [Start] returns nil; k <= N and exactly N - k sessions, and N - k names,
    are registered; the manager has under the name of each descriptor the
    session of that descriptor when it is enabled and succeeded and nothing
    otherwise, and lists no other name; and the tool registry receives,
    after what it held, the wrappers of all the tools of every server that
    succeeded, in the order of the fleet: a failure that is returned takes
    nothing from the others.

    When the [connectServer] of one descriptor does not return, because its
    server never answers or does not exit after a failed handshake, [Start]
    does not return either: it stays with the sessions and wrappers of the
    descriptors before that one, and no descriptor after it is connected or
    registered. *)
Theorem Start_isolates_only_returned_failures (toolRegistry : list ToolWrapper) :
  (forall fleet : list (MCPServerConfig * Child),
     NoDup (map (fun e => cfg_Name e.1) fleet) ->
     Forall (fun e => hangs e = false) fleet ->
     let N := length (List.filter enabled fleet) in
     let k := length (List.filter gave_up fleet) in
     let m := (Blocking.Manager.Start (NewManager fleet toolRegistry)).1 in
     (Blocking.Manager.Start (NewManager fleet toolRegistry)).2 = Returns None /\
     (k <= N)%nat /\
     size (clients m) = (N - k)%nat /\
     length (Manager.ListClients m) = (N - k)%nat /\
     (forall entry, In entry fleet ->
        Manager.GetClient m (cfg_Name entry.1) = session_of entry) /\
     (forall name, In name (Manager.ListClients m) ->
        exists entry, In entry fleet /\ cfg_Name entry.1 = name /\
                      enabled entry = true /\ gave_up entry = false) /\
     registry m = toolRegistry ++ flat_map adapters_of fleet /\
     (forall entry client tool,
        In entry fleet -> session_of entry = Some client ->
        In tool (Client.GetTools client) ->
        In (NewToolWrapper client tool) (registry m))) /\
  (forall (before after : list (MCPServerConfig * Child)) (stuck : MCPServerConfig * Child),
     Forall (fun e => hangs e = false) before ->
     hangs stuck = true ->
     let st := Blocking.Manager.Start (NewManager (before ++ stuck :: after) toolRegistry) in
     st.2 = Blocks /\
     clients st.1 = clients (Blocking.Manager.Start (NewManager before toolRegistry)).1 /\
     registry st.1 = toolRegistry ++ flat_map adapters_of before /\
     (forall peer, In peer after ->
        ~ In (cfg_Name peer.1) (map (fun e => cfg_Name e.1) before) ->
        clients st.1 !! cfg_Name peer.1 = None)).
Proof.
  split.
  - intros fleet Hnames Hreturn N k m.
    assert (forall e, hangs e = false -> gave_up e = failed e) as Hgave
      by (intros e He; apply (session_of_returns e He)).
    assert (forall e, hangs e = false -> adapters_of e = wrappers_of e) as Hadapters
      by (intros e He; apply (session_of_returns e He)).
    assert (forall e, In e fleet -> session_of e = connected e) as Hsession.
    { intros e Hin. rewrite List.Forall_forall in Hreturn.
      apply (session_of_returns e (Hreturn e Hin)). }
    assert (Blocking.Manager.Start (NewManager fleet toolRegistry)
            = ({| clients := fold_left add_client fleet ∅;
                  registry := toolRegistry ++ flat_map wrappers_of fleet;
                  cfg := fleet |}, Returns None)) as HStart.
    { unfold Blocking.Manager.Start, NewManager. cbn [cfg].
      by rewrite (Start_loop_returns _ _ Hreturn), Start_loop_spec. }
    subst m k. rewrite HStart. cbn [fst snd].
    rewrite (filter_ext_Forall gave_up failed _ fleet Hgave Hreturn).
    rewrite (flat_map_ext_Forall adapters_of wrappers_of _ fleet Hadapters Hreturn).
    pose proof (enabled_split fleet) as Hsplit. fold N in Hsplit.
    assert (size (fold_left add_client fleet ∅)
            = (N - length (List.filter failed fleet))%nat) as Hsize.
    { rewrite add_client_size; [|done|intros; apply lookup_empty].
      rewrite map_size_empty. lia. }
    split; [reflexivity|]. split; [lia|]. split; [done|].
    split.
    { unfold Manager.ListClients. cbn [clients]. rewrite <- Hsize, <- size_dom. reflexivity. }
    split.
    { intros entry Hin. unfold Manager.GetClient. cbn [clients].
      rewrite (Hsession entry Hin), (add_client_lookup fleet ∅ entry Hnames Hin).
      destruct (connected entry); [done|apply lookup_empty]. }
    split; [|split; [done|]].
    2: { intros entry client tool Hin Hc Htool. cbn [registry].
         rewrite (Hsession entry Hin) in Hc.
         apply in_or_app. right. apply in_flat_map. exists entry. split; [done|].
         unfold wrappers_of. rewrite Hc. by apply in_map. }
    intros name Hin. unfold Manager.ListClients in Hin. cbn [clients] in Hin.
    apply list_elem_of_In, elem_of_elements, elem_of_dom in Hin.
    apply add_client_dom in Hin as [Hin|(entry & Hin & Hname & Hc)].
    + rewrite lookup_empty in Hin. by destruct Hin.
    + exists entry. split; [done|]. split; [done|].
      rewrite List.Forall_forall in Hreturn. rewrite (Hgave entry (Hreturn entry Hin)).
      unfold enabled, failed, connected in *.
      destruct (cfg_Enabled entry.1); [|by destruct Hc].
      destruct (Manager.connectServer entry.1 entry.2); [by destruct Hc|done].
  - intros before after stuck Hbefore Hstuck st.
    assert (forall e, hangs e = false -> adapters_of e = wrappers_of e) as Hadapters
      by (intros e He; apply (session_of_returns e He)).
    assert (st = ({| clients := fold_left add_client before ∅;
                     registry := toolRegistry ++ flat_map wrappers_of before;
                     cfg := before ++ stuck :: after |}, Blocks)) as Hst.
    { subst st. unfold Blocking.Manager.Start, NewManager. cbn [cfg].
      by rewrite (Start_loop_blocks _ _ _ _ Hbefore Hstuck), Start_loop_spec. }
    rewrite Hst. cbn [fst snd clients registry].
    rewrite (flat_map_ext_Forall adapters_of wrappers_of _ before Hadapters Hbefore).
    split; [done|]. split.
    { unfold Blocking.Manager.Start, NewManager. cbn [cfg].
      by rewrite (Start_loop_returns _ _ Hbefore), Start_loop_spec. }
    split; [done|].
    intros peer Hpeer Hfresh.
    rewrite (add_client_other before ∅ _ Hfresh). apply lookup_empty.
Qed.

(** Scenario E returns with two of its three enabled servers.  With a
    server in the middle that never answers, [Start] does not return: the
    tools of the server before it are registered, and the server after it,
    which connects when it is asked, is never asked.  A server that answers
    the handshake with an error and does not exit when its stdin is closed
    stops [Start] in the same way. *)
Lemma Start_isolates_only_returned_failures_witness :
  let m := Blocking.Manager.Start (NewManager three_servers []) in
  let st := Blocking.Manager.Start (NewManager fleet_with_silent_server []) in
  let db := (server_config "db" "echo-srv" true,
             child_printing [initialize_response; tools_response]) in
  (m.2 = Returns None /\ size (clients m.1) = 2%nat) /\
  (st.2 = Blocks /\
   map ToolWrapper.Name (registry st.1) = ["mcp_fs_read_file"; "mcp_fs_write_file"] /\
   clients st.1 !! "db" = None /\
   hangs db = false /\ is_Some (session_of db)) /\
  hangs (server_config "slow" "slow-srv" true, child_lingering) = true.
Proof.
  intros m st db.
  destruct (Start_isolates_only_returned_failures []) as [Hreturn Hblock].
  split; [|split].
  - assert (NoDup (map (fun e => cfg_Name e.1) three_servers)) as Hnames.
    { apply NoDup_ListNoDup. repeat constructor; simpl; intuition discriminate. }
    assert (Forall (fun e => hangs e = false) three_servers) as Hall.
    { repeat apply List.Forall_cons; try apply List.Forall_nil; vm_compute; reflexivity. }
    destruct (Hreturn three_servers Hnames Hall) as (Hnil & _ & Hsize & _).
    split; [exact Hnil|]. etrans; [exact Hsize|]. vm_compute. reflexivity.
  - assert (Forall (fun e => hangs e = false)
              [(server_config "fs" "echo-srv" true,
                child_printing [initialize_response; tools_response])]) as Hfs.
    { repeat apply List.Forall_cons; try apply List.Forall_nil; vm_compute; reflexivity. }
    assert (hangs (server_config "mute" "mute-srv" true, child_silent) = true) as Hmute
      by (vm_compute; reflexivity).
    destruct (Hblock _ [db] _ Hfs Hmute) as (Hst & _ & _ & Hpeer).
    split; [exact Hst|]. split; [vm_compute; reflexivity|].
    split.
    { refine (Hpeer db (or_introl eq_refl) _). simpl. intuition discriminate. }
    split; [vm_compute; reflexivity|]. vm_compute. by eexists.
  - vm_compute. reflexivity.
Defined.

(* ================================================================== *)
(** * Part III. Further properties of the code                          *)
(* ================================================================== *)

(** ** Framing *)

Lemma count_frames_app (a b : list event) :
  count_frames (a ++ b) = (count_frames a + count_frames b)%nat.
Proof. induction a as [|e a IH]; [done|]. destruct e; simpl; by rewrite ?IH. Qed.

Lemma count_newlines_app (a b : list event) :
  count_newlines (a ++ b) = (count_newlines a + count_newlines b)%nat.
Proof. induction a as [|e a IH]; [done|]. destruct e; simpl; by rewrite ?IH. Qed.

Lemma framed_counts (tr : list event) : framed tr -> count_frames tr = count_newlines tr.
Proof.
  induction 1; rewrite ?count_frames_app, ?count_newlines_app; simpl; lia.
Qed.

Lemma Start_framed (t t' : STDIOTransport) (err : option error) :
  well_framed t -> STDIOTransport.Start t = (t', err) -> well_framed t'.
Proof.
  unfold STDIOTransport.Start, well_framed, writes_succeed. intros [Hw Hf] H.
  repeat case_match; simplify_eq; simpl; split; try done. by constructor.
Qed.

Lemma Send_framed (t t' : STDIOTransport) (req : Frame) (err : option error) :
  well_framed t -> STDIOTransport.Send t req = (t', err) -> well_framed t'.
Proof.
  unfold STDIOTransport.Send, well_framed, writes_succeed. intros [Hw Hf] H.
  repeat case_match; simplify_eq; simpl; try (split; done).
  all: try match goal with E : writes _ = _ |- _ => rewrite E end.
  all: inversion Hw; simplify_eq.
  all: split; [done|]; rewrite <- app_assoc; by apply framed_frame.
Qed.

Lemma Receive_framed (t t' : STDIOTransport) (r : error + JSONRPCResponse) :
  well_framed t -> STDIOTransport.Receive t = (t', r) -> well_framed t'.
Proof.
  unfold STDIOTransport.Receive, well_framed, writes_succeed. intros [Hw Hf] H.
  repeat case_match; simplify_eq; simpl; done.
Qed.

Lemma Close_framed (t t' : STDIOTransport) (err : option error) :
  well_framed t -> STDIOTransport.Close t = (t', err) -> well_framed t'.
Proof.
  unfold STDIOTransport.Close, well_framed, writes_succeed. intros [Hw Hf] H.
  repeat case_match; simplify_eq; simpl; split; try done; by repeat constructor.
Qed.

Ltac framed_facts :=
  repeat match goal with
    | W : well_framed ?t, H : STDIOTransport.Send ?t _ = (_, _) |- _ =>
        pose proof (Send_framed _ _ _ _ W H); clear H
    | W : well_framed ?t, H : STDIOTransport.Receive ?t = (_, _) |- _ =>
        pose proof (Receive_framed _ _ _ W H); clear H
    | W : well_framed ?t, H : STDIOTransport.Close ?t = (_, _) |- _ =>
        pose proof (Close_framed _ _ _ W H); clear H
    | W : well_framed ?t, H : STDIOTransport.Start ?t = (_, _) |- _ =>
        pose proof (Start_framed _ _ _ W H); clear H
    end.

Lemma perform_framed (c : Client) (o : operation) :
  well_framed (transport c) -> well_framed (transport (perform c o)).
Proof.
  intros Hw. destruct o; simpl.
  - unfold Client.Connect. repeat case_match; simplify_eq; simpl in *; framed_facts; done.
  - unfold Client.Initialize. repeat case_match; simplify_eq; simpl in *; framed_facts; done.
  - unfold Client.ListTools. repeat case_match; simplify_eq; simpl in *; framed_facts; done.
  - unfold Client.CallTool. repeat case_match; simplify_eq; simpl in *; framed_facts; done.
  - unfold Client.Shutdown. repeat case_match; simplify_eq; simpl in *; framed_facts; done.
  - unfold Client.Close. repeat case_match; simplify_eq; simpl in *; framed_facts; done.
Qed.

(** X2.  When no write to the child's stdin fails, what a session has
    written after any sequence of operations is a sequence of complete
    frames: every frame is followed at once by its newline, so there are as
    many newlines as frames. *)
Theorem frames_end_with_newline
  (os : Child) (server : MCPServer) (c0 : Client) (ops : list operation)
  (Hnew : NewClient os server = inr c0)
  (Hwrites : Forall (fun w => w = WriteOk) (writes os)) :
  framed (trace (transport (run c0 ops))) /\
  count_frames (trace (transport (run c0 ops)))
  = count_newlines (trace (transport (run c0 ops))).
Proof.
  apply NewClient_inv in Hnew. subst c0.
  assert (well_framed (transport (fresh_client os server))) as Hw.
  { split; [exact Hwrites|constructor]. }
  revert Hw. generalize (fresh_client os server). intros c Hw.
  assert (well_framed (transport (run c ops))) as [_ Hf].
  { revert c Hw. induction ops as [|o ops IH]; intros c Hw; simpl; [done|].
    apply IH. by apply perform_framed. }
  split; [done|by apply framed_counts].
Qed.

Lemma frames_end_with_newline_witness :
  let os := child_printing [initialize_response; tools_response] in
  let ops := [OpConnect; OpInitialize; OpListTools; OpClose] in
  count_frames (trace (transport (run (fresh_client os fs_server) ops))) = 3%nat /\
  count_frames (trace (transport (run (fresh_client os fs_server) ops)))
  = count_newlines (trace (transport (run (fresh_client os fs_server) ops))).
Proof.
  intros os ops. split; [vm_compute; reflexivity|].
  exact (proj2 (frames_end_with_newline os fs_server (fresh_client os fs_server) ops
                  eq_refl (List.Forall_nil _))).
Defined.

(** ** The handshake comes first *)

Lemma frame_methods_app (a b : list event) :
  frame_methods (a ++ b) = frame_methods a ++ frame_methods b.
Proof. induction a as [|e a IH]; [done|]. destruct e; simpl; by rewrite ?IH. Qed.

Lemma Send_methods (t t' : STDIOTransport) (req : Frame) (err : option error) :
  STDIOTransport.Send t req = (t', err) ->
  (frame_methods (trace t') = frame_methods (trace t) /\ err <> None) \/
  frame_methods (trace t') = frame_methods (trace t) ++ [frame_method req].
Proof.
  unfold STDIOTransport.Send. intros H.
  repeat case_match; simplify_eq; simpl; rewrite ?frame_methods_app; simpl;
    rewrite ?app_nil_r, <- ?app_assoc; auto.
Qed.

Lemma Receive_methods (t t' : STDIOTransport) (r : error + JSONRPCResponse) :
  STDIOTransport.Receive t = (t', r) -> frame_methods (trace t') = frame_methods (trace t).
Proof. intros H. by rewrite (Receive_trace _ _ _ H). Qed.

Lemma Close_methods (t t' : STDIOTransport) (err : option error) :
  STDIOTransport.Close t = (t', err) -> frame_methods (trace t') = frame_methods (trace t).
Proof.
  unfold STDIOTransport.Close. intros H.
  repeat case_match; simplify_eq; simpl; rewrite ?frame_methods_app; simpl;
    by rewrite ?app_nil_r.
Qed.

Lemma Start_methods (t t' : STDIOTransport) (err : option error) :
  STDIOTransport.Start t = (t', err) -> frame_methods (trace t') = frame_methods (trace t).
Proof.
  unfold STDIOTransport.Start. intros H.
  repeat case_match; simplify_eq; simpl; rewrite ?frame_methods_app; simpl;
    by rewrite ?app_nil_r.
Qed.

Ltac methods_facts :=
  repeat match goal with
    | H : STDIOTransport.Send _ _ = (_, _) |- _ =>
        apply Send_methods in H; simpl in H
    | H : STDIOTransport.Receive _ = (_, _) |- _ =>
        apply Receive_methods in H; simpl in H
    | H : STDIOTransport.Close _ = (_, _) |- _ =>
        apply Close_methods in H; simpl in H
    | H : STDIOTransport.Start _ = (_, _) |- _ =>
        apply Start_methods in H; simpl in H
    end.

Ltac methods_done :=
  repeat match goal with
    | H : _ /\ _ |- _ => destruct H
    | H : _ \/ _ |- _ => destruct H
    | H : frame_methods (trace _) = _ ++ _ |- _ => rewrite H in *; clear H
    | H : frame_methods (trace _) = frame_methods (trace _) |- _ => rewrite H in *; clear H
    end;
  try done; try congruence;
  match goal with
  | Hi : initialized ?c = _ |- _ =>
      destruct (frame_methods (trace (transport c)));
      simpl in *; split; intros; simplify_eq; auto; try congruence
  | |- _ =>
      match goal with
      | |- context [frame_methods (trace (transport ?c))] =>
          destruct (frame_methods (trace (transport c)));
          simpl in *; split; intros; simplify_eq; auto; try congruence
      end
  end.

Lemma perform_handshake_first (c : Client) (o : operation) :
  handshake_first c -> handshake_first (perform c o).
Proof.
  unfold handshake_first. intros [Hnone Hhead].
  destruct (initialized c) eqn:Hi; destruct o; simpl.
  all: unfold Client.Connect, Client.Initialize, Client.ListTools, Client.CallTool,
         Client.Shutdown, Client.Close; rewrite ?Hi; cbn [negb].
  all: repeat case_match; simplify_eq; methods_facts;
         cbn [fst snd transport initialized set_transport set_initialized
              set_capabilities set_tools incr_requestID] in *.
  all: try (split; assumption).
  all: methods_done.
  all: exfalso; match goal with H : [] = [] -> _ |- _ => by specialize (H eq_refl) end.
Qed.

Lemma run_handshake_first (c : Client) (ops : list operation) :
  handshake_first c -> handshake_first (run c ops).
Proof.
  revert c. induction ops as [|o ops IH]; intros c Hc; simpl; [done|].
  apply IH. by apply perform_handshake_first.
Qed.

(** X3.  Whatever operations are applied to a client made by [NewClient],
    and in whatever order, the first frame it writes to the server is an
    initialize request: ListTools, CallTool and Shutdown write nothing
    before a successful handshake.  A client whose flag is set has written
    at least one frame. *)
Theorem handshake_comes_first
  (os : Child) (server : MCPServer) (c0 : Client) (ops : list operation)
  (Hnew : NewClient os server = inr c0) :
  (forall m, head (frame_methods (trace (transport (run c0 ops)))) = Some m ->
             m = MethodInitialize) /\
  (initialized (run c0 ops) = true ->
   frame_methods (trace (transport (run c0 ops))) <> []).
Proof.
  apply NewClient_inv in Hnew. subst c0.
  destruct (run_handshake_first (fresh_client os server) ops) as [Hnone Hhead].
  { split; [done|]. simpl. intros m Hm. discriminate Hm. }
  split; [exact Hhead|].
  intros Hi Hnil. apply Hnone in Hnil. congruence.
Qed.

Lemma handshake_comes_first_witness :
  let os := child_printing [initialize_response; tools_response] in
  let ops := [OpListTools; OpConnect; OpCallTool "read_file" ∅; OpInitialize; OpListTools] in
  frame_methods (trace (transport (run (fresh_client os fs_server) ops)))
  = [MethodInitialize; MethodInitialized; MethodListTools] /\
  (forall m, head (frame_methods (trace (transport (run (fresh_client os fs_server) ops))))
             = Some m -> m = MethodInitialize).
Proof.
  intros os ops. split; [vm_compute; reflexivity|].
  exact (proj1 (handshake_comes_first os fs_server (fresh_client os fs_server) ops eq_refl)).
Defined.

(** ** Round trips of the three requests *)

Lemma unmarshal_response_frame (version : option string) (id : Z) (result : option json)
  (err : option (Z * string)) :
  in_int64 id = true ->
  from_option (fun e => in_int64 e.1) true err = true ->
  unmarshal (response_frame version id result err) (zero : JSONRPCResponse)
  = ({| JSONRPC := default "" version; ID := id;
        Result := from_option Raw RawEmpty result;
        Error := (fun e => {| Code := e.1; Message := e.2; error_Data := RawEmpty |})
                   <$> err |},
     None).
Proof.
  intros Hid Hcode.
  destruct version as [v|], result as [r|], err as [[code msg]|]; simpl in Hcode |- *.
  all: cbv beta iota zeta delta -[in_int64]; rewrite ?Hid, ?Hcode; reflexivity.
Qed.

Lemma Receive_line (t : STDIOTransport) (line : json) (rest : list read_event)
  (resp : JSONRPCResponse) :
  closed t = false ->
  stdout (child t) = ReadLine line :: rest ->
  unmarshal line (zero : JSONRPCResponse) = (resp, None) ->
  STDIOTransport.Receive t = (set_stdout rest t, inr resp).
Proof.
  intros Hc Hout Hline. unfold STDIOTransport.Receive. by rewrite Hc, Hout, Hline.
Qed.

(** The first two steps of a request: the frame is written, the next line
    is read and decoded. *)
Ltac round_trip Hopen Hwrite Hread Hline :=
  match goal with
  | |- context [STDIOTransport.Send ?t ?r] =>
      let t' := fresh "t'" in
      let Hs := fresh "Hs" in
      let Hc' := fresh "Hc'" in
      let Hout' := fresh "Hout'" in
      let Htr := fresh "Htr" in
      destruct (Send_ok t r Hopen Hwrite) as (t' & Hs & Hc' & Hout' & Htr);
      rewrite Hs; clear Hs; cbn [transport set_transport];
      rewrite (Receive_line t' _ _ _ Hc' (eq_trans Hout' Hread) Hline)
  end.

(** X4.  A tool call takes the next line the server prints as its answer,
    whatever the id and the version of that line are: the id of the response
    is decoded and never compared with the id of the request.  With a
    string as result the call returns that string, the request went out
    under the next id, and the line is consumed. *)
Theorem CallTool_ignores_response_id
  (c : Client) (name : string) (args : gmap string iface)
  (version : option string) (id : Z) (s : string) (rest : list read_event)
  (Hinit : initialized c = true)
  (Hopen : closed (transport c) = false)
  (Hwrite : next_write_ok (transport c) = true)
  (Hid : in_int64 id = true)
  (Hread : stdout (child (transport c))
           = ReadLine (response_frame version id (Some (JString s)) None) :: rest) :
  (Client.CallTool c name args).2 = inr s /\
  wire_ids (Client.CallTool c name args).1 = wire_ids c ++ [wrap64 (requestID c + 1)] /\
  stdout (child (transport (Client.CallTool c name args).1)) = rest.
Proof.
  pose proof (unmarshal_response_frame version id (Some (JString s)) None Hid eq_refl)
    as Hline.
  unfold Client.CallTool. rewrite Hinit. cbn [negb].
  round_trip Hopen Hwrite Hread Hline.
  cbn [Error Result from_option fmap option_fmap option_map].
  change (unmarshalJSON (Raw (JString s)) (zero : ToolCallResult))
    with ({| Content := [CText {| text_Type := "text"; Text := s |}]; IsError := false |},
          @None error).
  cbn [fst snd transport set_transport]. split; [reflexivity|].
  unfold wire_ids. cbn [transport set_transport set_stdout trace]. rewrite Htr.
  split; [|reflexivity].
  rewrite request_ids_app. simpl. reflexivity.
Qed.

Lemma CallTool_ignores_response_id_witness :
  let line := response_frame (Some "2.0") 40 (Some (JString "ok")) None in
  let c := session_after_handshake [line] in
  requestID c = 1 /\
  (Client.CallTool c "read_file" ∅).2 = inr "ok" /\
  wire_ids (Client.CallTool c "read_file" ∅).1 = wire_ids c ++ [wrap64 (requestID c + 1)].
Proof.
  intros line c. split; [reflexivity|].
  assert (initialized c = true) as Hinit by (vm_compute; reflexivity).
  assert (closed (transport c) = false) as Hopen by (vm_compute; reflexivity).
  assert (next_write_ok (transport c) = true) as Hwrite by (vm_compute; reflexivity).
  assert (stdout (child (transport c)) = [ReadLine line]) as Hread
    by (vm_compute; reflexivity).
  pose proof (CallTool_ignores_response_id c "read_file" ∅ (Some "2.0") 40 "ok" []
                Hinit Hopen Hwrite eq_refl Hread) as (H1 & H2 & _).
  split; [exact H1|exact H2].
Defined.

(** X5.  A response that has neither a result nor an error is a decoding
    failure for each of the three requests: the absent result is an empty
    raw message, and decoding it reports the end of the input.  The
    handshake then leaves the flag as it was and the tool list leaves the
    cache as it was. *)
Theorem empty_response_fails_decoding
  (c : Client) (name : string) (args : gmap string iface)
  (version : option string) (id : Z) (rest : list read_event)
  (Hopen : closed (transport c) = false)
  (Hwrite : next_write_ok (transport c) = true)
  (Hid : in_int64 id = true)
  (Hread : stdout (child (transport c))
           = ReadLine (response_frame version id None None) :: rest) :
  (Client.Initialize c).2
  = Some "failed to unmarshal initialize result: unexpected end of JSON input" /\
  initialized (Client.Initialize c).1 = initialized c /\
  (initialized c = true ->
   (Client.ListTools c).2
   = inl "failed to unmarshal list_tools result: unexpected end of JSON input" /\
   Client.GetTools (Client.ListTools c).1 = Client.GetTools c /\
   (Client.CallTool c name args).2
   = inl "failed to unmarshal tools/call result: unexpected end of JSON input").
Proof.
  pose proof (unmarshal_response_frame version id None None Hid eq_refl) as Hline.
  split; [|split; [|intros Hinit; split; [|split]]].
  - unfold Client.Initialize. cbn zeta. round_trip Hopen Hwrite Hread Hline. reflexivity.
  - unfold Client.Initialize. cbn zeta. round_trip Hopen Hwrite Hread Hline. reflexivity.
  - unfold Client.ListTools. rewrite Hinit. cbn [negb].
    round_trip Hopen Hwrite Hread Hline. reflexivity.
  - unfold Client.ListTools. rewrite Hinit. cbn [negb].
    round_trip Hopen Hwrite Hread Hline. reflexivity.
  - unfold Client.CallTool. rewrite Hinit. cbn [negb].
    round_trip Hopen Hwrite Hread Hline. reflexivity.
Qed.

Lemma empty_response_fails_decoding_witness :
  let line := response_frame (Some "2.0") 1 None None in
  let c := (Client.Connect (fresh_client (child_printing [line]) fs_server)).1 in
  (Client.Initialize c).2
  = Some "failed to unmarshal initialize result: unexpected end of JSON input" /\
  initialized (Client.Initialize c).1 = initialized c.
Proof.
  intros line c.
  pose proof (empty_response_fails_decoding c "read_file" ∅ (Some "2.0") 1 []
                eq_refl eq_refl eq_refl eq_refl) as (H1 & H2 & _).
  split; [exact H1|exact H2].
Defined.

(** X6.  A response whose result is the JSON null is accepted by each of
    the three requests.  The handshake succeeds and sets the flag, with
    capabilities that are all false; the tool list is empty and replaces
    the cache; a tool call returns the empty text. *)
Theorem null_result_is_accepted
  (c : Client) (name : string) (args : gmap string iface)
  (version : option string) (id : Z) (rest : list read_event)
  (Hopen : closed (transport c) = false)
  (Hwrite : next_write_ok (transport c) = true)
  (Hid : in_int64 id = true)
  (Hread : stdout (child (transport c))
           = ReadLine (response_frame version id (Some JNull) None) :: rest) :
  (Client.Initialize c).2 = None /\
  initialized (Client.Initialize c).1 = true /\
  capabilities (Client.Initialize c).1 = zero /\
  (initialized c = true ->
   (Client.ListTools c).2 = inr [] /\
   Client.GetTools (Client.ListTools c).1 = [] /\
   (Client.CallTool c name args).2 = inr "").
Proof.
  pose proof (unmarshal_response_frame version id (Some JNull) None Hid eq_refl) as Hline.
  assert (exists c', Client.Initialize c = (c', None) /\ initialized c' = true /\
                     capabilities c' = zero) as (c' & -> & Hi & Hcaps).
  { unfold Client.Initialize. cbn zeta. round_trip Hopen Hwrite Hread Hline.
    cbn [Error Result from_option fmap option_fmap option_map].
    change (unmarshalJSON (Raw JNull) (zero : InitializeResult))
      with ((zero : InitializeResult), @None error).
    cbn iota beta. destruct (STDIOTransport.Send _ _) as [t2 e2]. eexists.
    split; [reflexivity|]. split; reflexivity. }
  split; [done|]. split; [done|]. split; [done|].
  intros Hinit. split; [|split].
  - unfold Client.ListTools. rewrite Hinit. cbn [negb].
    round_trip Hopen Hwrite Hread Hline. reflexivity.
  - unfold Client.ListTools. rewrite Hinit. cbn [negb].
    round_trip Hopen Hwrite Hread Hline. reflexivity.
  - unfold Client.CallTool. rewrite Hinit. cbn [negb].
    round_trip Hopen Hwrite Hread Hline. reflexivity.
Qed.

Lemma null_result_is_accepted_witness :
  let line := response_frame (Some "2.0") 1 (Some JNull) None in
  let c := (Client.Connect (fresh_client (child_printing [line]) fs_server)).1 in
  initialized c = false /\
  (Client.Initialize c).2 = None /\
  initialized (Client.Initialize c).1 = true.
Proof.
  intros line c. split; [reflexivity|].
  pose proof (null_result_is_accepted c "read_file" ∅ (Some "2.0") 1 []
                eq_refl eq_refl eq_refl eq_refl) as (H1 & H2 & _).
  split; [exact H1|exact H2].
Defined.

(** ** What a request leaves of the session *)

(** X7.  [Initialize] always takes the next id and never touches the cached
    tools or the server description.  It sets the flag exactly when it
    returns nil; when it fails, for whatever reason, the flag and the
    capabilities are what they were, so a failed second handshake leaves an
    initialized session initialized. *)
Theorem Initialize_sets_flag_on_success_only (c : Client) :
  requestID (Client.Initialize c).1 = wrap64 (requestID c + 1) /\
  Client.GetTools (Client.Initialize c).1 = Client.GetTools c /\
  server (Client.Initialize c).1 = server c /\
  ((Client.Initialize c).2 = None -> initialized (Client.Initialize c).1 = true) /\
  (forall e, (Client.Initialize c).2 = Some e ->
             initialized (Client.Initialize c).1 = initialized c /\
             capabilities (Client.Initialize c).1 = capabilities c).
Proof.
  unfold Client.Initialize, Client.GetTools.
  repeat case_match; simplify_eq; cbn; repeat split; intros; simplify_eq; done.
Qed.

Lemma Initialize_sets_flag_on_success_only_witness :
  let c := session_after_handshake [] in
  initialized c = true /\
  (Client.Initialize c).2
  = Some "failed to receive initialize response: MCP server closed connection" /\
  initialized (Client.Initialize c).1 = true.
Proof.
  intros c. split; [reflexivity|]. split; [reflexivity|].
  destruct (Initialize_sets_flag_on_success_only c) as (_ & _ & _ & _ & H).
  exact (proj1 (H _ eq_refl)).
Defined.

(** X8.  The handshake does not depend on the initialized notification:
    when the request is written and answered with a result that decodes,
    [Initialize] returns nil and sets the flag and the capabilities of the
    result, also when the write of the notification fails.  The methods
    written are initialize and then, unless its frame could not be written,
    notifications/initialized. *)
Theorem Initialize_ignores_notification_failure
  (c : Client) (w : write_event) (ws : list write_event)
  (line : json) (rest : list read_event) (resp : JSONRPCResponse) (result : InitializeResult)
  (Hopen : closed (transport c) = false)
  (Hwrites : writes (child (transport c)) = WriteOk :: w :: ws)
  (Hread : stdout (child (transport c)) = ReadLine line :: rest)
  (Hline : unmarshal line (zero : JSONRPCResponse) = (resp, None))
  (Herr : Error resp = None)
  (Hresult : unmarshalJSON (Result resp) (zero : InitializeResult) = (result, None)) :
  (Client.Initialize c).2 = None /\
  initialized (Client.Initialize c).1 = true /\
  capabilities (Client.Initialize c).1 = Capabilities result /\
  frame_methods (trace (transport (Client.Initialize c).1))
  = frame_methods (trace (transport c)) ++
    MethodInitialize ::
    match w with
    | WriteFrameFailed _ => []
    | _ => [MethodInitialized]
    end.
Proof.
  assert (forall req, STDIOTransport.Send (transport (incr_requestID c)) req
                      = (emit WroteNewline
                           (emit (Wrote req) (set_writes (w :: ws) (transport c))), None))
    as Hsend.
  { intros req. unfold STDIOTransport.Send. cbn [transport incr_requestID].
    by rewrite Hopen, Hwrites. }
  unfold Client.Initialize. cbn zeta. rewrite Hsend. cbn [transport set_transport].
  rewrite (Receive_line
             (emit WroteNewline (emit (Wrote _) (set_writes (w :: ws) (transport c))))
             line rest resp Hopen Hread Hline).
  rewrite Herr, Hresult. cbn [transport set_transport set_initialized set_capabilities].
  unfold STDIOTransport.Send. cbn [closed set_stdout emit set_writes child writes].
  rewrite Hopen.
  destruct w; cbn; rewrite ?frame_methods_app; cbn; rewrite ?app_nil_r, <- ?app_assoc; done.
Qed.

Lemma Initialize_ignores_notification_failure_witness :
  let os := {| Environ := []; pipes := PipesOk; start_error := None;
               writes := [WriteOk; WriteFrameFailed "broken pipe"];
               stdout := [ReadLine initialize_response];
               stdin_close_error := None; wait_error := None;
               stays_silent := false; exits := true |} in
  let c := (Client.Connect (fresh_client os fs_server)).1 in
  (Client.Initialize c).2 = None /\
  initialized (Client.Initialize c).1 = true /\
  frame_methods (trace (transport (Client.Initialize c).1)) = [MethodInitialize].
Proof.
  intros os c.
  pose proof (Initialize_ignores_notification_failure c (WriteFrameFailed "broken pipe") []
                initialize_response [] _ _ eq_refl eq_refl eq_refl eq_refl eq_refl eq_refl)
    as (H1 & H2 & _ & H4).
  split; [exact H1|]. split; [exact H2|exact H4].
Defined.

(** X9.  The cached tool list is what the last successful [ListTools]
    returned.  A [ListTools] that succeeds caches exactly the list it
    returns; one that fails leaves the cache alone; and no other operation
    writes the cache, so [Close] and [Shutdown] keep it and [GetTools] still
    answers from it on a closed session. *)
Theorem tools_cache_follows_ListTools (c : Client) :
  match (Client.ListTools c).2 with
  | inr l => Client.GetTools (Client.ListTools c).1 = l
  | inl _ => Client.GetTools (Client.ListTools c).1 = Client.GetTools c
  end /\
  (forall o, o <> OpListTools -> Client.GetTools (perform c o) = Client.GetTools c).
Proof.
  split.
  - unfold Client.ListTools, Client.GetTools.
    repeat case_match; simplify_eq; cbn in *; simplify_eq; done.
  - intros o Ho. unfold Client.GetTools.
    destruct o; try done; simpl.
    all: unfold Client.Connect, Client.Initialize, Client.CallTool, Client.Shutdown,
           Client.Close.
    all: repeat case_match; simplify_eq; cbn; done.
Qed.

Lemma tools_cache_follows_ListTools_witness :
  let c := run (fresh_client (child_printing [initialize_response; tools_response]) fs_server)
               [OpConnect; OpInitialize; OpListTools] in
  map tool_Name (Client.GetTools c) = ["read_file"; "write_file"] /\
  Client.GetTools (perform c OpClose) = Client.GetTools c.
Proof.
  intros c. split; [vm_compute; reflexivity|].
  refine (proj2 (tools_cache_follows_ListTools c) OpClose _). discriminate.
Defined.

(** X10.  [Shutdown] never returns an error and never changes the flag.  On
    a session that is not initialized it does nothing at all, so the
    transport stays as it is.  On an initialized session it takes the next
    id, reads no line, and closes the transport while the flag stays set: a
    later tool call is not refused as not initialized, it takes one more id
    and fails at the closed transport. *)
Theorem Shutdown_closes_and_keeps_flag (c : Client) (name : string) (args : gmap string iface) :
  (Client.Shutdown c).2 = None /\
  initialized (Client.Shutdown c).1 = initialized c /\
  stdout (child (transport (Client.Shutdown c).1)) = stdout (child (transport c)) /\
  (initialized c = false -> (Client.Shutdown c).1 = c) /\
  (initialized c = true ->
   closed (transport (Client.Shutdown c).1) = true /\
   requestID (Client.Shutdown c).1 = wrap64 (requestID c + 1) /\
   (Client.CallTool (Client.Shutdown c).1 name args).2
   = inl "failed to send tools/call: transport is closed" /\
   requestID (Client.CallTool (Client.Shutdown c).1 name args).1
   = wrap64 (wrap64 (requestID c + 1) + 1)).
Proof.
  assert ((Client.Shutdown c).2 = None /\
          initialized (Client.Shutdown c).1 = initialized c /\
          stdout (child (transport (Client.Shutdown c).1)) = stdout (child (transport c)) /\
          (initialized c = false -> (Client.Shutdown c).1 = c) /\
          (initialized c = true ->
           closed (transport (Client.Shutdown c).1) = true /\
           requestID (Client.Shutdown c).1 = wrap64 (requestID c + 1)))
    as (Hnil & Hflag & Hout & Hnoop & Hclose).
  { unfold Client.Shutdown, STDIOTransport.Close, STDIOTransport.Send.
    destruct (initialized c) eqn:Hi; cbn [negb]; [|done].
    cbn [transport incr_requestID set_transport].
    destruct (closed (transport c)) eqn:Hc; cbn; rewrite ?Hc; cbn.
    { repeat split; try done. }
    destruct (writes (child (transport c))) as [|[| |] ws]; cbn; rewrite ?Hc; cbn.
    all: destruct (Process (cmd (transport c))); cbn; repeat split; try done. }
  split; [done|]. split; [done|]. split; [done|]. split; [done|].
  intros Hi. destruct (Hclose Hi) as [Hc Hid]. split; [done|]. split; [done|].
  unfold Client.CallTool. rewrite Hflag, Hi. cbn [negb].
  rewrite (Send_closed (transport (incr_requestID (Client.Shutdown c).1)) _ Hc).
  cbn. by rewrite Hid.
Qed.

Lemma Shutdown_closes_and_keeps_flag_witness :
  let c := session_after_handshake [] in
  initialized c = true /\
  initialized (Client.Shutdown c).1 = true /\
  closed (transport (Client.Shutdown c).1) = true /\
  (Client.CallTool (Client.Shutdown c).1 "read_file" ∅).2
  = inl "failed to send tools/call: transport is closed".
Proof.
  intros c.
  destruct (Shutdown_closes_and_keeps_flag c "read_file" ∅) as (_ & Hflag & _ & _ & H).
  destruct (H eq_refl) as (Hc & _ & Hcall & _).
  split; [reflexivity|]. split; [exact Hflag|]. split; [exact Hc|exact Hcall].
Defined.

(** X11.  A wrapper whose session was closed answers with the
    not-initialized error, whatever was done to the session after the
    [Close], and leaves the session as it is: nothing is written and no id
    is taken. *)
Theorem Execute_after_Close
  (w : ToolWrapper) (c : Client) (after : list operation) (args : gmap string iface) :
  let c' := run (Client.Close c).1 after in
  ToolWrapper.Execute w c' args
  = (c', ErrorResult ("MCP tool " +:+ tool_Name (wrapper_tool w) +:+
                      " error: client not initialized")).
Proof.
  cbv zeta. destruct (Close_is_closed c) as [Hclosed _].
  destruct (run_closed after _ Hclosed) as [[_ Hi] _].
  unfold ToolWrapper.Execute, Client.CallTool. by rewrite Hi.
Qed.

(** ** The accessors of a response *)

(** X12.  [GetError] is nil exactly when the response has no error object.
    Otherwise its text begins with the message of the error object; it is
    that message alone when the error has no data, and also when the data
    cannot be decoded, as a number outside the range of float64: the
    decoding error is dropped. *)
Theorem GetError_begins_with_message
  (FormatFloat : number -> string) (r : JSONRPCResponse) :
  (JSONRPCResponse.GetError FormatFloat r = None <-> JSONRPCResponse.IsError r = false) /\
  (forall e, Error r = Some e ->
     exists tail, JSONRPCResponse.GetError FormatFloat r = Some (Message e +:+ tail)) /\
  (forall e, Error r = Some e -> error_Data e = RawEmpty ->
     JSONRPCResponse.GetError FormatFloat r = Some (Message e)) /\
  (forall e n, Error r = Some e -> error_Data e = Raw (JNumber n) -> float64_ok n = false ->
     JSONRPCResponse.GetError FormatFloat r = Some (Message e)).
Proof.
  unfold JSONRPCResponse.GetError, JSONRPCResponse.IsError.
  split; [|split; [|split]].
  - destruct (Error r); split; intros H; done.
  - intros e ->. destruct (error_Data e) as [|j].
    + exists "". by rewrite append_nil_r.
    + destruct (unmarshal j INil) as [data err]. case_bool_decide.
      * by eexists.
      * exists "". by rewrite append_nil_r.
  - by intros e -> ->.
  - intros e n -> -> Hn. unfold unmarshal, unmarshal_iface. by rewrite Hn.
Qed.

Lemma GetError_begins_with_message_witness :
  let FormatFloat := fun _ : number => "0" in
  let r := (unmarshal invalid_params_response (zero : JSONRPCResponse)).1 in
  JSONRPCResponse.GetError FormatFloat r = Some "Invalid params: map[field:name]" /\
  exists tail, JSONRPCResponse.GetError FormatFloat r = Some ("Invalid params" +:+ tail).
Proof.
  intros FormatFloat r. split; [vm_compute; reflexivity|].
  exact (proj1 (proj2 (GetError_begins_with_message FormatFloat r)) _ eq_refl).
Defined.

(** X13.  [UnmarshalResult] looks at the error first: a response with an
    error object leaves the target as it is and returns an error, also when
    a result is present.  Without an error an empty result is accepted and
    leaves the target as it is, where the decoding the client's requests
    use reports the end of the input.  When it returns nil the response has
    no error object; and without an error object, a result that holds the
    text of a JSON value is handed to the decoder of tool call results,
    which reports no failure. *)
Theorem UnmarshalResult_looks_at_error_first
  (FormatFloat : number -> string) (r : JSONRPCResponse) (v : ToolCallResult) :
  (forall e, Error r = Some e ->
     (JSONRPCResponse.UnmarshalResult FormatFloat r v).1 = v /\
     (JSONRPCResponse.UnmarshalResult FormatFloat r v).2
     = JSONRPCResponse.GetError FormatFloat r /\
     (JSONRPCResponse.UnmarshalResult FormatFloat r v).2 <> None) /\
  (Error r = None -> Result r = RawEmpty ->
     JSONRPCResponse.UnmarshalResult FormatFloat r v = (v, None) /\
     unmarshalJSON (Result r) v = (v, Some "unexpected end of JSON input")) /\
  ((JSONRPCResponse.UnmarshalResult FormatFloat r v).2 = None -> Error r = None) /\
  (forall data, Error r = None -> Result r = Raw data ->
     JSONRPCResponse.UnmarshalResult FormatFloat r v = ToolCallResult.UnmarshalJSON v data /\
     (JSONRPCResponse.UnmarshalResult FormatFloat r v).2 = None).
Proof.
  unfold JSONRPCResponse.UnmarshalResult, JSONRPCResponse.IsError.
  split; [|split; [|split]].
  - intros e He. rewrite He. rewrite bool_decide_eq_true_2 by done. cbn [fst snd].
    split; [done|]. split; [done|].
    unfold JSONRPCResponse.GetError. rewrite He. discriminate.
  - intros He Hr. rewrite He, Hr. rewrite bool_decide_eq_false_2 by (intros H; by apply H).
    done.
  - destruct (Error r) as [e|] eqn:He; [|done].
    rewrite bool_decide_eq_true_2 by done. cbn [snd].
    unfold JSONRPCResponse.GetError. rewrite He. intros H. discriminate H.
  - intros data He Hr. rewrite He, Hr.
    rewrite bool_decide_eq_false_2 by (intros H; by apply H).
    split; [reflexivity|]. apply UnmarshalJSON_nil.
Qed.

Lemma UnmarshalResult_looks_at_error_first_witness :
  let FormatFloat := fun _ : number => "0" in
  let both := response_frame (Some "2.0") 2 (Some (JString "ok")) (Some (-32000, "boom")) in
  let r := (unmarshal both (zero : JSONRPCResponse)).1 in
  Result r = Raw (JString "ok") /\
  (JSONRPCResponse.UnmarshalResult FormatFloat r (zero : ToolCallResult)).1 = zero /\
  (JSONRPCResponse.UnmarshalResult FormatFloat r (zero : ToolCallResult)).2 <> None.
Proof.
  intros FormatFloat both r. split; [reflexivity|].
  destruct (proj1 (UnmarshalResult_looks_at_error_first FormatFloat r zero) _ eq_refl)
    as (H1 & _ & H3).
  split; [exact H1|exact H3].
Defined.

(** ** Decoding into a result that has content *)

(** X14.  [UnmarshalJSON] appends the blocks of an array to the content the
    result already has, one per element, so the flattened text is the text
    there was followed by the text of the array; a string replaces the
    content.  Neither shape writes the error flag. *)
Theorem UnmarshalJSON_array_appends (t : ToolCallResult) (items : list json) (s : string) :
  let t' := (ToolCallResult.UnmarshalJSON t (JArray items)).1 in
  Content t' = Content t ++ Content (ToolCallResult.UnmarshalJSON zero (JArray items)).1 /\
  length (Content t') = (length (Content t) + length items)%nat /\
  ToolCallResult.GetText t'
  = ToolCallResult.GetText t +:+
    ToolCallResult.GetText (ToolCallResult.UnmarshalJSON zero (JArray items)).1 /\
  IsError t' = IsError t /\
  ToolCallResult.UnmarshalJSON t (JString s)
  = ({| Content := [CText {| text_Type := "text"; Text := s |}]; IsError := IsError t |}, None).
Proof.
  cbv zeta. rewrite !UnmarshalJSON_array. cbn [fst Content IsError zero zero_ToolCallResult].
  split; [done|]. split; [by rewrite length_app, length_map|]. split; [|done].
  unfold ToolCallResult.GetText. cbn [Content]. rewrite fold_left_app.
  rewrite (GetText_fold (map _ items) (fold_left _ _ _)).
  cbn [app]. rewrite (GetText_fold (map _ items) ""). reflexivity.
Qed.

(** ** The names of the wrappers *)

(** X15.  The registered name of a wrapper is mcp_, the server name, an
    underscore and the tool name.  For one server it determines the tool
    name; across servers it does not determine the pair, since an
    underscore may belong to either side: server [a] with tool [b_c] and
    server [a_b] with tool [c] get the same name. *)
Theorem wrapper_name_is_ambiguous_across_servers
  (w1 w2 : ToolWrapper) (a b c : string) (t : MCPTool) :
  (ToolWrapper.GetClient w1 = ToolWrapper.GetClient w2 ->
   ToolWrapper.Name w1 = ToolWrapper.Name w2 ->
   tool_Name (ToolWrapper.GetMCPTool w1) = tool_Name (ToolWrapper.GetMCPTool w2)) /\
  ToolWrapper.Name
    {| wrapper_client := a;
       wrapper_tool := {| tool_Name := b +:+ "_" +:+ c;
                          tool_Description := tool_Description t;
                          InputSchema := InputSchema t |} |}
  = ToolWrapper.Name
      {| wrapper_client := a +:+ "_" +:+ b;
         wrapper_tool := {| tool_Name := c;
                            tool_Description := tool_Description t;
                            InputSchema := InputSchema t |} |}.
Proof.
  split.
  - unfold ToolWrapper.Name, ToolWrapper.GetClient, ToolWrapper.GetMCPTool.
    intros -> H. by repeat apply String.app_inj in H.
  - unfold ToolWrapper.Name. cbn [wrapper_client wrapper_tool tool_Name].
    by rewrite !append_assoc.
Qed.

Lemma wrapper_name_is_ambiguous_across_servers_witness :
  let tool name := {| tool_Name := name; tool_Description := ""; InputSchema := ∅ |} in
  ToolWrapper.Name {| wrapper_client := "git"; wrapper_tool := tool "hub_search" |}
  = ToolWrapper.Name {| wrapper_client := "git_hub"; wrapper_tool := tool "search" |} /\
  (ToolWrapper.Name {| wrapper_client := "fs"; wrapper_tool := tool "read" |}
   = ToolWrapper.Name {| wrapper_client := "fs"; wrapper_tool := tool "read" |} ->
   tool_Name (tool "read") = tool_Name (tool "read")).
Proof.
  intros tool.
  split.
  - exact (proj2 (wrapper_name_is_ambiguous_across_servers
                    {| wrapper_client := "fs"; wrapper_tool := tool "read" |}
                    {| wrapper_client := "fs"; wrapper_tool := tool "read" |}
                    "git" "hub" "search" (tool ""))).
  - exact (proj1 (wrapper_name_is_ambiguous_across_servers
                    {| wrapper_client := "fs"; wrapper_tool := tool "read" |}
                    {| wrapper_client := "fs"; wrapper_tool := tool "read" |}
                    "git" "hub" "search" (tool "")) eq_refl).
Defined.

(** ** One process for one session *)

(** What the four operations of the transport preserve, every operation of
    the session preserves. *)
Lemma perform_transport_invariant (P : STDIOTransport -> Prop) :
  (forall t t' err, P t -> STDIOTransport.Start t = (t', err) -> P t') ->
  (forall t t' req err, P t -> STDIOTransport.Send t req = (t', err) -> P t') ->
  (forall t t' r, P t -> STDIOTransport.Receive t = (t', r) -> P t') ->
  (forall t t' err, P t -> STDIOTransport.Close t = (t', err) -> P t') ->
  forall c o, P (transport c) -> P (transport (perform c o)).
Proof.
  intros HStart HSend HReceive HClose c o Hc.
  destruct o; simpl;
    unfold Client.Connect, Client.Initialize, Client.ListTools, Client.CallTool,
      Client.Shutdown, Client.Close;
    repeat case_match; simplify_eq; simpl in *;
    repeat match goal with
      | W : P ?t, H : STDIOTransport.Send ?t _ = (_, _) |- _ =>
          pose proof (HSend _ _ _ _ W H); clear H
      | W : P ?t, H : STDIOTransport.Receive ?t = (_, _) |- _ =>
          pose proof (HReceive _ _ _ W H); clear H
      | W : P ?t, H : STDIOTransport.Close ?t = (_, _) |- _ =>
          pose proof (HClose _ _ _ W H); clear H
      | W : P ?t, H : STDIOTransport.Start ?t = (_, _) |- _ =>
          pose proof (HStart _ _ _ W H); clear H
      end;
    done.
Qed.

Lemma run_transport_invariant (P : STDIOTransport -> Prop) :
  (forall c o, P (transport c) -> P (transport (perform c o))) ->
  forall ops c, P (transport c) -> P (transport (run c ops)).
Proof.
  intros Hstep ops. induction ops as [|o ops IH]; intros c Hc; simpl; [done|].
  apply IH. by apply Hstep.
Qed.

Lemma count_spawned_app (a b : list event) :
  count_spawned (a ++ b) = (count_spawned a + count_spawned b)%nat.
Proof. induction a as [|e a IH]; [done|]. destruct e; simpl; by rewrite ?IH. Qed.

Lemma perform_starts_command (path : string) (args : list string) (c : Client)
  (o : operation) :
  starts_command path args (transport c) ->
  starts_command path args (transport (perform c o)).
Proof.
  apply perform_transport_invariant; unfold starts_command.
  all: unfold STDIOTransport.Start, STDIOTransport.Send, STDIOTransport.Receive,
         STDIOTransport.Close.
  all: intros; repeat match goal with H : _ /\ _ |- _ => destruct H end.
  all: repeat case_match; simplify_eq; simpl in *.
  all: rewrite ?count_spawned_app; simpl; rewrite ?Forall_app.
  all: repeat split; try done; try congruence; try lia.
  all: by repeat constructor.
Qed.

(** X16.  A session starts at most one process, and the process it starts
    is the command of its server description with the arguments of that
    description: the trace has one start when the command has a process and
    none otherwise.  Once the process is there, a further [Connect] on the
    open session fails as already started and starts nothing. *)
Theorem session_starts_one_process
  (os : Child) (server : MCPServer) (c0 : Client) (ops : list operation)
  (Hnew : NewClient os server = inr c0) :
  let c := run c0 ops in
  count_spawned (trace (transport c)) = (if Process (cmd (transport c)) then 1 else 0)%nat /\
  (forall path args env, In (Spawned path args env) (trace (transport c)) ->
     path = Command server /\ args = Args server) /\
  (Process (cmd (transport c)) = true -> closed (transport c) = false ->
   (Client.Connect c).2
   = Some "failed to start transport: failed to start MCP server: exec: already started" /\
   trace (transport (Client.Connect c).1) = trace (transport c)).
Proof.
  apply NewClient_inv in Hnew. subst c0. cbv zeta.
  assert (starts_command (Command server) (Args server)
            (transport (run (fresh_client os server) ops))) as (_ & _ & Hn & Hall).
  { apply (run_transport_invariant _ (perform_starts_command _ _)).
    repeat split. constructor. }
  split; [done|]. split.
  - intros path args env Hin. rewrite List.Forall_forall in Hall. exact (Hall _ Hin).
  - intros Hp Hc. unfold Client.Connect, STDIOTransport.Start. by rewrite Hc, Hp.
Qed.

Lemma session_starts_one_process_witness :
  let os := child_printing [initialize_response] in
  let c := run (fresh_client os fs_server) [OpConnect; OpInitialize; OpConnect; OpConnect] in
  count_spawned (trace (transport c)) = 1%nat /\
  (Client.Connect c).2
  = Some "failed to start transport: failed to start MCP server: exec: already started".
Proof.
  intros os c.
  destruct (session_starts_one_process os fs_server (fresh_client os fs_server)
              [OpConnect; OpInitialize; OpConnect; OpConnect] eq_refl) as (H1 & _ & H3).
  split; [exact H1|]. exact (proj1 (H3 eq_refl eq_refl)).
Defined.

(** ** No line is read that was not asked for *)

Lemma Start_budget (t t' : STDIOTransport) (err : option error) :
  STDIOTransport.Start t = (t', err) -> budget t' = budget t.
Proof.
  unfold STDIOTransport.Start, budget. intros H.
  repeat case_match; simplify_eq; simpl; rewrite ?request_ids_app; simpl;
    rewrite ?app_nil_r; done.
Qed.

Lemma Close_budget (t t' : STDIOTransport) (err : option error) :
  STDIOTransport.Close t = (t', err) -> budget t' = budget t.
Proof.
  unfold STDIOTransport.Close, budget. intros H.
  repeat case_match; simplify_eq; simpl; rewrite ?request_ids_app; simpl;
    rewrite ?app_nil_r; done.
Qed.

(** A [Send] that succeeds with a request adds one to the budget; no [Send]
    takes from it. *)
Lemma Send_budget (t t' : STDIOTransport) (req : Frame) (err : option error) :
  STDIOTransport.Send t req = (t', err) ->
  (budget t + match err, frame_id req with
              | None, Some _ => 1
              | _, _ => 0
              end <= budget t')%nat.
Proof.
  unfold STDIOTransport.Send, budget. intros H.
  repeat case_match; simplify_eq; simpl; rewrite ?request_ids_app; simpl;
    repeat case_match; simplify_eq; rewrite ?length_app; simpl; lia.
Qed.

(** A [Receive] takes at most one line. *)
Lemma Receive_budget (t t' : STDIOTransport) (r : error + JSONRPCResponse) :
  STDIOTransport.Receive t = (t', r) -> (budget t <= budget t' + 1)%nat.
Proof.
  unfold STDIOTransport.Receive, budget. intros H.
  repeat case_match; simplify_eq; simpl;
    repeat match goal with E : stdout _ = _ |- _ => rewrite E end; simpl; lia.
Qed.

Ltac budget_facts :=
  repeat match goal with
    | H : STDIOTransport.Send ?t ?r = (_, _) |- _ =>
        let F := fresh "Hsend" in pose proof (Send_budget _ _ _ _ H) as F; simpl in F; clear H
    | H : STDIOTransport.Receive ?t = (_, _) |- _ =>
        let F := fresh "Hrecv" in pose proof (Receive_budget _ _ _ H) as F; simpl in F; clear H
    | H : STDIOTransport.Close ?t = (_, _) |- _ =>
        let F := fresh "Hclose" in pose proof (Close_budget _ _ _ H) as F; simpl in F; clear H
    | H : STDIOTransport.Start ?t = (_, _) |- _ =>
        let F := fresh "Hstart" in pose proof (Start_budget _ _ _ H) as F; simpl in F; clear H
    end.

Lemma perform_budget (c : Client) (o : operation) :
  (budget (transport c) <= budget (transport (perform c o)))%nat.
Proof.
  destruct o; simpl.
  all: unfold Client.Connect, Client.Initialize, Client.ListTools, Client.CallTool,
         Client.Shutdown, Client.Close.
  all: repeat case_match; simplify_eq; budget_facts; simpl; lia.
Qed.

(** X17.  A session reads only answers: through any sequence of operations
    the number of lines it has taken from the child's output is at most the
    number of requests it has written.  The initialized notification and a
    shutdown request are written without a read, and no operation reads
    before it has written its request. *)
Theorem reads_follow_requests
  (os : Child) (server : MCPServer) (c0 : Client) (ops : list operation)
  (Hnew : NewClient os server = inr c0) :
  (length (stdout os)
   <= length (wire_ids (run c0 ops)) + length (stdout (child (transport (run c0 ops)))))%nat.
Proof.
  apply NewClient_inv in Hnew. subst c0.
  change (budget (transport (fresh_client os server))
          <= budget (transport (run (fresh_client os server) ops)))%nat.
  generalize (fresh_client os server). induction ops as [|o ops IH]; intros c; simpl; [lia|].
  etrans; [apply (perform_budget c o)|apply IH].
Qed.

Lemma reads_follow_requests_witness :
  let os := child_printing [initialize_response; tools_response; tools_response] in
  let ops := [OpConnect; OpListTools; OpInitialize; OpListTools; OpShutdown; OpListTools] in
  length (wire_ids (run (fresh_client os fs_server) ops)) = 3%nat /\
  length (stdout (child (transport (run (fresh_client os fs_server) ops)))) = 1%nat /\
  (length (stdout os)
   <= length (wire_ids (run (fresh_client os fs_server) ops)) +
      length (stdout (child (transport (run (fresh_client os fs_server) ops)))))%nat.
Proof.
  intros os ops. split; [vm_compute; reflexivity|]. split; [vm_compute; reflexivity|].
  exact (reads_follow_requests os fs_server (fresh_client os fs_server) ops eq_refl).
Defined.

(** ** The manager: what [connectServer] hands over *)

Lemma Start_open (t t' : STDIOTransport) :
  STDIOTransport.Start t = (t', None) -> Process (cmd t') = true /\ closed t' = false.
Proof.
  unfold STDIOTransport.Start. intros H. repeat case_match; simplify_eq. simpl.
  split; [done|]. by destruct (closed t).
Qed.

Lemma Send_open (t t' : STDIOTransport) (req : Frame) (err : option error) :
  STDIOTransport.Send t req = (t', err) ->
  Process (cmd t') = Process (cmd t) /\ closed t' = closed t.
Proof. unfold STDIOTransport.Send. intros H. repeat case_match; by simplify_eq. Qed.

Lemma Receive_open (t t' : STDIOTransport) (r : error + JSONRPCResponse) :
  STDIOTransport.Receive t = (t', r) ->
  Process (cmd t') = Process (cmd t) /\ closed t' = closed t.
Proof. unfold STDIOTransport.Receive. intros H. repeat case_match; by simplify_eq. Qed.

Ltac open_facts :=
  repeat match goal with
    | H : STDIOTransport.Send ?t ?r = (_, _) |- _ =>
        let P := fresh "Hproc" in
        let C := fresh "Hopen" in
        pose proof (Send_open _ _ _ _ H) as [P C]; simpl in P, C;
        apply Send_methods in H; simpl in H
    | H : STDIOTransport.Receive ?t = (_, _) |- _ =>
        let P := fresh "Hproc" in
        let C := fresh "Hopen" in
        pose proof (Receive_open _ _ _ H) as [P C]; simpl in P, C;
        apply Receive_methods in H; simpl in H
    end.

(** X18.  The session [connectServer] returns is under the name of its
    descriptor, with its process started, its transport open and its flag
    set; its counter is 2, the handshake having taken id 1 and the tool
    list id 2 whether or not the list could be fetched, and the first frame
    it wrote is the initialize request.  A tool list that fails does not
    fail the connection. *)
Theorem connectServer_returns_ready_session
  (serverCfg : MCPServerConfig) (os : Child) (client : Client)
  (Hconnect : Manager.connectServer serverCfg os = inr client) :
  Client.GetName client = cfg_Name serverCfg /\
  initialized client = true /\
  Process (cmd (transport client)) = true /\
  closed (transport client) = false /\
  requestID client = 2 /\
  head (frame_methods (trace (transport client))) = Some MethodInitialize.
Proof.
  unfold Manager.connectServer in Hconnect.
  destruct (NewClient os _) as [err|c0] eqn:Hnew; [discriminate Hconnect|].
  apply NewClient_inv in Hnew. subst c0.
  destruct (Client.Connect _) as [c1 e1] eqn:H1. destruct e1; [discriminate Hconnect|].
  destruct (Client.Initialize c1) as [c2 e2] eqn:H2.
  destruct e2; [by destruct (Client.Close c2)|].
  destruct (Client.ListTools c2) as [c3 r3] eqn:H3. simplify_eq.
  assert (Client.GetName c1 = cfg_Name serverCfg /\ requestID c1 = 0 /\
          Process (cmd (transport c1)) = true /\ closed (transport c1) = false /\
          trace (transport c1) <> [] /\ frame_methods (trace (transport c1)) = [])
    as (Hn1 & Hid1 & Hp1 & Hc1 & Hs1 & Hm1).
  { unfold Client.Connect in H1.
    destruct (STDIOTransport.Start _) as [t e] eqn:Hs. destruct e; simplify_eq.
    destruct (Start_open _ _ Hs) as [Hp Hc]. simpl. repeat split; try done.
    - unfold STDIOTransport.Start in Hs. repeat case_match; simplify_eq. simpl. discriminate.
    - pose proof (Start_methods _ _ _ Hs) as Hm. by rewrite Hm. }
  assert (Client.GetName c2 = cfg_Name serverCfg /\ requestID c2 = 1 /\
          initialized c2 = true /\
          Process (cmd (transport c2)) = true /\ closed (transport c2) = false /\
          head (frame_methods (trace (transport c2))) = Some MethodInitialize)
    as (Hn2 & Hid2 & Hi2 & Hp2 & Hc2 & Hm2).
  { unfold Client.Initialize in H2.
    repeat case_match; simplify_eq; open_facts; simpl in *.
    repeat match goal with
      | H : _ /\ _ |- _ => destruct H
      | H : _ \/ _ |- _ => destruct H
      end; try done.
    all: repeat split; try congruence; try (by rewrite Hid1); try exact Hn1.
    all: repeat match goal with
           | H : frame_methods (trace _) = _ |- _ => rewrite H; clear H
           end; done. }
  unfold Client.ListTools in H3. rewrite Hi2 in H3. cbn [negb] in H3.
  repeat case_match; simplify_eq; open_facts; simpl in *.
  all: repeat match goal with
         | H : _ /\ _ |- _ => destruct H
         | H : _ \/ _ |- _ => destruct H
         end.
  all: repeat split; try congruence; try (by rewrite Hid2); try exact Hn2.
  all: repeat match goal with
         | H : frame_methods (trace _) = _ |- _ => rewrite H; clear H
         end.
  all: destruct (frame_methods (trace (transport c2))); simpl in *; congruence.
Qed.

Lemma connectServer_returns_ready_session_witness :
  let os := child_printing [initialize_response] in
  let client := (Client.ListTools (session_after_handshake [])).1 in
  (Client.ListTools (session_after_handshake [])).2
  = inl "failed to receive list_tools response: MCP server closed connection" /\
  initialized client = true /\
  requestID client = 2.
Proof.
  intros os client. split; [vm_compute; reflexivity|].
  assert (Manager.connectServer (server_config "fs" "echo-srv" true) os = inr client) as H
    by (vm_compute; reflexivity).
  destruct (connectServer_returns_ready_session (server_config "fs" "echo-srv" true) os
              client H) as (_ & H2 & _ & _ & H5 & _).
  split; [exact H2|exact H5].
Defined.

(** ** The manager: names, and calls that repeat *)








(** X22.  An error of [connectServer] names the step that failed, through
    the chain of wrapped errors: creating the pipes of the transport,
    starting the process, or the handshake.  A tool list that fails is not
    among them. *)
Theorem connectServer_error_names_the_step
  (serverCfg : MCPServerConfig) (os : Child) (err : error)
  (Hfail : Manager.connectServer serverCfg os = inl err) :
  (pipes os <> PipesOk /\
   exists cause,
     err = "failed to create client: failed to create STDIO transport: " +:+ cause) \/
  (pipes os = PipesOk /\
   exists cause,
     err = "failed to connect: failed to start transport: failed to start MCP server: "
           +:+ cause) \/
  (pipes os = PipesOk /\ exists cause, err = "failed to initialize: " +:+ cause).
Proof.
  unfold Manager.connectServer, NewClient, NewSTDIOTransport in Hfail.
  destruct (pipes os) as [|e|e|e] eqn:Hpipes.
  2-4: left; split; [done|]; simplify_eq; eexists; reflexivity.
  right. cbn iota beta zeta in Hfail.
  destruct (Client.Connect _) as [c1 [e1|]] eqn:H1.
  - left. split; [done|]. simplify_eq.
    unfold Client.Connect, STDIOTransport.Start in H1. cbn in H1.
    repeat case_match; simplify_eq; eexists; reflexivity.
  - right. split; [done|].
    destruct (Client.Initialize c1) as [c2 [e2|]].
    + destruct (Client.Close c2). simplify_eq. eexists. reflexivity.
    + by destruct (Client.ListTools c2).
Qed.

Lemma connectServer_error_names_the_step_witness :
  Manager.connectServer (server_config "gone" "no-such-command" true) child_not_found
  = inl ("failed to connect: failed to start transport: failed to start MCP server: "
         +:+ "exec: no such file or directory") /\
  exists cause,
    "failed to connect: failed to start transport: failed to start MCP server: "
    +:+ "exec: no such file or directory"
    = "failed to connect: failed to start transport: failed to start MCP server: " +:+ cause.
Proof.
  split; [reflexivity|].
  destruct (connectServer_error_names_the_step
              (server_config "gone" "no-such-command" true) child_not_found _ eq_refl)
    as [[H _]|[[_ H]|[_ [cause H]]]].
  - by destruct H.
  - exact H.
  - discriminate H.
Defined.

(** ** Errors leave the session as it is *)

Lemma Start_keeps_closed (t t' : STDIOTransport) (err : option error) :
  STDIOTransport.Start t = (t', err) -> closed t' = closed t.
Proof. unfold STDIOTransport.Start. intros H. repeat case_match; by simplify_eq. Qed.

Lemma perform_keeps_flag (c : Client) (o : operation) :
  o <> OpClose -> initialized c = true -> initialized (perform c o) = true.
Proof.
  intros Ho Hi. destruct o; try done; simpl.
  all: unfold Client.Connect, Client.Initialize, Client.ListTools, Client.CallTool,
         Client.Shutdown.
  all: repeat case_match; simplify_eq; cbn; done.
Qed.

Lemma perform_keeps_open (c : Client) (o : operation) :
  o <> OpClose -> o <> OpShutdown ->
  closed (transport c) = false -> closed (transport (perform c o)) = false.
Proof.
  intros Ho Ho' Hc. destruct o; try done; simpl.
  all: unfold Client.Connect, Client.Initialize, Client.ListTools, Client.CallTool.
  all: repeat case_match; simplify_eq; cbn in *.
  all: repeat match goal with
         | H : STDIOTransport.Send _ _ = (_, _) |- _ =>
             apply Send_open in H as [_ H]; cbn in H
         | H : STDIOTransport.Receive _ = (_, _) |- _ =>
             apply Receive_open in H as [_ H]; cbn in H
         | H : STDIOTransport.Start _ = (_, _) |- _ =>
             apply Start_keeps_closed in H; cbn in H
         end.
  all: congruence.
Qed.

(** X23.  Only [Close] resets the flag, and only [Close] and [Shutdown]
    close the transport.  Through operations that do not include [Close] an
    initialized session stays initialized whatever fails, also after the
    server has closed its output and after [Shutdown]; through operations
    that include neither, an open transport stays open. *)
Theorem only_Close_resets_the_flag (c : Client) (ops : list operation)
  (Hops : ~ In OpClose ops) :
  (initialized c = true -> initialized (run c ops) = true) /\
  (~ In OpShutdown ops -> closed (transport c) = false ->
   STDIOTransport.IsClosed (transport (run c ops)) = false).
Proof.
  unfold STDIOTransport.IsClosed. revert c Hops.
  induction ops as [|o ops IH]; intros c Hops; simpl; [done|].
  simpl in Hops. destruct (IH (perform c o)) as [IH1 IH2]; [tauto|]. split.
  - intros Hi. apply IH1, perform_keeps_flag; [intros ->; tauto|done].
  - intros Hs Hc. apply IH2; [tauto|].
    apply perform_keeps_open; [intros ->; tauto|intros ->; tauto|done].
Qed.

Lemma only_Close_resets_the_flag_witness :
  let c := session_after_handshake [] in
  let ops := [OpListTools; OpCallTool "read_file" ∅; OpShutdown; OpListTools] in
  (Client.ListTools c).2
  = inl "failed to receive list_tools response: MCP server closed connection" /\
  initialized (run c ops) = true.
Proof.
  intros c ops. split; [vm_compute; reflexivity|].
  refine (proj1 (only_Close_resets_the_flag c ops _) eq_refl).
  simpl. intuition discriminate.
Defined.

(** ** What goes on the wire *)

Lemma Send_client_frames (t t' : STDIOTransport) (req : Frame) (err : option error) :
  Forall client_frame (trace t) -> client_frame (Wrote req) ->
  STDIOTransport.Send t req = (t', err) -> Forall client_frame (trace t').
Proof.
  unfold STDIOTransport.Send. intros Ht Hreq H.
  repeat case_match; simplify_eq; simpl; rewrite ?Forall_app; repeat split; try done.
  all: repeat (apply List.Forall_cons || apply List.Forall_nil); done.
Qed.

Lemma Start_client_frames (t t' : STDIOTransport) (err : option error) :
  Forall client_frame (trace t) ->
  STDIOTransport.Start t = (t', err) -> Forall client_frame (trace t').
Proof.
  unfold STDIOTransport.Start. intros Ht H.
  repeat case_match; simplify_eq; simpl; rewrite ?Forall_app; repeat split; try done.
  all: repeat (apply List.Forall_cons || apply List.Forall_nil); done.
Qed.

Lemma Close_client_frames (t t' : STDIOTransport) (err : option error) :
  Forall client_frame (trace t) ->
  STDIOTransport.Close t = (t', err) -> Forall client_frame (trace t').
Proof.
  unfold STDIOTransport.Close. intros Ht H.
  repeat case_match; simplify_eq; simpl; rewrite ?Forall_app; repeat split; try done.
  all: repeat (apply List.Forall_cons || apply List.Forall_nil); done.
Qed.

Lemma Receive_client_frames (t t' : STDIOTransport) (r : error + JSONRPCResponse) :
  Forall client_frame (trace t) ->
  STDIOTransport.Receive t = (t', r) -> Forall client_frame (trace t').
Proof. intros Ht H. by rewrite (Receive_trace _ _ _ H). Qed.

Ltac frame_facts :=
  repeat match goal with
    | W : Forall client_frame (trace ?t), H : STDIOTransport.Send ?t ?r = (_, _) |- _ =>
        let F := fresh "Hframe" in
        assert (client_frame (Wrote r)) as F by (simpl; auto 10);
        pose proof (Send_client_frames _ _ _ _ W F H); clear H F
    | W : Forall client_frame (trace ?t), H : STDIOTransport.Receive ?t = (_, _) |- _ =>
        pose proof (Receive_client_frames _ _ _ W H); clear H
    | W : Forall client_frame (trace ?t), H : STDIOTransport.Close ?t = (_, _) |- _ =>
        pose proof (Close_client_frames _ _ _ W H); clear H
    | W : Forall client_frame (trace ?t), H : STDIOTransport.Start ?t = (_, _) |- _ =>
        pose proof (Start_client_frames _ _ _ W H); clear H
    end.

Lemma perform_client_frames (c : Client) (o : operation) :
  Forall client_frame (trace (transport c)) ->
  Forall client_frame (trace (transport (perform c o))).
Proof.
  intros Hc. destruct o; simpl.
  all: unfold Client.Connect, Client.Initialize, Client.ListTools, Client.CallTool,
         Client.Shutdown, Client.Close.
  all: repeat case_match; simplify_eq; simpl in *; frame_facts; done.
Qed.

(** X24.  Every frame a session writes has jsonrpc 2.0.  It is a request
    that carries an id and one of the methods initialize, tools/list,
    tools/call and shutdown, or it is the initialized notification, which
    carries no id and no params; no other method is ever written. *)
Theorem session_writes_client_frames
  (os : Child) (server : MCPServer) (c0 : Client) (ops : list operation) (f : Frame)
  (Hnew : NewClient os server = inr c0)
  (Hwritten : In (Wrote f) (trace (transport (run c0 ops)))) :
  frame_jsonrpc f = "2.0" /\
  (is_Some (frame_id f) <->
   In (frame_method f) [MethodInitialize; MethodListTools; MethodCallTool; MethodShutdown]) /\
  (frame_id f = None <-> frame_method f = MethodInitialized) /\
  (frame_id f = None -> frame_params f = None).
Proof.
  apply NewClient_inv in Hnew. subst c0.
  assert (forall c, Forall client_frame (trace (transport c)) ->
                    Forall client_frame (trace (transport (run c ops)))) as Hrun.
  { clear Hwritten. induction ops as [|o ops IH]; intros c Hc; simpl; [done|].
    apply IH. by apply perform_client_frames. }
  specialize (Hrun (fresh_client os server) (List.Forall_nil _)).
  rewrite List.Forall_forall in Hrun. specialize (Hrun _ Hwritten).
  destruct Hrun as [Hversion Hkind]. split; [done|].
  destruct (frame_id f) as [i|].
  - split; [split; [done|by eexists]|]. split; [|done]. split; [done|].
    intros Hm. rewrite Hm in Hkind. simpl in Hkind. intuition discriminate.
  - destruct Hkind as [Hm Hp]. split; [|done]. split.
    + intros [i Hi]. discriminate Hi.
    + intros Hin. rewrite Hm in Hin. simpl in Hin. intuition discriminate.
Qed.

Lemma session_writes_client_frames_witness :
  let os := child_printing [initialize_response; tools_response] in
  let ops := [OpConnect; OpInitialize; OpListTools] in
  let f := {| frame_jsonrpc := "2.0"; frame_id := None;
              frame_method := MethodInitialized; frame_params := None |} in
  In (Wrote f) (trace (transport (run (fresh_client os fs_server) ops))) /\
  (frame_id f = None <-> frame_method f = MethodInitialized).
Proof.
  intros os ops f.
  assert (In (Wrote f) (trace (transport (run (fresh_client os fs_server) ops)))) as Hin.
  { vm_compute. do 3 right. by left. }
  split; [exact Hin|].
  exact (proj1 (proj2 (proj2 (session_writes_client_frames os fs_server
                                (fresh_client os fs_server) ops f eq_refl Hin)))).
Defined.
